(** * Client-side aggregation of the admin dashboard

    A shallow embedding of the aggregation and filtering code of the
    dashboard pages ([Analytics.tsx], the gallery page and the user
    management page), together with the ECMAScript built-ins that code
    calls ([Date], [toISOString], [Object.entries], [Array.prototype.sort],
    string methods), and the properties of that code.

    Conventions.
    - A JavaScript number that the code uses as an integer is a [Z]; the
      quantities below stay under 2^53, where double arithmetic is exact.
    - A string is a [string]; one [ascii] stands for one code unit.
    - A [Date] is its time value in milliseconds since the epoch, [None]
      standing for the NaN time value of an Invalid Date.
    - Code that can throw returns a [result]. *)

From Stdlib Require Import ZArith QArith Qround List String Ascii Bool Lia Permutation.
From Stdlib Require Import Sorting.Sorted.
Import ListNotations.

Open Scope Z_scope.

(** ** Exceptions *)

Inductive exn : Type :=
| RangeError (msg : string)
| TypeError (msg : string).

Inductive result (A : Type) : Type :=
| Ok (a : A)
| Throw (e : exn).

Arguments Ok {A} a.
Arguments Throw {A} e.

Definition bind {A B : Type} (r : result A) (k : A -> result B) : result B :=
  match r with
  | Ok a => k a
  | Throw e => Throw e
  end.

Notation "x <- r ;; k" := (bind r (fun x => k))
  (at level 61, r at next level, right associativity).

(** ** Strings *)

Module Str.

(** [s.startsWith(p)] *)
Fixpoint startsWith (s p : string) : bool :=
  match p, s with
  | EmptyString, _ => true
  | String _ _, EmptyString => false
  | String b p', String a s' => Ascii.eqb a b && startsWith s' p'
  end.

(** [s.includes(p)] *)
Fixpoint includes (s p : string) : bool :=
  startsWith s p ||
  match s with
  | EmptyString => false
  | String _ s' => includes s' p
  end.

(** [s.slice(0, n)] for a non-negative [n] *)
Fixpoint take (n : nat) (s : string) : string :=
  match n, s with
  | O, _ => EmptyString
  | _, EmptyString => EmptyString
  | S n', String a s' => String a (take n' s')
  end.

(** [s.split(c)[0]]: the text before the first [c], all of [s] when there
    is none. *)
Fixpoint beforeFirst (c : ascii) (s : string) : string :=
  match s with
  | EmptyString => EmptyString
  | String a s' => if Ascii.eqb a c then EmptyString else String a (beforeFirst c s')
  end.

(** [parts.join(sep)] *)
Fixpoint join (sep : string) (parts : list string) : string :=
  match parts with
  | [] => EmptyString
  | [p] => p
  | p :: rest => (p ++ sep ++ join sep rest)%string
  end.

(** Comparison by code units; -1, 0 or 1. *)
Fixpoint compare (a b : string) : Z :=
  match a, b with
  | EmptyString, EmptyString => 0
  | EmptyString, String _ _ => -1
  | String _ _, EmptyString => 1
  | String x a', String y b' =>
      if (nat_of_ascii x <? nat_of_ascii y)%nat then -1
      else if (nat_of_ascii y <? nat_of_ascii x)%nat then 1
      else compare a' b'
  end.

Definition digitChar (n : Z) : ascii :=
  match n with
  | 0 => "0" | 1 => "1" | 2 => "2" | 3 => "3" | 4 => "4"
  | 5 => "5" | 6 => "6" | 7 => "7" | 8 => "8" | _ => "9"
  end%char.

Definition digitVal (c : ascii) : option Z :=
  let n := Z.of_nat (nat_of_ascii c) in
  if (48 <=? n) && (n <=? 57) then Some (n - 48) else None.

(** The last [w] decimal digits of [n], most significant first. *)
Fixpoint padDigits (w : nat) (n : Z) : string :=
  match w with
  | O => EmptyString
  | S w' => String (digitChar ((n / 10 ^ Z.of_nat w') mod 10)) (padDigits w' n)
  end.

(** [String(n)] for an integer [n]: decimal, no leading zero. *)
Fixpoint ofDigits (fuel : nat) (n : Z) (acc : string) : string :=
  match fuel with
  | O => acc
  | S f =>
      let acc' := String (digitChar (n mod 10)) acc in
      if n / 10 =? 0 then acc' else ofDigits f (n / 10) acc'
  end.

Definition ofZ (n : Z) : string :=
  if n <? 0 then String "-"%char (ofDigits (S (Z.to_nat (Z.log2 (- n)))) (- n) EmptyString)
  else ofDigits (S (Z.to_nat (Z.log2 n))) n EmptyString.

Definition newlineChar : ascii := "010"%char.

Definition newline : string := String newlineChar EmptyString.

(** [s.split(c)] for a one-character separator. *)
Fixpoint splitOn (c : ascii) (s : string) : list string :=
  match s with
  | EmptyString => [EmptyString]
  | String a s' =>
      if Ascii.eqb a c then EmptyString :: splitOn c s'
      else
        match splitOn c s' with
        | h :: t => String a h :: t
        | [] => [String a EmptyString]
        end
  end.

(** No character of [s] is [c]. *)
Fixpoint lacks (c : ascii) (s : string) : bool :=
  match s with
  | EmptyString => true
  | String a s' => negb (Ascii.eqb a c) && lacks c s'
  end.

(** Value of a string of decimal digits; [None] when another character
    occurs. *)
Fixpoint digitsValAcc (s : string) (acc : Z) : option Z :=
  match s with
  | EmptyString => Some acc
  | String c s' =>
      match digitVal c with
      | Some d => digitsValAcc s' (10 * acc + d)
      | None => None
      end
  end.

End Str.

(** ** Dates (ECMAScript, section "Date Objects") *)

Module JsDate.

Definition msPerDay : Z := 86400000.
Definition msPerHour : Z := 3600000.
Definition msPerMinute : Z := 60000.
Definition msPerSecond : Z := 1000.

(** Largest magnitude of a time value. *)
Definition maxTime : Z := 8640000000000000.

Definition Date : Type := option Z.

(** [new Date(t)] for a number [t]. *)
Definition TimeClip (t : Z) : Date :=
  if Z.abs t <=? maxTime then Some t else None.

Definition Day (t : Z) : Z := t / msPerDay.

Definition DayFromYear (y : Z) : Z :=
  365 * (y - 1970) + (y - 1969) / 4 - (y - 1901) / 100 + (y - 1601) / 400.

Definition isLeap (y : Z) : bool :=
  (y mod 4 =? 0) && (negb (y mod 100 =? 0) || (y mod 400 =? 0)).

Definition leapDay (y : Z) : Z := if isLeap y then 1 else 0.

(** The year of day [d]: the largest [y] with [DayFromYear y <= d]. *)
Definition YearFromDay (d : Z) : Z :=
  let y := 1970 + (400 * d) / 146097 in
  if DayFromYear (y + 1) <=? d then y + 1
  else if DayFromYear y <=? d then y
  else y - 1.

(** Month (1 to 12) and day of the month of the day [n] of a year. *)
Definition monthDay (leap n : Z) : Z * Z :=
  if n <? 31 then (1, n + 1)
  else if n <? 59 + leap then (2, n - 30)
  else if n <? 90 + leap then (3, n - 58 - leap)
  else if n <? 120 + leap then (4, n - 89 - leap)
  else if n <? 151 + leap then (5, n - 119 - leap)
  else if n <? 181 + leap then (6, n - 150 - leap)
  else if n <? 212 + leap then (7, n - 180 - leap)
  else if n <? 243 + leap then (8, n - 211 - leap)
  else if n <? 273 + leap then (9, n - 242 - leap)
  else if n <? 304 + leap then (10, n - 272 - leap)
  else if n <? 334 + leap then (11, n - 303 - leap)
  else (12, n - 333 - leap).

(** Days before month [m] (1 to 12) in a year. *)
Definition daysBeforeMonth (leap m : Z) : Z :=
  match m with
  | 1 => 0 | 2 => 31 | 3 => 59 + leap | 4 => 90 + leap | 5 => 120 + leap
  | 6 => 151 + leap | 7 => 181 + leap | 8 => 212 + leap | 9 => 243 + leap
  | 10 => 273 + leap | 11 => 304 + leap | _ => 334 + leap
  end.

Record civil : Type := mkCivil { year : Z; month : Z; mday : Z }.

Definition civilOfDay (d : Z) : civil :=
  let y := YearFromDay d in
  let md := monthDay (leapDay y) (d - DayFromYear y) in
  mkCivil y (fst md) (snd md).

Definition dayOfCivil (c : civil) : Z :=
  DayFromYear (year c) + daysBeforeMonth (leapDay (year c)) (month c) + (mday c - 1).

(** The year of the date-time format: four digits from 0 to 9999, else a
    sign and six digits. *)
Definition fmtYear (y : Z) : string :=
  if (0 <=? y) && (y <=? 9999) then Str.padDigits 4 y
  else String (if 0 <=? y then "+"%char else "-"%char) (Str.padDigits 6 (Z.abs y)).

Definition fmtDate (c : civil) : string :=
  (fmtYear (year c) ++ "-" ++ Str.padDigits 2 (month c) ++ "-" ++ Str.padDigits 2 (mday c))%string.

(** The month text, [YYYY-MM], of a date with a four-digit year. *)
Definition monthKey (c : civil) : string :=
  (Str.padDigits 4 (year c) ++ "-" ++ Str.padDigits 2 (month c))%string.

(** [c1] is in an earlier month than [c2]. *)
Definition monthBefore (c1 c2 : civil) : Prop :=
  year c1 < year c2 \/ (year c1 = year c2 /\ month c1 < month c2).

(** The date text of the day number [d]. *)
Definition dateOfDay (d : Z) : string := fmtDate (civilOfDay d).

(** The dates whose text is two digits for the month and the day and at most
    six for the year. *)
Definition okCivil (c : civil) : Prop :=
  -999999 <= year c <= 999999 /\ 1 <= month c <= 12 /\ 1 <= mday c <= 31.

Definition fmtTime (t : Z) : string :=
  let ms := t mod msPerDay in
  (Str.padDigits 2 (ms / msPerHour) ++ ":" ++
   Str.padDigits 2 ((ms / msPerMinute) mod 60) ++ ":" ++
   Str.padDigits 2 ((ms / msPerSecond) mod 60) ++ "." ++
   Str.padDigits 3 (ms mod 1000) ++ "Z")%string.

(** [d.toISOString()]: a RangeError on an Invalid Date. *)
Definition toISOString (d : Date) : result string :=
  match d with
  | None => Throw (RangeError "Invalid time value")
  | Some t => Ok (fmtDate (civilOfDay (Day t)) ++ "T" ++ fmtTime t)%string
  end.

(** [a >= b] on two Dates: false as soon as one is invalid. *)
Definition ge (a b : Date) : bool :=
  match a, b with
  | Some x, Some y => y <=? x
  | _, _ => false
  end.

End JsDate.

(** [new Date(s)] for a string [s].  [Date.parse] is a parameter of the
    development ([parse]): it is fixed only on the ISO format and left to the
    implementation elsewhere; [None] is its NaN. *)
Definition newDateOfString (parse : string -> option Z) (s : string) : JsDate.Date :=
  match parse s with
  | Some t => JsDate.TimeClip t
  | None => None
  end.

(** One [Date.parse]: the date-time format in UTC, [YYYY-MM],
    [YYYY-MM-DD], [YYYY-MM-DDTHH:mm:ssZ] and [YYYY-MM-DDTHH:mm:ss.sssZ],
    and NaN on every other text. *)
Module IsoParse.

Definition obind {A B : Type} (o : option A) (k : A -> option B) : option B :=
  match o with
  | Some a => k a
  | None => None
  end.

Notation "x <-? o ;; k" := (obind o (fun x => k))
  (at level 61, o at next level, right associativity).

Fixpoint digits (n : nat) (acc : Z) (s : string) : option (Z * string) :=
  match n with
  | O => Some (acc, s)
  | S n' =>
      match s with
      | EmptyString => None
      | String c s' =>
          d <-? Str.digitVal c ;; digits n' (10 * acc + d) s'
      end
  end.

Definition expect (c : ascii) (s : string) : option string :=
  match s with
  | EmptyString => None
  | String a s' => if Ascii.eqb a c then Some s' else None
  end.

Definition daysInMonth (y m : Z) : Z :=
  match m with
  | 2 => 28 + JsDate.leapDay y
  | 4 | 6 | 9 | 11 => 30
  | _ => 31
  end.

Definition makeTime (y m d h mi sec ms : Z) : option Z :=
  if (1 <=? m) && (m <=? 12) && (1 <=? d) && (d <=? daysInMonth y m)
     && (h <=? 23) && (mi <=? 59) && (sec <=? 59)
  then Some (JsDate.dayOfCivil (JsDate.mkCivil y m d) * JsDate.msPerDay
             + h * JsDate.msPerHour + mi * JsDate.msPerMinute
             + sec * JsDate.msPerSecond + ms)
  else None.

Definition timePart (y m d : Z) (s : string) : option Z :=
  s <-? expect "T" s ;;
  hs <-? digits 2 0 s ;;
  s <-? expect ":" (snd hs) ;;
  ms <-? digits 2 0 s ;;
  s <-? expect ":" (snd ms) ;;
  ss <-? digits 2 0 s ;;
  if String.eqb (snd ss) "Z" then makeTime y m d (fst hs) (fst ms) (fst ss) 0
  else
    s <-? expect "." (snd ss) ;;
    fs <-? digits 3 0 s ;;
    if String.eqb (snd fs) "Z" then makeTime y m d (fst hs) (fst ms) (fst ss) (fst fs)
    else None.

Definition parse (s : string) : option Z :=
  ys <-? digits 4 0 s ;;
  s <-? expect "-" (snd ys) ;;
  ms <-? digits 2 0 s ;;
  if String.eqb (snd ms) "" then makeTime (fst ys) (fst ms) 1 0 0 0 0
  else
    s <-? expect "-" (snd ms) ;;
    ds <-? digits 2 0 s ;;
    if String.eqb (snd ds) "" then makeTime (fst ys) (fst ms) (fst ds) 0 0 0 0
    else timePart (fst ys) (fst ms) (fst ds) (snd ds).

End IsoParse.

(** ** Numbers of the averages *)

Module JsNum.

Inductive number : Type :=
| Finite (q : Q)
| NaN
| Infinity (negative : bool).

Definition ofZ (z : Z) : number := Finite (inject_Z z).

(** [a / b] on two integers. *)
Definition div (a b : Z) : number :=
  if b =? 0 then (if a =? 0 then NaN else Infinity (a <? 0))
  else if 0 <? b then Finite (a # Z.to_pos b)
  else Finite ((- a) # Z.to_pos (- b)).

(** [Math.round]: the nearest integer, halves upwards. *)
Definition round (x : number) : number :=
  match x with
  | Finite q => Finite (inject_Z (Qfloor (q + (1 # 2))))
  | other => other
  end.

(** [x || y]: [y] when [x] is NaN or zero. *)
Definition orElse (x y : number) : number :=
  match x with
  | NaN => y
  | Finite q => if Qeq_bool q 0 then y else x
  | Infinity _ => x
  end.

End JsNum.

(** The distinct elements of [l] in the order of their first occurrence. *)
Fixpoint firstSeen (l : list string) : list string :=
  match l with
  | [] => []
  | k :: l' => k :: filter (fun x => negb (String.eqb x k)) (firstSeen l')
  end.

(** [x] is none of [seen]. *)
Definition fresh (seen : list string) (x : string) : bool :=
  negb (existsb (String.eqb x) seen).

(** [x] occurs before [y] in [l]. *)
Definition Before {A : Type} (x y : A) (l : list A) : Prop :=
  exists l1 l2 l3, l = l1 ++ x :: l2 ++ y :: l3.

(** [s] keeps some elements of [l], in the order of [l]. *)
Inductive Subseq {A : Type} : list A -> list A -> Prop :=
| Subseq_nil : Subseq [] []
| Subseq_keep x s l : Subseq s l -> Subseq (x :: s) (x :: l)
| Subseq_skip x s l : Subseq s l -> Subseq s (x :: l).

(** ** Arrays *)

Module JsArray.

Section Sort.
Context {A : Type}.
(** The comparator of [sort]: a positive result places its first argument
    after its second. *)
Variable cmp : A -> A -> Z.

Fixpoint insert (x : A) (l : list A) : list A :=
  match l with
  | [] => [x]
  | y :: l' => if 0 <? cmp x y then y :: insert x l' else x :: l
  end.

(** [a.sort(cmp)]: the sort is stable, so for a consistent comparator the
    result is the one of a stable insertion sort. *)
Definition sort (l : list A) : list A := fold_right insert [] l.
End Sort.

(** [a.slice(0, n)] for a non-negative [n]. *)
Definition sliceTo {A : Type} (n : nat) (l : list A) : list A := firstn n l.

(** [a.slice(-n)]: the last [n] elements; all of them when [n] is 0, for
    [-0] is 0. *)
Definition sliceLast {A : Type} (n : nat) (l : list A) : list A :=
  match n with
  | O => l
  | S _ => skipn (List.length l - n) l
  end.

(** [Array(n).fill(v)]: a RangeError unless [n] is a valid array length. *)
Definition filled {A : Type} (n : Z) (v : A) : result (list A) :=
  if (0 <=? n) && (n <? 4294967296) then Ok (repeat v (Z.to_nat n))
  else Throw (RangeError "Invalid array length").

End JsArray.

(** ** Plain objects used as maps, and sets *)

Module JsObject.

(** The own properties of an object created by [{}], in creation order. *)
Definition t (V : Type) : Type := list (string * V).

Definition empty {V : Type} : t V := [].

(** [o[k]] on own properties. *)
Fixpoint get {V : Type} (o : t V) (k : string) : option V :=
  match o with
  | [] => None
  | (k', v) :: o' => if String.eqb k' k then Some v else get o' k
  end.

(** [o[k] = v]: an existing property keeps its place, a new one is created
    last. *)
Fixpoint set {V : Type} (o : t V) (k : string) (v : V) : t V :=
  match o with
  | [] => [(k, v)]
  | (k', v') :: o' =>
      if String.eqb k' k then (k', v) :: o' else (k', v') :: set o' k v
  end.

(** A key is an array index when it is the canonical decimal form of an
    integer from 0 to 2^32 - 2. *)
Definition arrayIndex (k : string) : option Z :=
  match k with
  | EmptyString => None
  | String c rest =>
      if Ascii.eqb c "0" && negb (String.eqb rest "") then None
      else
        match Str.digitsValAcc k 0 with
        | Some n => if n <? 4294967295 then Some n else None
        | None => None
        end
  end.

Definition isIndexKey {V : Type} (e : string * V) : bool :=
  match arrayIndex (fst e) with Some _ => true | None => false end.

Definition indexOf {V : Type} (e : string * V) : Z :=
  match arrayIndex (fst e) with Some n => n | None => 0 end.

Definition byIndex {V : Type} (a b : string * V) : Z := indexOf a - indexOf b.

(** [Object.entries(o)] (OrdinaryOwnPropertyKeys): the array-index keys in
    ascending numeric order, then the other keys in creation order. *)
Definition entries {V : Type} (o : t V) : list (string * V) :=
  JsArray.sort byIndex (filter isIndexKey o)
  ++ filter (fun e => negb (isIndexKey e)) o.

(** The property names every object inherits from [Object.prototype].  On
    these, [o[k]] does not read an own property of a fresh [{}]; [get] and
    [set] describe the code on all other keys. *)
Definition inheritedKeys : list string :=
  ["constructor"; "__defineGetter__"; "__defineSetter__"; "hasOwnProperty";
   "__lookupGetter__"; "__lookupSetter__"; "isPrototypeOf";
   "propertyIsEnumerable"; "toString"; "valueOf"; "__proto__";
   "toLocaleString"]%string.

End JsObject.


(** [new Set(a).size] *)
Definition setSize {A : Type} (eq_dec : forall x y : A, {x = y} + {x <> y})
    (l : list A) : Z :=
  Z.of_nat (List.length (nodup eq_dec l)).

(** ** Records of the store *)

Record GeneratedImage : Type := mkImage {
  id : string;
  userId : string;
  url : string;
  prompt : string;
  size : string;
  quality : string;
  createdAt : string
}.

(** ** The analytics page *)

Module Analytics.

(** A user row; [None] is a missing ([undefined] or [null]) field. *)
Record User : Type := mkUser {
  user_id : string;
  email : string;
  displayName : option string;
  role : option string;
  user_createdAt : option string
}.

Record DayStat : Type := mkDayStat {
  date : string;
  users : Z;
  images : Z
}.

Record PromptCount : Type := mkPromptCount {
  pc_prompt : string;
  pc_count : Z
}.

Record MonthUsers : Type := mkMonthUsers {
  mu_month : string;
  mu_users : Z
}.

Record AnalyticsData : Type := mkData {
  totalUsers : Z;
  totalImages : Z;
  dailyStats : list DayStat;
  topPrompts : list PromptCount;
  userGrowth : list MonthUsers
}.

(** [acc[k] || 0] *)
Definition orZero (v : option Z) : Z :=
  match v with
  | Some n => if n =? 0 then 0 else n
  | None => 0
  end.

Definition bump (acc : JsObject.t Z) (k : string) : JsObject.t Z :=
  JsObject.set acc k (orZero (JsObject.get acc k) + 1).

(** The count an object holds for a key, 0 when it has none. *)
Definition countOf (acc : JsObject.t Z) (k : string) : Z := orZero (JsObject.get acc k).

Definition daysBack (timeRange : string) : nat :=
  if String.eqb timeRange "7d" then 7%nat
  else if String.eqb timeRange "30d" then 30%nat
  else 90%nat.

Section WithBuiltins.

(** [Date.parse]. *)
Variable parse : string -> option Z.
(** [d.toLocaleDateString('en-US', { month: 'short', year: 'numeric' })],
    which depends on the time zone of the host. *)
Variable monthYearLabel : JsDate.Date -> string.
(** The clock, [new Date()]; one run reads it as one instant. *)
Variable now : Z.

Definition startDate (days : nat) : JsDate.Date :=
  JsDate.TimeClip (now - Z.of_nat days * 24 * 60 * 60 * 1000).

Definition inRange (days : nat) (img : GeneratedImage) : bool :=
  JsDate.ge (newDateOfString parse (createdAt img)) (startDate days).

Definition filteredImages (days : nat) (imgs : list GeneratedImage) : list GeneratedImage :=
  filter (inRange days) imgs.

Definition dayImages (filtered : list GeneratedImage) (dateStr : string) : list GeneratedImage :=
  filter (fun img => Str.startsWith (createdAt img) dateStr) filtered.

Definition dayStat (filtered : list GeneratedImage) (dateStr : string) : DayStat :=
  let dImages := dayImages filtered dateStr in
  let dayUsers := setSize string_dec (map userId dImages) in
  mkDayStat dateStr dayUsers (Z.of_nat (List.length dImages)).

(** The date text of the day [i] days before [now]. *)
Definition dateStrAt (i : Z) : result string :=
  iso <- JsDate.toISOString (JsDate.TimeClip (now - i * 24 * 60 * 60 * 1000)) ;;
  Ok (Str.beforeFirst "T" iso).

(** The loop [for (let i = n - 1; i >= 0; i--)], pushing one entry per
    round. *)
Fixpoint dailyStatsLoop (filtered : list GeneratedImage) (n : nat) : result (list DayStat) :=
  match n with
  | O => Ok []
  | S i =>
      dateStr <- dateStrAt (Z.of_nat i) ;;
      rest <- dailyStatsLoop filtered i ;;
      Ok (dayStat filtered dateStr :: rest)
  end.

Definition truncPrompt (img : GeneratedImage) : string :=
  (Str.take 50 (prompt img)
   ++ (if (50 <? String.length (prompt img))%nat then "..." else ""))%string.

Definition promptCounts (filtered : list GeneratedImage) : JsObject.t Z :=
  fold_left (fun acc img => bump acc (truncPrompt img)) filtered JsObject.empty.

Definition byCountDesc (a b : string * Z) : Z := snd b - snd a.

Definition topPromptsOf (limit : nat) (filtered : list GeneratedImage) : list PromptCount :=
  map (fun e => mkPromptCount (fst e) (snd e))
    (JsArray.sliceTo limit
       (JsArray.sort byCountDesc (JsObject.entries (promptCounts filtered)))).

(** [new Date(user.createdAt || new Date())]: the Date of [createdAt], of
    the clock when that is missing or empty. *)
Definition userDate (u : User) : JsDate.Date :=
  match user_createdAt u with
  | Some s => if String.eqb s "" then Some now else newDateOfString parse s
  | None => Some now
  end.

Definition userMonth (u : User) : result string :=
  iso <- JsDate.toISOString (userDate u) ;;
  Ok (Str.take 7 iso).

Fixpoint monthlyUsersFrom (acc : JsObject.t Z) (us : list User) : result (JsObject.t Z) :=
  match us with
  | [] => Ok acc
  | u :: us' =>
      m <- userMonth u ;;
      monthlyUsersFrom (bump acc m) us'
  end.

Definition monthlyUsers (us : list User) : result (JsObject.t Z) :=
  monthlyUsersFrom JsObject.empty us.

(** The month keys of the users, in their order. *)
Fixpoint userMonths (us : list User) : result (list string) :=
  match us with
  | [] => Ok []
  | u :: us' =>
      m <- userMonth u ;;
      ms <- userMonths us' ;;
      Ok (m :: ms)
  end.

(** A user whose date is valid and has a four-digit year: the month key
    is then the [YYYY-MM] of that date. *)
Definition datedUser (u : User) (c : JsDate.civil) : Prop :=
  exists t, userDate u = Some t
            /\ c = JsDate.civilOfDay (JsDate.Day t)
            /\ 0 <= JsDate.year c <= 9999.

(** [a.localeCompare(b)] on month keys: keys of one shape, digits and a
    hyphen in the same places, which collation orders as their code
    units. *)
Definition byKey (a b : string * Z) : Z := Str.compare (fst a) (fst b).

(** The entries of the growth chart before they are labelled. *)
Definition growthEntries (monthsBack : nat) (us : list User) : result (list (string * Z)) :=
  acc <- monthlyUsers us ;;
  Ok (JsArray.sliceLast monthsBack (JsArray.sort byKey (JsObject.entries acc))).

Definition monthLabel (m : string) : string :=
  monthYearLabel (newDateOfString parse (m ++ "-01")%string).

Definition userGrowthOf (monthsBack : nat) (us : list User) : result (list MonthUsers) :=
  es <- growthEntries monthsBack us ;;
  Ok (map (fun e => mkMonthUsers (monthLabel (fst e)) (snd e)) es).

(** The body of [loadAnalytics] between the two reads and [setData]. *)
Definition loadAnalytics (timeRange : string) (us : list User)
    (imgs : list GeneratedImage) : result AnalyticsData :=
  let days := daysBack timeRange in
  let filtered := filteredImages days imgs in
  stats <- dailyStatsLoop filtered days ;;
  let top := topPromptsOf 10 filtered in
  growth <- userGrowthOf 6 us ;;
  Ok (mkData (Z.of_nat (List.length us)) (Z.of_nat (List.length imgs)) stats top growth).

End WithBuiltins.

(** The day numbers of the [n] days that end on the day of [now], oldest
    first. *)
Definition coveredDays (now : Z) (n : nat) : list Z :=
  map (fun k => JsDate.Day now - Z.of_nat n + 1 + Z.of_nat k) (seq 0 n).

(** The records that fall in one of the buckets, and the number of their
    distinct users. *)
Definition bucketed (stats : list DayStat) (filtered : list GeneratedImage) : list GeneratedImage :=
  filter (fun img => existsb (fun s => Str.startsWith (createdAt img) (date s)) stats) filtered.

Definition distinctUsers (stats : list DayStat) (filtered : list GeneratedImage) : Z :=
  setSize string_dec (map userId (bucketed stats filtered)).

(** [bucketByDay]: the time filter followed by the per-day loop. *)
Definition bucketByDay (parse : string -> option Z) (now : Z) (days : nat)
    (imgs : list GeneratedImage) : result (list DayStat) :=
  dailyStatsLoop now (filteredImages parse now days imgs) days.


(** [exportData]: the text handed to the download. *)
Definition csvRow (stat : DayStat) : list string :=
  [date stat; Str.ofZ (users stat); Str.ofZ (images stat)].

Definition csvContent (stats : list DayStat) : string :=
  Str.join Str.newline
    (map (Str.join ",")
       ((["Date"; "Users"; "Images"]%string) :: map csvRow stats)).

(** The text of one row of the export. *)
Definition csvLine (stat : DayStat) : string :=
  (date stat ++ "," ++ Str.ofZ (users stat) ++ "," ++ Str.ofZ (images stat))%string.

(** The "Avg per Day" card:
    [Math.round(stats.reduce((sum, stat) => sum + stat.images, 0) / stats.length) || 0]. *)
Definition avgPerDay (stats : list DayStat) : JsNum.number :=
  JsNum.orElse
    (JsNum.round
       (JsNum.div (fold_left (fun sum stat => sum + images stat) stats 0)
                  (Z.of_nat (List.length stats))))
    (JsNum.ofZ 0).

(** [stats.flatMap(stat => Array(stat.users).fill(0))] *)
Fixpoint userZeros (stats : list DayStat) : result (list Z) :=
  match stats with
  | [] => Ok []
  | stat :: rest =>
      zs <- JsArray.filled (users stat) 0 ;;
      more <- userZeros rest ;;
      Ok (zs ++ more)
  end.

(** The "Active Users" card: [new Set(...).size] of the array above. *)
Definition activeUsers (stats : list DayStat) : result Z :=
  zs <- userZeros stats ;;
  Ok (setSize Z.eq_dec zs).

End Analytics.

(** ** The gallery page *)

Module Gallery.

Section Filter.
(** [s.toLowerCase()] *)
Variable toLowerCase : string -> string.

Definition filteredImages (searchQuery sizeFilter qualityFilter : string)
    (images : list GeneratedImage) : list GeneratedImage :=
  filter (fun image =>
    let matchesSearch := Str.includes (toLowerCase (prompt image)) (toLowerCase searchQuery) in
    let matchesSize := String.eqb sizeFilter "all" || String.eqb (size image) sizeFilter in
    let matchesQuality := String.eqb qualityFilter "all" || String.eqb (quality image) qualityFilter in
    matchesSearch && matchesSize && matchesQuality) images.
End Filter.

End Gallery.

(** ** The user management page *)

Module UserManagement.

Inductive Status : Type := active | inactive | banned.

Record User : Type := mkUser {
  id : string;
  email : string;
  displayName : option string;
  role : option string;
  createdAt : string;
  lastActive : option string;
  imageCount : option Z;
  status : Status
}.

(** [images.reduce((acc, img) => { acc[img.userId] = (acc[img.userId] || 0) + 1; return acc }, {})] *)
Definition imageCounts (images : list GeneratedImage) : JsObject.t Z :=
  fold_left (fun acc img => Analytics.bump acc (userId img)) images JsObject.empty.

Section Filter.
Variable toLowerCase : string -> string.

(** The optional chain on [displayName] is [undefined], hence false in
    the filter, when the name is missing. *)
Definition filteredUsers (searchQuery : string) (users : list User) : list User :=
  filter (fun user =>
    Str.includes (toLowerCase (email user)) (toLowerCase searchQuery)
    || match displayName user with
       | Some name => Str.includes (toLowerCase name) (toLowerCase searchQuery)
       | None => false
       end) users.
End Filter.

End UserManagement.

(** ASCII letters to lower case, the other code units unchanged. *)
Fixpoint asciiLower (s : string) : string :=
  match s with
  | EmptyString => EmptyString
  | String c s' =>
      let n := nat_of_ascii c in
      String (if ((65 <=? n) && (n <=? 90))%nat then ascii_of_nat (n + 32) else c)
             (asciiLower s')
  end.


(** ** The same code on a store

    Arrays and objects are mutable and shared in JavaScript.  Here they live
    in a store, the code holds references to them, and each array method
    does to the store what the language says: [filter], [map], [slice] and
    [Object.entries] create a new array, [push] and [sort] change the array
    they are called on, an assignment [acc[k] = v] changes the object. *)

Module Heap.

Inductive cell : Type :=
| Users (a : list Analytics.User)
| Images (a : list GeneratedImage)
| Strings (a : list string)
| Stats (a : list Analytics.DayStat)
| Entries (a : list (string * Z))
| Prompts (a : list Analytics.PromptCount)
| Months (a : list Analytics.MonthUsers)
| Counts (o : JsObject.t Z).

Definition store : Type := list cell.
Definition ref : Type := nat.

(** A computation gives an outcome and the store it leaves, also when it
    throws. *)
Definition M (A : Type) : Type := store -> result A * store.

Definition ret {A : Type} (a : A) : M A := fun s => (Ok a, s).

Definition throw {A : Type} (e : exn) : M A := fun s => (Throw e, s).

Definition lift {A : Type} (r : result A) : M A := fun s => (r, s).

Definition bindM {A B : Type} (m : M A) (k : A -> M B) : M B :=
  fun s =>
    match m s with
    | (Ok a, s') => k a s'
    | (Throw e, s') => (Throw e, s')
    end.

Notation "x <~ m ;; k" := (bindM m (fun x => k))
  (at level 61, m at next level, right associativity).

Fixpoint update (r : ref) (c : cell) (s : store) : store :=
  match s, r with
  | [], _ => []
  | _ :: s', O => c :: s'
  | c' :: s', S r' => c' :: update r' c s'
  end.

Definition alloc (c : cell) : M ref := fun s => (Ok (List.length s), s ++ [c]).

Definition read (r : ref) : M cell :=
  fun s =>
    match nth_error s r with
    | Some c => (Ok c, s)
    | None => (Throw (TypeError "no such object"), s)
    end.

Definition write (r : ref) (c : cell) : M unit := fun s => (Ok tt, update r c s).

Definition readUsers (r : ref) : M (list Analytics.User) :=
  c <~ read r ;;
  match c with Users a => ret a | _ => throw (TypeError "not an array of users") end.

Definition readImages (r : ref) : M (list GeneratedImage) :=
  c <~ read r ;;
  match c with Images a => ret a | _ => throw (TypeError "not an array of images") end.

Definition readStrings (r : ref) : M (list string) :=
  c <~ read r ;;
  match c with Strings a => ret a | _ => throw (TypeError "not an array of strings") end.

Definition readStats (r : ref) : M (list Analytics.DayStat) :=
  c <~ read r ;;
  match c with Stats a => ret a | _ => throw (TypeError "not an array of statistics") end.

Definition readEntries (r : ref) : M (list (string * Z)) :=
  c <~ read r ;;
  match c with Entries a => ret a | _ => throw (TypeError "not an array of entries") end.

Definition readCounts (r : ref) : M (JsObject.t Z) :=
  c <~ read r ;;
  match c with Counts o => ret o | _ => throw (TypeError "not a counting object") end.

(** [a.filter(p)] *)
Definition filterImagesM (r : ref) (p : GeneratedImage -> bool) : M ref :=
  a <~ readImages r ;; alloc (Images (filter p a)).

(** [a.map(img => img.userId)] *)
Definition userIdsM (r : ref) : M ref :=
  a <~ readImages r ;; alloc (Strings (map userId a)).

(** [a.push(stat)] *)
Definition pushStat (r : ref) (stat : Analytics.DayStat) : M unit :=
  a <~ readStats r ;; write r (Stats (a ++ [stat])).

(** [acc[k] = (acc[k] || 0) + 1] *)
Definition bumpAt (r : ref) (k : string) : M unit :=
  o <~ readCounts r ;; write r (Counts (Analytics.bump o k)).

(** [Object.entries(o)] *)
Definition entriesM (r : ref) : M ref :=
  o <~ readCounts r ;; alloc (Entries (JsObject.entries o)).

(** [a.sort(cmp)]: in place; the result is the array itself. *)
Definition sortEntriesM (r : ref) (cmp : string * Z -> string * Z -> Z) : M ref :=
  a <~ readEntries r ;;
  _ <~ write r (Entries (JsArray.sort cmp a)) ;;
  ret r.

(** [a.slice(...)] *)
Definition sliceEntriesM (r : ref) (slice : list (string * Z) -> list (string * Z)) : M ref :=
  a <~ readEntries r ;; alloc (Entries (slice a)).

(** The rounds of [reduce] and of a loop over the elements. *)
Fixpoint forEach {A : Type} (f : A -> M unit) (l : list A) : M unit :=
  match l with
  | [] => ret tt
  | x :: l' => _ <~ f x ;; forEach f l'
  end.

(** What [setData] receives: the two totals and the three arrays. *)
Record AnalyticsRefs : Type := mkRefs {
  r_totalUsers : Z;
  r_totalImages : Z;
  r_dailyStats : ref;
  r_topPrompts : ref;
  r_userGrowth : ref
}.

Section WithBuiltins.
Variable parse : string -> option Z.
Variable monthYearLabel : JsDate.Date -> string.
Variable now : Z.

Fixpoint dailyLoopM (filtered dailyStats : ref) (n : nat) : M unit :=
  match n with
  | O => ret tt
  | S i =>
      dateStr <~ lift (Analytics.dateStrAt now (Z.of_nat i)) ;;
      dayImages <~ filterImagesM filtered
                     (fun img => Str.startsWith (createdAt img) dateStr) ;;
      ids <~ userIdsM dayImages ;;
      idList <~ readStrings ids ;;
      dayList <~ readImages dayImages ;;
      _ <~ pushStat dailyStats
             (Analytics.mkDayStat dateStr (setSize string_dec idList)
                (Z.of_nat (List.length dayList))) ;;
      dailyLoopM filtered dailyStats i
  end.

Definition loadAnalyticsM (timeRange : string) (users images : ref) : M AnalyticsRefs :=
  let days := Analytics.daysBack timeRange in
  filtered <~ filterImagesM images (Analytics.inRange parse now days) ;;
  dailyStats <~ alloc (Stats []) ;;
  _ <~ dailyLoopM filtered dailyStats days ;;
  promptCounts <~ alloc (Counts JsObject.empty) ;;
  filteredList <~ readImages filtered ;;
  _ <~ forEach (fun img => bumpAt promptCounts (Analytics.truncPrompt img)) filteredList ;;
  es <~ entriesM promptCounts ;;
  sorted <~ sortEntriesM es Analytics.byCountDesc ;;
  top <~ sliceEntriesM sorted (JsArray.sliceTo 10) ;;
  topList <~ readEntries top ;;
  topPrompts <~ alloc (Prompts (map (fun e => Analytics.mkPromptCount (fst e) (snd e)) topList)) ;;
  monthlyUsers <~ alloc (Counts JsObject.empty) ;;
  userList <~ readUsers users ;;
  _ <~ forEach (fun u => m <~ lift (Analytics.userMonth parse now u) ;;
                         bumpAt monthlyUsers m) userList ;;
  es' <~ entriesM monthlyUsers ;;
  sorted' <~ sortEntriesM es' Analytics.byKey ;;
  last <~ sliceEntriesM sorted' (JsArray.sliceLast 6) ;;
  lastList <~ readEntries last ;;
  userGrowth <~ alloc (Months (map (fun e => Analytics.mkMonthUsers
                                      (Analytics.monthLabel parse monthYearLabel (fst e))
                                      (snd e)) lastList)) ;;
  imageList <~ readImages images ;;
  ret (mkRefs (Z.of_nat (List.length userList)) (Z.of_nat (List.length imageList))
         dailyStats topPrompts userGrowth).
End WithBuiltins.

(** The per-user image counts of the user management page. *)
Definition imageCountsM (images : ref) : M ref :=
  acc <~ alloc (Counts JsObject.empty) ;;
  imageList <~ readImages images ;;
  _ <~ forEach (fun img => bumpAt acc (userId img)) imageList ;;
  ret acc.

End Heap.

(** ** Sample data *)

Module Sample.

(** 2024-01-03T12:00:00.000Z *)
Definition now : Z := 1704283200000.

Definition image (i u p t : string) : GeneratedImage :=
  mkImage i u ("https://cdn.example/" ++ i ++ ".png") p "1024x1024" "standard" t.

Definition images : list GeneratedImage :=
  [ image "i1" "a" "a cat" "2024-01-01T10:00:00.000Z";
    image "i2" "a" "a cat" "2024-01-01T12:00:00.000Z";
    image "i3" "b" "a dog" "2024-01-03T09:00:00.000Z" ]%string.

(** Two prompts that occur once each, the second an array index. *)
Definition numbered : list GeneratedImage :=
  [ image "n1" "a" "b" "2024-01-02T10:00:00.000Z";
    image "n2" "a" "1" "2024-01-02T11:00:00.000Z" ]%string.

(** 2024-02-01T00:00:00.000Z, after [now]. *)
Definition later : GeneratedImage :=
  image "i9" "c" "a bird" "2024-02-01T00:00:00.000Z".

Definition user (i : string) (t : option string) : Analytics.User :=
  Analytics.mkUser i (i ++ "@example.org") None None t.

(** Two users created in January 2024, one in March, none in February. *)
Definition users : list Analytics.User :=
  [ user "u1" (Some "2024-01-05T08:00:00.000Z");
    user "u2" (Some "2024-03-02T09:30:00.000Z");
    user "u3" (Some "2024-01-20T17:45:00.000Z") ]%string.

(** A user whose timestamp is empty, one whose timestamp is no date. *)
Definition blankUser : Analytics.User := user "u4" (Some "")%string.
Definition garbledUser : Analytics.User := user "u5" (Some "not a date")%string.

(** A month and year label in UTC. *)
Definition monthName (m : Z) : string :=
  nth (Z.to_nat (m - 1))
    ["Jan"; "Feb"; "Mar"; "Apr"; "May"; "Jun"; "Jul"; "Aug"; "Sep"; "Oct";
     "Nov"; "Dec"]%string "Dec"%string.

Definition utcLabel (d : JsDate.Date) : string :=
  match d with
  | None => "Invalid Date"
  | Some t =>
      let c := JsDate.civilOfDay (JsDate.Day t) in
      (monthName (JsDate.month c) ++ " " ++ Str.ofZ (JsDate.year c))%string
  end.

(** The dates of [users]. *)
Definition userDates : list JsDate.civil :=
  [ JsDate.mkCivil 2024 1 5; JsDate.mkCivil 2024 3 2; JsDate.mkCivil 2024 1 20 ].

(** An image whose timestamp is no date. *)
Definition garbled : GeneratedImage := image "i8" "d" "a fish" "yesterday".

Definition managed : list UserManagement.User :=
  [ UserManagement.mkUser "u1" "Ada@Example.org" (Some "Ada") (Some "admin")
      "2024-01-05T08:00:00.000Z" None (Some 2) UserManagement.active;
    UserManagement.mkUser "u2" "bob@example.org" None (Some "user")
      "2024-03-02T09:30:00.000Z" None (Some 0) UserManagement.active ]%string.

(** A store that holds the two arrays of the page, after another cell. *)
Definition store : Heap.store :=
  [ Heap.Strings ["unrelated"%string]; Heap.Users users; Heap.Images images ].

Definition stats : list Analytics.DayStat :=
  [ Analytics.mkDayStat "2024-01-01" 1 2; Analytics.mkDayStat "2024-01-02" 0 0;
    Analytics.mkDayStat "2024-01-03" 1 1 ].

End Sample.

(** ** Further code of the pages *)

(** The sum of a list of numbers. *)
Definition sumZ (l : list Z) : Z := fold_right Z.add 0 l.

(** [Date.prototype.toISOString] on a valid time value. *)
Definition isoOf (t : Z) : string :=
  (JsDate.fmtDate (JsDate.civilOfDay (JsDate.Day t)) ++ "T" ++ JsDate.fmtTime t)%string.

(** Reading the export back: a line [date,users,images] as a statistic. *)
Definition csvDecodeLine (line : string) : option Analytics.DayStat :=
  match Str.splitOn "," line with
  | [d; u; i] =>
      match Str.digitsValAcc u 0, Str.digitsValAcc i 0 with
      | Some nu, Some ni => Some (Analytics.mkDayStat d nu ni)
      | _, _ => None
      end
  | _ => None
  end.

Definition csvDecode (text : string) : list (option Analytics.DayStat) :=
  map csvDecodeLine (tl (Str.splitOn Str.newlineChar text)).

(** What the loop pushes: dates without comma or line break, counts that
    are not negative. *)
Definition exportable (stat : Analytics.DayStat) : Prop :=
  Str.lacks "," (Analytics.date stat) = true
  /\ Str.lacks Str.newlineChar (Analytics.date stat) = true
  /\ 0 <= Analytics.users stat /\ 0 <= Analytics.images stat.

(** Every character of [s] satisfies [p]. *)
Fixpoint allChars (p : ascii -> bool) (s : string) : bool :=
  match s with
  | EmptyString => true
  | String c s' => p c && allChars p s'
  end.

(** [v || d] on an optional text: [d] when [v] is missing or empty. *)
Definition orText (v : option string) (d : string) : string :=
  match v with
  | Some s => if String.eqb s "" then d else s
  | None => d
  end.

(** What [toast.success] and [toast.error] show. *)
Inductive Toast : Type :=
| ToastSuccess (msg : string)
| ToastError (msg : string).

(** A promise that has settled. *)
Inductive settled (A : Type) : Type :=
| Fulfilled (a : A)
| Rejected.

Arguments Fulfilled {A} a.
Arguments Rejected {A}.

(** ** The name of a downloaded file

    [handleDownload] of the generator page and of the gallery:
    [`ai-generated-${prompt.slice(0, 30).replace(/[^a-zA-Z0-9]/g, '-')}.png`]. *)

Module Download.

Definition isAlnum (c : ascii) : bool :=
  let n := nat_of_ascii c in
  (((48 <=? n) && (n <=? 57)) || ((65 <=? n) && (n <=? 90))
   || ((97 <=? n) && (n <=? 122)))%nat.

(** [s.replace(/[^a-zA-Z0-9]/g, '-')] *)
Fixpoint replaceOthers (s : string) : string :=
  match s with
  | EmptyString => EmptyString
  | String c s' => String (if isAlnum c then c else "-"%char) (replaceOthers s')
  end.

Definition fileName (prompt : string) : string :=
  ("ai-generated-" ++ replaceOthers (Str.take 30 prompt) ++ ".png")%string.

End Download.

(** ** The initial shown in an avatar

    [user.displayName?.[0] || user.email[0].toUpperCase()], in the sidebar
    and in the table of the users. *)

Module Avatar.

(** [s[0]]: the first code unit, [undefined] on the empty string. *)
Definition first (s : string) : option string :=
  match s with
  | EmptyString => None
  | String c _ => Some (String c EmptyString)
  end.

Section WithBuiltins.
Variable toUpperCase : string -> string.

Definition initial (displayName : option string) (email : string) : result string :=
  match match displayName with Some name => first name | None => None end with
  | Some c => Ok c
  | None =>
      match first email with
      | Some c => Ok (toUpperCase c)
      | None => Throw (TypeError "Cannot read properties of undefined (reading 'toUpperCase')")
      end
  end.
End WithBuiltins.

End Avatar.

(** ASCII letters to upper case, the other code units unchanged. *)
Fixpoint asciiUpper (s : string) : string :=
  match s with
  | EmptyString => EmptyString
  | String c s' =>
      let n := nat_of_ascii c in
      String (if ((97 <=? n) && (n <=? 122))%nat then ascii_of_nat (n - 32) else c)
             (asciiUpper s')
  end.

(** ** The page of the users: load, role and status changes, cards *)

Module UserPage.
Import UserManagement.

(** One element of [transformedUsers]; [new Date()] is the clock at [now]. *)
Definition transformUser (now : Z) (counts : JsObject.t Z) (user : Analytics.User) : User :=
  mkUser (Analytics.user_id user) (Analytics.email user) (Analytics.displayName user)
    (Some (orText (Analytics.role user) "user"))
    (orText (Analytics.user_createdAt user) (isoOf now))
    None
    (Some (Analytics.countOf counts (Analytics.user_id user)))
    active.

Definition transformedUsers (now : Z) (dbUsers : list Analytics.User)
    (images : list GeneratedImage) : list User :=
  map (transformUser now (imageCounts images)) dbUsers.

Record Page : Type := mkPage {
  users : list User;
  loading : bool
}.

(** [loadUsers], given what the two reads settle to; the second read is
    made only when the first is fulfilled. *)
Definition loadUsers (now : Z) (dbUsers : settled (list Analytics.User))
    (images : settled (list GeneratedImage)) (page : Page) : Page * option Toast :=
  match dbUsers, images with
  | Fulfilled us, Fulfilled imgs => (mkPage (transformedUsers now us imgs) false, None)
  | _, _ => (mkPage (users page) false, Some (ToastError "Failed to load users"))
  end.

Definition withRole (user : User) (newRole : string) : User :=
  mkUser (id user) (email user) (displayName user) (Some newRole) (createdAt user)
    (lastActive user) (imageCount user) (status user).

Definition withStatus (user : User) (newStatus : Status) : User :=
  mkUser (id user) (email user) (displayName user) (role user) (createdAt user)
    (lastActive user) (imageCount user) newStatus.

Definition statusText (s : Status) : string :=
  match s with active => "active" | inactive => "inactive" | banned => "banned" end.

(** [handleRoleChange], given what the update of the database settles
    to. *)
Definition handleRoleChange (update : settled unit) (userId newRole : string)
    (page : Page) : Page * Toast :=
  match update with
  | Fulfilled _ =>
      (mkPage (map (fun user => if String.eqb (id user) userId then withRole user newRole
                                else user) (users page)) (loading page),
       ToastSuccess ("User role updated to " ++ newRole))
  | Rejected => (page, ToastError "Failed to update user role")
  end.

Definition handleStatusChange (userId : string) (newStatus : Status)
    (page : Page) : Page * Toast :=
  (mkPage (map (fun user => if String.eqb (id user) userId then withStatus user newStatus
                            else user) (users page)) (loading page),
   ToastSuccess ("User status updated to " ++ statusText newStatus)).

(** The four cards. *)
Definition isActive (u : User) : bool := match status u with active => true | _ => false end.
Definition isBanned (u : User) : bool := match status u with banned => true | _ => false end.
Definition isAdmin (u : User) : bool :=
  match role u with Some r => String.eqb r "admin" | None => false end.

Definition totalCard (page : Page) : nat := List.length (users page).
Definition activeCard (page : Page) : nat := List.length (filter isActive (users page)).
Definition adminsCard (page : Page) : nat := List.length (filter isAdmin (users page)).
Definition bannedCard (page : Page) : nat := List.length (filter isBanned (users page)).

End UserPage.

(** ** The generator page

    [handleGenerate] is an asynchronous function: it runs until an [await],
    and goes on when the awaited promise settles.  Between the two, an
    interval that was set and not cleared may fire.  The page is a state
    machine: its state holds the values of [useState], the number of
    intervals that are set, and what the pending call waits for; its events
    are what the user does, an interval firing, and a promise settling. *)

Module ImageGenerator.

(** The white space that [trim] removes, among the code units below 256. *)
Definition isWhiteSpace (c : ascii) : bool :=
  let n := nat_of_ascii c in
  (((9 <=? n) && (n <=? 13)) || (n =? 32) || (n =? 160))%nat.

(** [!prompt.trim()] *)
Definition isBlank (s : string) : bool := allChars isWhiteSpace s.

(** What a pending call waits for, with the values its closure holds. *)
Inductive Phase : Type :=
| Idle
| AwaitMe (p s q y : string)
| AwaitImage (p s q : string) (user : string)
| AwaitCreate (imageData : GeneratedImage).

(** What the page does to the outside. *)
Inductive Effect : Type :=
| Toasted (t : Toast)
| MeRequested
| ImageRequested (p s q y : string)
| CreateRequested (imageData : GeneratedImage).

Record State : Type := mkState {
  st_prompt : string;
  st_size : string;
  st_quality : string;
  st_style : string;
  generating : bool;
  progress : Z;
  generatedImages : list GeneratedImage;
  intervals : nat;
  phase : Phase;
  log : list Effect
}.

Definition initial : State :=
  mkState "" "1024x1024" "high" "natural" false 0 [] 0 Idle [].

Inductive Event : Type :=
| SetPrompt (v : string)
| SetSize (v : string)
| SetQuality (v : string)
| SetStyle (v : string)
| Click
| Tick
| MeSettled (r : settled string)
| ImageSettled (r : settled (option (list (option string)))) (dateNow newDate : Z)
| CreateSettled (r : settled unit).

(** [data && data[0]?.url]: the address of the first image, when there is
    one and it is not empty. *)
Definition firstUrl (data : option (list (option string))) : option string :=
  match data with
  | Some (Some u :: _) => if String.eqb u "" then None else Some u
  | _ => None
  end.

(** The button is [disabled={generating || !prompt.trim()}], the inputs are
    [disabled={generating}]. *)
Definition buttonEnabled (st : State) : bool :=
  negb (generating st) && negb (isBlank (st_prompt st)).

Definition withForm (p s q y : string) (st : State) : State :=
  mkState p s q y (generating st) (progress st) (generatedImages st) (intervals st)
    (phase st) (log st).

(** [setProgress(prev => Math.min(prev + 10, 90))] *)
Definition tick (st : State) : State :=
  mkState (st_prompt st) (st_size st) (st_quality st) (st_style st) (generating st)
    (Z.min (progress st + 10) 90) (generatedImages st) (intervals st) (phase st) (log st).

(** [handleGenerate] up to its first [await]. *)
Definition handleGenerate (st : State) : State :=
  if isBlank (st_prompt st) then
    mkState (st_prompt st) (st_size st) (st_quality st) (st_style st) (generating st)
      (progress st) (generatedImages st) (intervals st) (phase st)
      (Toasted (ToastError "Please enter a prompt") :: log st)
  else
    mkState (st_prompt st) (st_size st) (st_quality st) (st_style st) true 0
      (generatedImages st) (S (intervals st))
      (AwaitMe (st_prompt st) (st_size st) (st_quality st) (st_style st))
      (MeRequested :: log st).

(** The [catch] block followed by the [finally] block, with [n] intervals
    left. *)
Definition failed (n : nat) (st : State) : State :=
  mkState (st_prompt st) (st_size st) (st_quality st) (st_style st) false 0
    (generatedImages st) n Idle
    (Toasted (ToastError "Failed to generate image. Please try again.") :: log st).

Definition imageData (dateNow newDate : Z) (user url p s q : string) : GeneratedImage :=
  mkImage ("img_" ++ Str.ofZ dateNow) user url p s q (isoOf newDate).

(** One event; [None] when it cannot occur: a control that is disabled, an
    interval when none is set, a promise that is not pending. *)
Definition step (st : State) (e : Event) : option State :=
  match e with
  | SetPrompt v =>
      if generating st then None
      else Some (withForm v (st_size st) (st_quality st) (st_style st) st)
  | SetSize v =>
      if generating st then None
      else Some (withForm (st_prompt st) v (st_quality st) (st_style st) st)
  | SetQuality v =>
      if generating st then None
      else Some (withForm (st_prompt st) (st_size st) v (st_style st) st)
  | SetStyle v =>
      if generating st then None
      else Some (withForm (st_prompt st) (st_size st) (st_quality st) v st)
  | Click => if buttonEnabled st then Some (handleGenerate st) else None
  | Tick => match intervals st with O => None | S _ => Some (tick st) end
  | MeSettled r =>
      match phase st with
      | AwaitMe p s q y =>
          match r with
          | Fulfilled user =>
              Some (mkState (st_prompt st) (st_size st) (st_quality st) (st_style st)
                      (generating st) (progress st) (generatedImages st) (intervals st)
                      (AwaitImage p s q user) (ImageRequested p s q y :: log st))
          | Rejected => Some (failed (intervals st) st)
          end
      | _ => None
      end
  | ImageSettled r dateNow newDate =>
      match phase st with
      | AwaitImage p s q user =>
          match r with
          | Fulfilled data =>
              match firstUrl data with
              | Some url =>
                  let img := imageData dateNow newDate user url p s q in
                  Some (mkState (st_prompt st) (st_size st) (st_quality st) (st_style st)
                          (generating st) 100 (generatedImages st) (pred (intervals st))
                          (AwaitCreate img) (CreateRequested img :: log st))
              | None => Some (failed (pred (intervals st)) st)
              end
          | Rejected => Some (failed (intervals st) st)
          end
      | _ => None
      end
  | CreateSettled r =>
      match phase st with
      | AwaitCreate img =>
          match r with
          | Fulfilled _ =>
              Some (mkState (st_prompt st) (st_size st) (st_quality st) (st_style st)
                      false 0 (img :: generatedImages st) (intervals st) Idle
                      (Toasted (ToastSuccess "Image generated successfully!") :: log st))
          | Rejected => Some (failed (intervals st) st)
          end
      | _ => None
      end
  end.

(** A sequence of events, from the first. *)
Fixpoint run (st : State) (es : list Event) : option State :=
  match es with
  | [] => Some st
  | e :: es' => match step st e with Some st' => run st' es' | None => None end
  end.

(** The calls that ended in [catch] before their interval was cleared. *)
Definition leaves (st : State) (e : Event) : bool :=
  match e, phase st with
  | MeSettled Rejected, AwaitMe _ _ _ _ => true
  | ImageSettled Rejected _ _, AwaitImage _ _ _ _ => true
  | _, _ => false
  end.

End ImageGenerator.

(** Properties of the states of the generator page. *)

Module GeneratorInvariant.
Import ImageGenerator.

(** The interval of the pending call, while it is set. *)
Definition own (st : State) : nat :=
  match phase st with
  | AwaitMe _ _ _ _ | AwaitImage _ _ _ _ => 1%nat
  | _ => 0%nat
  end.

(** The number of calls of a run that left their interval set. *)
Fixpoint leaks (st : State) (es : list Event) : nat :=
  match es with
  | [] => 0%nat
  | e :: es' =>
      match step st e with
      | Some st' => ((if leaves st e then 1 else 0) + leaks st' es')%nat
      | None => 0%nat
      end
  end.

(** The number of records that a run adds. *)
Fixpoint created (es : list Event) : nat :=
  match es with
  | [] => 0%nat
  | CreateSettled (Fulfilled _) :: es' => S (created es')
  | _ :: es' => created es'
  end.

(** The closure of the pending call holds the values of the form, and a
    prompt that is not blank. *)
Definition closureOk (st : State) : Prop :=
  match phase st with
  | Idle => True
  | AwaitMe p s q y =>
      p = st_prompt st /\ s = st_size st /\ q = st_quality st /\ y = st_style st
      /\ isBlank p = false
  | AwaitImage p s q _ =>
      p = st_prompt st /\ s = st_size st /\ q = st_quality st /\ isBlank p = false
  | AwaitCreate img =>
      prompt img = st_prompt st /\ size img = st_size st /\ quality img = st_quality st
      /\ isBlank (prompt img) = false /\ url img <> ""%string
  end.

Definition wellFormed (st : State) : Prop :=
  (generating st = true <-> phase st <> Idle)
  /\ 0 <= progress st <= 100
  /\ (90 < progress st -> progress st = 100 /\ exists img, phase st = AwaitCreate img)
  /\ (own st <= intervals st)%nat
  /\ closureOk st
  /\ Forall (fun img => isBlank (prompt img) = false /\ url img <> ""%string)
       (generatedImages st)
  /\ ~ In (Toasted (ToastError "Please enter a prompt")) (log st)
  /\ (intervals st = 0%nat ->
      match phase st with
      | Idle => progress st = 0
      | AwaitCreate _ => progress st = 100
      | _ => False
      end).

End GeneratorInvariant.

(** ** The dashboard

    [loadDashboardData] between the two reads and the two state updates.
    [new Date(now.getFullYear(), now.getMonth(), 1)] is the first instant of
    the month of [now] in the time zone of the browser: [monthStart]. *)

Module AdminDashboard.

Inductive ActivityType : Type := user_joined | image_generated | system_event.

Record RecentActivity : Type := mkActivity {
  act_id : string;
  act_type : ActivityType;
  message : string;
  timestamp : string;
  act_userId : option string;
  userEmail : option string
}.

Record DashboardStats : Type := mkStats {
  totalUsers : Z;
  totalImages : Z;
  imagesThisMonth : Z;
  activeUsers : Z;
  systemStatus : string
}.

(** The double quote. *)
Definition quote : string := String "034"%char EmptyString.

Section WithBuiltins.
Variable parse : string -> option Z.
Variable monthStart : Z -> JsDate.Date.
Variable now : Z.

(** [images.filter(img => new Date(img.createdAt) >= start)] *)
Definition since (start : JsDate.Date) (images : list GeneratedImage) : list GeneratedImage :=
  filter (fun img => JsDate.ge (newDateOfString parse (createdAt img)) start) images.

Definition lastWeek : JsDate.Date := JsDate.TimeClip (now - 7 * 24 * 60 * 60 * 1000).

Definition stats (users : list Analytics.User) (images : list GeneratedImage) : DashboardStats :=
  mkStats (Z.of_nat (List.length users)) (Z.of_nat (List.length images))
    (Z.of_nat (List.length (since (monthStart now) images)))
    (setSize string_dec (map userId (since lastWeek images)))
    "healthy".

Definition imageActivity (users : list Analytics.User) (img : GeneratedImage) : RecentActivity :=
  let user := find (fun u => String.eqb (Analytics.user_id u) (userId img)) users in
  mkActivity ("img-" ++ id img) image_generated
    ("Image generated: " ++ quote ++ Str.take 50 (prompt img) ++ "..." ++ quote)
    (createdAt img) (Some (userId img)) (option_map Analytics.email user).

Definition userActivity (user : Analytics.User) : RecentActivity :=
  mkActivity ("user-" ++ Analytics.user_id user) user_joined "New user registered"
    (orText (Analytics.user_createdAt user) (isoOf now))
    (Some (Analytics.user_id user)) (Some (Analytics.email user)).

(** The array before it is sorted: the first five images, then the first
    three users. *)
Definition activities (users : list Analytics.User) (images : list GeneratedImage)
    : list RecentActivity :=
  map (imageActivity users) (JsArray.sliceTo 5 images)
  ++ map userActivity (JsArray.sliceTo 3 users).

(** [new Date(b.timestamp).getTime() - new Date(a.timestamp).getTime()];
    NaN when one of the two is not a date, which [sort] reads as 0. *)
Definition byTimeDesc (a b : RecentActivity) : Z :=
  match newDateOfString parse (timestamp b), newDateOfString parse (timestamp a) with
  | Some tb, Some ta => tb - ta
  | _, _ => 0
  end.

Definition recentActivity (users : list Analytics.User) (images : list GeneratedImage)
    : list RecentActivity :=
  JsArray.sliceTo 10 (JsArray.sort byTimeDesc (activities users images)).

(** The time value of the timestamp of an activity. *)
Definition timeOf (a : RecentActivity) : Z :=
  match newDateOfString parse (timestamp a) with
  | Some t => t
  | None => 0
  end.

Definition dated (a : RecentActivity) : Prop :=
  newDateOfString parse (timestamp a) <> None.

End WithBuiltins.

End AdminDashboard.

(** ** Records written by the generator page

    The generator page stamps a record with [new Date().toISOString()]; read
    back, such a text is the same instant. *)

Definition stampOf (parse : string -> option Z) (img : GeneratedImage) : Z :=
  match newDateOfString parse (createdAt img) with
  | Some t => t
  | None => 0
  end.

Definition wellStamped (parse : string -> option Z) (img : GeneratedImage) : Prop :=
  exists t, createdAt img = isoOf t /\ newDateOfString parse (createdAt img) = Some t.

(** The records of the UTC day [d], and of the days [lo < d <= hi]. *)
Definition onDay (parse : string -> option Z) (d : Z) (imgs : list GeneratedImage)
    : list GeneratedImage :=
  filter (fun img => JsDate.Day (stampOf parse img) =? d) imgs.

Definition onDays (parse : string -> option Z) (lo hi : Z) (imgs : list GeneratedImage)
    : list GeneratedImage :=
  filter (fun img => (lo <? JsDate.Day (stampOf parse img))
                     && (JsDate.Day (stampOf parse img) <=? hi)) imgs.

(** ** The links of the sidebar and the routes of the application *)

Module Navigation.

Record NavItem : Type := mkNavItem {
  name : string;
  href : string;
  adminOnly : bool
}.

Definition navigation : list NavItem :=
  [ mkNavItem "Generate" "/" false; mkNavItem "Gallery" "/gallery" false ].

Definition adminNavigation : list NavItem :=
  [ mkNavItem "Dashboard" "/admin" true; mkNavItem "Users" "/admin/users" true;
    mkNavItem "Analytics" "/admin/analytics" true ].

(** [Sidebar]: [[...navigation, ...(isAdmin ? adminNavigation : [])]] *)
Definition allNavigation (isAdmin : bool) : list NavItem :=
  navigation ++ (if isAdmin then adminNavigation else []).

(** [App]: [user.role === 'admin'] *)
Definition isAdmin (role : option string) : bool :=
  match role with
  | Some r => String.eqb r "admin"
  | None => false
  end.

(** The paths of the [Route] elements of [App], in their order. *)
Definition routes (isAdmin : bool) : list string :=
  ["/"; "/gallery"]%string
  ++ (if isAdmin then ["/admin"; "/admin/users"; "/admin/analytics"]%string else [])
  ++ ["*"%string].

End Navigation.

(** ** The widths of the bars

    [Math.max(5, (x / Math.max(...all)) * 100)] on counts; the quotient and
    the product are taken exactly. *)

Module Bars.
Import JsNum.

(** [Math.max(...l)]: minus infinity on no argument. *)
Definition maxOf (l : list Z) : number :=
  match l with
  | [] => Infinity true
  | x :: l' => ofZ (fold_left Z.max l' x)
  end.

(** [a / b] for an integer [a]. *)
Definition divBy (a : Z) (b : number) : number :=
  match b with
  | Finite q =>
      if Qeq_bool q 0 then (if a =? 0 then NaN else Infinity (a <? 0))
      else Finite (inject_Z a / q)
  | NaN => NaN
  | Infinity _ => Finite 0
  end.

(** [x * k] for a positive integer [k]. *)
Definition times (x : number) (k : positive) : number :=
  match x with
  | Finite q => Finite (q * inject_Z (Z.pos k))
  | other => other
  end.

(** [Math.max(a, x)] for an integer [a]. *)
Definition atLeast (a : Z) (x : number) : number :=
  match x with
  | Finite q => if Qle_bool q (inject_Z a) then ofZ a else x
  | NaN => NaN
  | Infinity true => ofZ a
  | Infinity false => x
  end.

Definition width (x : Z) (all : list Z) : number :=
  atLeast 5 (times (divBy x (maxOf all)) 100).

End Bars.

(** * Properties *)

(** ** The built-ins on known values *)

Example toISOString_epoch :
  JsDate.toISOString (JsDate.TimeClip 0) = Ok "1970-01-01T00:00:00.000Z"%string.
Proof. reflexivity. Qed.

Example toISOString_2024 :
  JsDate.toISOString (JsDate.TimeClip 1704283200123) = Ok "2024-01-03T12:00:00.123Z"%string.
Proof. reflexivity. Qed.

Example toISOString_leap :
  JsDate.toISOString (JsDate.TimeClip 1709251199999) = Ok "2024-02-29T23:59:59.999Z"%string.
Proof. reflexivity. Qed.

Example toISOString_before_epoch :
  JsDate.toISOString (JsDate.TimeClip (-1)) = Ok "1969-12-31T23:59:59.999Z"%string.
Proof. reflexivity. Qed.

Example toISOString_min :
  JsDate.toISOString (JsDate.TimeClip (-8640000000000000)) = Ok "-271821-04-20T00:00:00.000Z"%string.
Proof. reflexivity. Qed.

Example toISOString_max :
  JsDate.toISOString (JsDate.TimeClip 8640000000000000) = Ok "+275760-09-13T00:00:00.000Z"%string.
Proof. reflexivity. Qed.


Example isoParse_date_time :
  IsoParse.parse "2024-01-03T12:00:00.123Z" = Some 1704283200123.
Proof. reflexivity. Qed.

Example isoParse_date_only : IsoParse.parse "2024-03-01" = Some 1709251200000.
Proof. reflexivity. Qed.

Example isoParse_garbage : IsoParse.parse "not a date" = None.
Proof. reflexivity. Qed.

Example isoParse_empty : IsoParse.parse "" = None.
Proof. reflexivity. Qed.

Example ofZ_values :
  (Str.ofZ 0, Str.ofZ 7, Str.ofZ 10, Str.ofZ 1000, Str.ofZ (-42))
  = ("0", "7", "10", "1000", "-42")%string.
Proof. reflexivity. Qed.

Example entries_order :
  JsObject.entries [("b", 1); ("10", 2); ("a", 3); ("2", 4); ("01", 5)]%string
  = [("2", 4); ("10", 2); ("b", 1); ("a", 3); ("01", 5)]%string.
Proof. reflexivity. Qed.

(** ** The calendar *)

Section DateFacts.
Import JsDate.

Lemma YearFromDay_spec d :
  DayFromYear (YearFromDay d) <= d < DayFromYear (YearFromDay d + 1).
Proof.
  unfold YearFromDay.
  destruct (Z.leb_spec (DayFromYear (1970 + 400 * d / 146097 + 1)) d) as [H1|H1].
  - split; [exact H1|]. revert H1. unfold DayFromYear. intros H1.
    Z.to_euclidean_division_equations. lia.
  - destruct (Z.leb_spec (DayFromYear (1970 + 400 * d / 146097)) d) as [H2|H2].
    + split; [exact H2 | exact H1].
    + replace (1970 + 400 * d / 146097 - 1 + 1) with (1970 + 400 * d / 146097) by lia.
      split; [|exact H2]. revert H2 H1. unfold DayFromYear. intros.
      Z.to_euclidean_division_equations. lia.
Qed.

Lemma DayFromYear_succ y : DayFromYear (y + 1) = DayFromYear y + 365 + leapDay y.
Proof.
  unfold DayFromYear, leapDay, isLeap.
  destruct (Z.eqb_spec (y mod 4) 0), (Z.eqb_spec (y mod 100) 0), (Z.eqb_spec (y mod 400) 0); cbn [andb orb negb];
  Z.to_euclidean_division_equations; lia.
Qed.

Lemma leapDay_cases y : leapDay y = 0 \/ leapDay y = 1.
Proof. unfold leapDay. destruct (isLeap y); auto. Qed.

Lemma monthDay_range leap n :
  (leap = 0 \/ leap = 1) -> 0 <= n < 365 + leap ->
  1 <= fst (monthDay leap n) <= 12 /\ 1 <= snd (monthDay leap n) <= 31.
Proof.
  intros Hl Hn. unfold monthDay.
  repeat match goal with
         | |- context [if ?a <? ?b then _ else _] => destruct (Z.ltb_spec a b)
         end; cbn [fst snd]; lia.
Qed.

Lemma monthDay_inv leap n :
  (leap = 0 \/ leap = 1) -> 0 <= n < 365 + leap ->
  daysBeforeMonth leap (fst (monthDay leap n)) + (snd (monthDay leap n) - 1) = n.
Proof.
  intros Hl Hn. unfold monthDay.
  repeat match goal with
         | |- context [if ?a <? ?b then _ else _] => destruct (Z.ltb_spec a b)
         end; cbn [fst snd daysBeforeMonth]; lia.
Qed.

Lemma DayWithinYear_range d :
  0 <= d - DayFromYear (YearFromDay d) < 365 + leapDay (YearFromDay d).
Proof.
  pose proof (YearFromDay_spec d) as H. rewrite DayFromYear_succ in H. lia.
Qed.

Lemma dayOfCivil_civilOfDay d : dayOfCivil (civilOfDay d) = d.
Proof.
  unfold dayOfCivil, civilOfDay. cbn [year month mday].
  rewrite <- Z.add_assoc, monthDay_inv; [lia | apply leapDay_cases | apply DayWithinYear_range].
Qed.

Lemma civilOfDay_inj d1 d2 : civilOfDay d1 = civilOfDay d2 -> d1 = d2.
Proof.
  intros H. rewrite <- (dayOfCivil_civilOfDay d1), <- (dayOfCivil_civilOfDay d2).
  now rewrite H.
Qed.

Lemma civilOfDay_month d : 1 <= month (civilOfDay d) <= 12.
Proof. apply monthDay_range; [apply leapDay_cases | apply DayWithinYear_range]. Qed.

Lemma civilOfDay_mday d : 1 <= mday (civilOfDay d) <= 31.
Proof. apply monthDay_range; [apply leapDay_cases | apply DayWithinYear_range]. Qed.

(** Years of representable days. *)
Lemma YearFromDay_bounds d :
  -100000000 <= d <= 100000000 -> -271821 <= YearFromDay d <= 275760.
Proof.
  intros Hd. pose proof (YearFromDay_spec d) as H. revert H.
  generalize (YearFromDay d). intros y. unfold DayFromYear.
  intros. Z.to_euclidean_division_equations. lia.
Qed.

End DateFacts.

(** ** Decimal digits and the date format *)

Section FormatFacts.
Import JsDate.

Lemma digit_cases k : 0 <= k < 10 ->
  k = 0 \/ k = 1 \/ k = 2 \/ k = 3 \/ k = 4 \/ k = 5 \/ k = 6 \/ k = 7 \/ k = 8 \/ k = 9.
Proof. lia. Qed.

Lemma digitVal_digitChar k : 0 <= k < 10 -> Str.digitVal (Str.digitChar k) = Some k.
Proof.
  intros H. destruct (digit_cases k H) as [->|[->|[->|[->|[->|[->|[->|[->|[->| ->]]]]]]]]];
    reflexivity.
Qed.

Lemma digitChar_inj a b :
  0 <= a < 10 -> 0 <= b < 10 -> Str.digitChar a = Str.digitChar b -> a = b.
Proof.
  intros Ha Hb H. apply (f_equal Str.digitVal) in H.
  rewrite !digitVal_digitChar in H by assumption. now inversion H.
Qed.

Lemma digitChar_mod_inj a b :
  Str.digitChar (a mod 10) = Str.digitChar (b mod 10) -> a mod 10 = b mod 10.
Proof. apply digitChar_inj; apply Z.mod_pos_bound; lia. Qed.

Lemma padDigits_inj w a b :
  Str.padDigits w a = Str.padDigits w b -> a mod 10 ^ Z.of_nat w = b mod 10 ^ Z.of_nat w.
Proof.
  induction w as [|w IH]; intros H.
  - cbn. now rewrite !Z.mod_1_r.
  - cbn [Str.padDigits] in H. injection H as Hc Ht.
    apply digitChar_mod_inj in Hc. specialize (IH Ht).
    rewrite Nat2Z.inj_succ, Z.pow_succ_r by lia.
    rewrite (Z.mul_comm 10).
    rewrite !Z.rem_mul_r by lia. now rewrite IH, Hc.
Qed.

Lemma padDigits_inj_small w a b :
  0 <= a < 10 ^ Z.of_nat w -> 0 <= b < 10 ^ Z.of_nat w ->
  Str.padDigits w a = Str.padDigits w b -> a = b.
Proof.
  intros Ha Hb H. apply padDigits_inj in H.
  now rewrite !Z.mod_small in H.
Qed.

Lemma padDigits_length w n : String.length (Str.padDigits w n) = w.
Proof. induction w; cbn; congruence. Qed.

Lemma string_length_app (a b : string) :
  String.length (a ++ b) = (String.length a + String.length b)%nat.
Proof. induction a; cbn; congruence. Qed.

Lemma append_empty_r s : (s ++ "")%string = s.
Proof. induction s; cbn; congruence. Qed.

Lemma string_app_assoc (a b c : string) : ((a ++ b) ++ c = a ++ b ++ c)%string.
Proof. induction a; cbn; congruence. Qed.

Lemma append_inj_length (a b c d : string) :
  String.length a = String.length c -> (a ++ b = c ++ d)%string -> a = c /\ b = d.
Proof.
  revert c. induction a as [|x a IH]; intros [|y c] Hl H; try discriminate.
  - now split.
  - cbn in Hl, H. injection H as -> H. destruct (IH c) as [-> ->]; auto.
Qed.

Lemma fmtYear_length y :
  String.length (fmtYear y) = if (0 <=? y) && (y <=? 9999) then 4%nat else 7%nat.
Proof. unfold fmtYear. destruct ((0 <=? y) && (y <=? 9999)); reflexivity. Qed.

Lemma fmtYear_inj y1 y2 :
  -999999 <= y1 <= 999999 -> -999999 <= y2 <= 999999 ->
  fmtYear y1 = fmtYear y2 -> y1 = y2.
Proof.
  intros H1 H2 H. pose proof (f_equal String.length H) as Hl.
  rewrite !fmtYear_length in Hl. unfold fmtYear in H.
  destruct ((0 <=? y1) && (y1 <=? 9999)) eqn:E1, ((0 <=? y2) && (y2 <=? 9999)) eqn:E2;
    try discriminate.
  - apply (padDigits_inj_small 4); [cbn; lia | cbn; lia | exact H].
  - assert (Hs : (if 0 <=? y1 then "+"%char else "-"%char) = (if 0 <=? y2 then "+"%char else "-"%char)
                 /\ Str.padDigits 6 (Z.abs y1) = Str.padDigits 6 (Z.abs y2)).
    { remember (Str.padDigits 6 (Z.abs y1)) as p1. remember (Str.padDigits 6 (Z.abs y2)) as p2.
      now inversion H. }
    destruct Hs as [Hs Hd].
    apply (padDigits_inj_small 6) in Hd; [| cbn; lia | cbn; lia].
    destruct (Z.leb_spec 0 y1), (Z.leb_spec 0 y2); try discriminate; lia.
Qed.

Lemma fmtDate_inj c1 c2 :
  okCivil c1 -> okCivil c2 -> fmtDate c1 = fmtDate c2 -> c1 = c2.
Proof.
  intros (Hy1 & Hm1 & Hd1) (Hy2 & Hm2 & Hd2) H.
  pose proof (f_equal String.length H) as Hl. unfold fmtDate in H, Hl.
  rewrite !string_length_app, !fmtYear_length in Hl.
  apply append_inj_length in H.
  2:{ rewrite !fmtYear_length.
      destruct ((0 <=? year c1) && (year c1 <=? 9999)), ((0 <=? year c2) && (year c2 <=? 9999));
        cbn in Hl; try reflexivity; discriminate. }
  destruct H as [Hy H]. apply fmtYear_inj in Hy; try assumption.
  cbn in H. injection H as Hm1a Hm1b Hda Hdb.
  apply digitChar_mod_inj in Hm1a, Hm1b, Hda, Hdb.
  destruct c1, c2; cbn in *. f_equal; [assumption | |].
  - rewrite Z.div_1_r in *. Z.to_euclidean_division_equations. lia.
  - rewrite Z.div_1_r in *. Z.to_euclidean_division_equations. lia.
Qed.

Lemma lacks_app c a b : Str.lacks c (a ++ b) = Str.lacks c a && Str.lacks c b.
Proof. induction a as [|x a IH]; cbn; [reflexivity|]. now rewrite IH, andb_assoc. Qed.

Lemma beforeFirst_lacks c s r :
  Str.lacks c s = true -> Str.beforeFirst c (s ++ String c r) = s.
Proof.
  induction s as [|x s IH]; cbn; intros H.
  - now rewrite Ascii.eqb_refl.
  - apply andb_prop in H as [Hx Hs]. apply negb_true_iff in Hx.
    now rewrite Hx, IH.
Qed.

Lemma digitChar_not_T k : Ascii.eqb (Str.digitChar k) "T" = false.
Proof.
  unfold Str.digitChar. destruct k as [|p|p]; try reflexivity.
  do 4 (try destruct p as [p|p|]; try reflexivity).
Qed.

Lemma digitChar_not_newline k : Ascii.eqb (Str.digitChar k) Str.newlineChar = false.
Proof.
  unfold Str.digitChar. destruct k as [|p|p]; try reflexivity.
  do 4 (try destruct p as [p|p|]; try reflexivity).
Qed.

Lemma lacks_padDigits c w n :
  (forall k, Ascii.eqb (Str.digitChar k) c = false) ->
  Str.lacks c (Str.padDigits w n) = true.
Proof. intros Hc. induction w; cbn; [reflexivity|]. now rewrite Hc, IHw. Qed.

(** A date text is made of digits, hyphens and at most a sign. *)
Lemma lacks_fmtDate c civ :
  (forall k, Ascii.eqb (Str.digitChar k) c = false) ->
  Ascii.eqb "-" c = false -> Ascii.eqb "+" c = false ->
  Str.lacks c (fmtDate civ) = true.
Proof.
  intros Hd Hm Hp. unfold fmtDate, fmtYear.
  rewrite !lacks_app, !lacks_padDigits by exact Hd. cbn [Str.lacks]. rewrite Hm.
  destruct ((0 <=? year civ) && (year civ <=? 9999)).
  - now rewrite lacks_padDigits.
  - cbn [Str.lacks]. rewrite lacks_padDigits by exact Hd.
    destruct (0 <=? year civ); now rewrite ?Hm, ?Hp.
Qed.

Lemma lacks_T_fmtDate c : Str.lacks "T" (fmtDate c) = true.
Proof. apply lacks_fmtDate; [apply digitChar_not_T | reflexivity | reflexivity]. Qed.

Lemma lacks_newline_fmtDate c : Str.lacks Str.newlineChar (fmtDate c) = true.
Proof. apply lacks_fmtDate; [apply digitChar_not_newline | reflexivity | reflexivity]. Qed.

Lemma TimeClip_ok t : Z.abs t <= maxTime -> TimeClip t = Some t.
Proof. intros H. unfold TimeClip. now apply Z.leb_le in H as ->. Qed.

Lemma TimeClip_out t : maxTime < Z.abs t -> TimeClip t = None.
Proof. intros H. unfold TimeClip. now apply Z.leb_gt in H as ->. Qed.

Lemma Day_bounds t : Z.abs t <= maxTime -> -100000000 <= Day t <= 100000000.
Proof.
  unfold Day, maxTime, msPerDay. intros H. Z.to_euclidean_division_equations. lia.
Qed.

Lemma Day_sub t i : Day (t - i * 24 * 60 * 60 * 1000) = Day t - i.
Proof.
  unfold Day, msPerDay.
  replace (t - i * 24 * 60 * 60 * 1000) with (t + (- i) * 86400000) by lia.
  rewrite Z.div_add by lia. lia.
Qed.

Lemma okCivil_civilOfDay d : -100000000 <= d <= 100000000 -> okCivil (civilOfDay d).
Proof.
  intros H. split; [|split].
  - pose proof (YearFromDay_bounds d H). cbn. lia.
  - apply civilOfDay_month.
  - apply civilOfDay_mday.
Qed.

Lemma dateOfDay_inj d1 d2 :
  -100000000 <= d1 <= 100000000 -> -100000000 <= d2 <= 100000000 ->
  dateOfDay d1 = dateOfDay d2 -> d1 = d2.
Proof.
  intros H1 H2 H. apply civilOfDay_inj, fmtDate_inj; auto using okCivil_civilOfDay.
Qed.

End FormatFacts.

(** ** Daily statistics *)

Section DailyFacts.
Import JsDate Analytics.

Lemma dateStrAt_ok now i :
  Z.abs (now - i * 24 * 60 * 60 * 1000) <= maxTime ->
  dateStrAt now i = Ok (dateOfDay (Day now - i)).
Proof.
  intros H. unfold dateStrAt. rewrite TimeClip_ok by exact H.
  cbn [toISOString bind append]. rewrite beforeFirst_lacks by apply lacks_T_fmtDate.
  now rewrite Day_sub.
Qed.

Lemma dateStrAt_throw now i :
  maxTime < Z.abs (now - i * 24 * 60 * 60 * 1000) ->
  dateStrAt now i = Throw (RangeError "Invalid time value").
Proof. intros H. unfold dateStrAt. now rewrite TimeClip_out by exact H. Qed.

(** The first round of the loop is the oldest day; when its Date is
    invalid the loop throws before any entry is pushed. *)
Lemma dailyStatsLoop_throw now filtered n e :
  (0 < n)%nat -> dateStrAt now (Z.of_nat n - 1) = Throw e ->
  dailyStatsLoop now filtered n = Throw e.
Proof.
  destruct n as [|i]; [lia|]. intros _ H.
  replace (Z.of_nat (S i) - 1) with (Z.of_nat i) in H by lia.
  cbn [dailyStatsLoop]. now rewrite H.
Qed.

Lemma coveredDays_succ now i :
  coveredDays now (S i) = (Day now - Z.of_nat i) :: coveredDays now i.
Proof.
  unfold coveredDays. cbn [seq map]. f_equal; [lia|].
  rewrite <- seq_shift, map_map. apply map_ext. intros k. lia.
Qed.

Lemma coveredDays_range now n d :
  In d (coveredDays now n) -> Day now - Z.of_nat n < d <= Day now.
Proof.
  unfold coveredDays. rewrite in_map_iff. intros (k & <- & Hk).
  apply in_seq in Hk. lia.
Qed.

Lemma coveredDays_NoDup now n : NoDup (coveredDays now n).
Proof.
  unfold coveredDays. apply NoDup_map_NoDup_ForallPairs; [|apply seq_NoDup].
  intros a b _ _ H. lia.
Qed.

Lemma dailyStatsLoop_ok now filtered n :
  Z.abs now <= maxTime ->
  - maxTime <= now - (Z.of_nat n - 1) * msPerDay ->
  dailyStatsLoop now filtered n
  = Ok (map (fun d => dayStat filtered (dateOfDay d)) (coveredDays now n)).
Proof.
  unfold maxTime, msPerDay. induction n as [|i IH]; intros Hnow Hlow.
  - reflexivity.
  - cbn [dailyStatsLoop]. rewrite dateStrAt_ok by (unfold maxTime; lia).
    cbn [bind]. rewrite IH by lia. cbn [bind].
    now rewrite coveredDays_succ.
Qed.

Lemma bucketByDay_sample :
  bucketByDay IsoParse.parse Sample.now 3 Sample.images
  = Ok [ mkDayStat "2024-01-01" 1 2; mkDayStat "2024-01-02" 0 0;
         mkDayStat "2024-01-03" 1 1 ].
Proof. reflexivity. Qed.

(** With the clock after the epoch, the three ranges of the page are
    within the representable dates: the loop returns, with 7, 30 or 90
    entries. *)
Lemma dailyStats_of_the_page parse now timeRange imgs :
  0 <= now <= maxTime ->
  exists stats,
    bucketByDay parse now (daysBack timeRange) imgs = Ok stats
    /\ List.length stats = daysBack timeRange
    /\ In (daysBack timeRange) [7; 30; 90]%nat.
Proof.
  intros Hnow. unfold bucketByDay.
  assert (Hd : In (daysBack timeRange) [7; 30; 90]%nat).
  { unfold daysBack. destruct (String.eqb timeRange "7d"); [now left|].
    destruct (String.eqb timeRange "30d"); [right; now left | right; right; now left]. }
  rewrite dailyStatsLoop_ok.
  - eexists. split; [reflexivity|]. split; [|exact Hd].
    unfold coveredDays. now rewrite !length_map, length_seq.
  - unfold maxTime in *. lia.
  - unfold maxTime, msPerDay in *. cbn [In] in Hd.
    destruct Hd as [<-|[<-|[<-|[]]]]; lia.
Qed.

(** Two users on one day: two images, two users. *)
Example bucketByDay_two_users :
  bucketByDay IsoParse.parse 1704150000000 1
    [ Sample.image "x" "a" "p" "2024-01-01T10:00:00Z";
      Sample.image "y" "b" "q" "2024-01-01T12:00:00Z" ]%string
  = Ok [mkDayStat "2024-01-01" 2 2].
Proof. vm_compute. reflexivity. Qed.

(** C1, as amended.  When the clock is a valid time and the oldest day of the
    window, [now - (days - 1)] days, is still a representable Date,
    [bucketByDay] returns exactly [days] entries, one per calendar day: the
    dates are those of the consecutive days ending on the day of [now],
    oldest first, without gap or repetition, and each entry, empty days
    included, is the statistic of its date. *)
Theorem bucketByDay_one_entry_per_day parse now days imgs :
  Z.abs now <= maxTime ->
  - maxTime <= now - (Z.of_nat days - 1) * msPerDay ->
  exists stats,
    bucketByDay parse now days imgs = Ok stats
    /\ List.length stats = days
    /\ map date stats = map dateOfDay (coveredDays now days)
    /\ NoDup (map date stats)
    /\ Forall (fun s => s = dayStat (filteredImages parse now days imgs) (date s)) stats.
Proof.
  intros Hnow Hlow. unfold bucketByDay.
  rewrite dailyStatsLoop_ok by assumption.
  eexists. split; [reflexivity|].
  assert (Hdates : forall f,
    map date (map (fun d => dayStat f (dateOfDay d)) (coveredDays now days))
    = map dateOfDay (coveredDays now days)).
  { intros f. rewrite map_map. now apply map_ext. }
  repeat split.
  - rewrite length_map. unfold coveredDays. now rewrite length_map, length_seq.
  - apply Hdates.
  - rewrite Hdates. apply NoDup_map_NoDup_ForallPairs; [|apply coveredDays_NoDup].
    intros d1 d2 H1 H2. apply coveredDays_range in H1, H2.
    pose proof (Day_bounds now Hnow) as Hd.
    assert (Hold : -100000000 <= Day now - Z.of_nat days + 1).
    { revert Hlow. unfold Day, maxTime, msPerDay. intros.
      Z.to_euclidean_division_equations. lia. }
    apply dateOfDay_inj; lia.
  - apply Forall_forall. intros s Hs. apply in_map_iff in Hs as (d & <- & _).
    reflexivity.
Qed.

Lemma bucketByDay_one_entry_per_day_witness :
  exists stats,
    bucketByDay IsoParse.parse Sample.now 3 Sample.images = Ok stats
    /\ List.length stats = 3%nat
    /\ map date stats = map dateOfDay (coveredDays Sample.now 3)
    /\ NoDup (map date stats)
    /\ Forall (fun s => s = dayStat (filteredImages IsoParse.parse Sample.now 3 Sample.images)
                                   (date s)) stats.
Proof.
  apply (bucketByDay_one_entry_per_day IsoParse.parse Sample.now 3 Sample.images);
    unfold maxTime, msPerDay, Sample.now; lia.
Defined.

(** C1 as stated fails: with the clock on 2024-01-03 and a window of
    100100000 days the oldest day lies before the first representable Date,
    [toISOString] throws on it and no entry is returned. *)
Lemma bucketByDay_window_out_of_range :
  bucketByDay IsoParse.parse Sample.now (Z.to_nat 100100000) Sample.images
  = Throw (RangeError "Invalid time value").
Proof.
  unfold bucketByDay. apply dailyStatsLoop_throw; [lia|].
  apply dateStrAt_throw. rewrite Z2Nat.id by lia.
  unfold maxTime, Sample.now. lia.
Qed.

End DailyFacts.

(** ** The time window *)

Section WindowFacts.
Import JsDate Analytics.

Lemma filter_Subseq {A : Type} (p : A -> bool) (l : list A) : Subseq (filter p l) l.
Proof.
  induction l as [|x l IH]; cbn; [constructor|].
  destruct (p x); now constructor.
Qed.

Lemma inRange_iff parse now days img :
  Z.abs (now - Z.of_nat days * msPerDay) <= maxTime ->
  inRange parse now days img = true
  <-> exists t, newDateOfString parse (createdAt img) = Some t
                /\ now - Z.of_nat days * msPerDay <= t.
Proof.
  intros H. unfold inRange, startDate.
  replace (now - Z.of_nat days * 24 * 60 * 60 * 1000)
    with (now - Z.of_nat days * msPerDay) by (unfold msPerDay; lia).
  rewrite TimeClip_ok by exact H.
  destruct (newDateOfString parse (createdAt img)) as [t|]; cbn [ge].
  - rewrite Z.leb_le. split.
    + intros Ht. now exists t.
    + intros (t' & [= <-] & Ht). exact Ht.
  - split; [discriminate | intros (t & [=] & _)].
Qed.

(** C3, as amended.  When the start of the window, [now - days] days, is a
    representable Date, the filter keeps, in their order, exactly the
    records whose timestamp parses to a time at or after that start; it has
    no upper bound at [now]. *)
Theorem filteredImages_from_window_start parse now days imgs :
  Z.abs (now - Z.of_nat days * msPerDay) <= maxTime ->
  Subseq (filteredImages parse now days imgs) imgs
  /\ forall img,
       In img (filteredImages parse now days imgs)
       <-> In img imgs
           /\ exists t, newDateOfString parse (createdAt img) = Some t
                        /\ now - Z.of_nat days * msPerDay <= t.
Proof.
  intros H. split; [apply filter_Subseq|].
  intros img. unfold filteredImages. rewrite filter_In.
  now rewrite (inRange_iff parse now days img H).
Qed.

Lemma filteredImages_from_window_start_witness :
  Subseq (filteredImages IsoParse.parse Sample.now 7 Sample.images) Sample.images
  /\ forall img,
       In img (filteredImages IsoParse.parse Sample.now 7 Sample.images)
       <-> In img Sample.images
           /\ exists t, newDateOfString IsoParse.parse (createdAt img) = Some t
                        /\ Sample.now - Z.of_nat 7 * msPerDay <= t.
Proof.
  apply (filteredImages_from_window_start IsoParse.parse Sample.now 7 Sample.images).
  unfold maxTime, msPerDay, Sample.now. lia.
Defined.

(** C3 as stated fails: a record stamped 2024-02-01, after the clock
    (2024-01-03), is outside [now - 7 days, now] and is kept. *)
Lemma filteredImages_keeps_later_record :
  In Sample.later (filteredImages IsoParse.parse Sample.now 7 (Sample.images ++ [Sample.later]))
  /\ newDateOfString IsoParse.parse (createdAt Sample.later) = Some 1706745600000
  /\ ~ (Sample.now - 7 * msPerDay <= 1706745600000 <= Sample.now).
Proof.
  split; [|split].
  - replace (filteredImages IsoParse.parse Sample.now 7 (Sample.images ++ [Sample.later]))
      with (Sample.images ++ [Sample.later]) by (vm_compute; reflexivity).
    apply in_or_app. right. left. reflexivity.
  - vm_compute. reflexivity.
  - unfold Sample.now. lia.
Qed.

End WindowFacts.

(** ** Counting objects *)

Section ObjectFacts.
Import JsObject Analytics.

Lemma get_set_same {V : Type} (o : t V) k v : get (set o k v) k = Some v.
Proof.
  induction o as [|[k' v'] o IH]; cbn.
  - now rewrite String.eqb_refl.
  - destruct (String.eqb k' k) eqn:E; cbn; now rewrite E.
Qed.

Lemma get_set_other {V : Type} (o : t V) k k' v :
  k' <> k -> get (set o k v) k' = get o k'.
Proof.
  intros Hk. induction o as [|[k0 v0] o IH]; cbn.
  - apply String.eqb_neq in Hk. now rewrite String.eqb_sym, Hk.
  - destruct (String.eqb k0 k) eqn:E; cbn.
    + apply String.eqb_eq in E as ->.
      apply String.eqb_neq in Hk. now rewrite String.eqb_sym, Hk.
    + now rewrite IH.
Qed.

Lemma keys_set_old {V : Type} (o : t V) k v :
  In k (map fst o) -> map fst (set o k v) = map fst o.
Proof.
  induction o as [|[k' v'] o IH]; cbn; [tauto|].
  intros H. destruct (String.eqb_spec k' k) as [->|Hne]; cbn.
  - reflexivity.
  - f_equal. apply IH. destruct H; [contradiction | assumption].
Qed.

Lemma keys_set_new {V : Type} (o : t V) k v :
  ~ In k (map fst o) -> map fst (set o k v) = map fst o ++ [k].
Proof.
  induction o as [|[k' v'] o IH]; cbn; [reflexivity|].
  intros H. destruct (String.eqb_spec k' k) as [->|Hne]; cbn.
  - tauto.
  - f_equal. apply IH. tauto.
Qed.

Lemma countOf_bump_same acc k : countOf (bump acc k) k = countOf acc k + 1.
Proof.
  unfold countOf, bump. rewrite get_set_same. unfold orZero at 1.
  destruct (Z.eqb_spec (orZero (get acc k) + 1) 0) as [E|E]; [|reflexivity].
  now rewrite E.
Qed.

Lemma countOf_bump_other acc k k' : k' <> k -> countOf (bump acc k) k' = countOf acc k'.
Proof. intros H. unfold countOf, bump. now rewrite get_set_other. Qed.

Lemma countOf_fold_bump keys acc k :
  countOf (fold_left bump keys acc) k
  = countOf acc k + Z.of_nat (count_occ string_dec keys k).
Proof.
  revert acc. induction keys as [|x keys IH]; intros acc; cbn [fold_left count_occ].
  - lia.
  - rewrite IH. destruct (string_dec x k) as [->|Hne].
    + rewrite countOf_bump_same. lia.
    + rewrite countOf_bump_other by congruence. lia.
Qed.

Lemma filter_ext_in_bool {A : Type} (f g : A -> bool) (l : list A) :
  (forall x, In x l -> f x = g x) -> filter f l = filter g l.
Proof.
  induction l as [|x l IH]; intros H; cbn; [reflexivity|].
  rewrite (H x) by now left. rewrite IH; [reflexivity|].
  intros y Hy. apply H. now right.
Qed.

Lemma filter_filter {A : Type} (f g : A -> bool) (l : list A) :
  filter f (filter g l) = filter (fun x => g x && f x) l.
Proof.
  induction l as [|x l IH]; cbn; [reflexivity|].
  destruct (g x); cbn; [destruct (f x)|]; now rewrite IH.
Qed.

Lemma fresh_spec seen x : fresh seen x = true <-> ~ In x seen.
Proof.
  unfold fresh. rewrite negb_true_iff, <- not_true_iff_false, existsb_exists.
  split; intros H.
  - intros Hin. apply H. exists x. split; [assumption | apply String.eqb_refl].
  - intros (y & Hy & E). apply String.eqb_eq in E as ->. contradiction.
Qed.

(** The keys of a counting object: those it had, then the new ones in the
    order of their first occurrence. *)
Lemma keys_fold_bump keys acc :
  map fst (fold_left bump keys acc)
  = map fst acc ++ filter (fresh (map fst acc)) (firstSeen keys).
Proof.
  revert acc. induction keys as [|k keys IH]; intros acc; cbn [fold_left firstSeen].
  - cbn. now rewrite app_nil_r.
  - rewrite IH. cbn [filter]. unfold bump.
    destruct (fresh (map fst acc) k) eqn:E.
    + apply fresh_spec in E. rewrite keys_set_new by assumption.
      rewrite <- app_assoc. cbn [app]. do 2 f_equal.
      rewrite filter_filter. apply filter_ext_in_bool. intros x _.
      unfold fresh. rewrite existsb_app. cbn [existsb]. rewrite orb_false_r.
      rewrite negb_orb. apply andb_comm.
    + assert (Hin : In k (map fst acc)).
      { destruct (in_dec string_dec k (map fst acc)) as [Hin|Hn]; [assumption|].
        apply fresh_spec in Hn. congruence. }
      rewrite keys_set_old by assumption. f_equal.
      rewrite filter_filter. apply filter_ext_in_bool. intros x _.
      destruct (String.eqb_spec x k) as [->|Hne]; cbn [negb andb]; [|reflexivity].
      exact E.
Qed.

Lemma keys_fold_bump_empty keys :
  map fst (fold_left bump keys empty) = firstSeen keys.
Proof.
  rewrite keys_fold_bump. cbn. apply forallb_filter_id.
  apply forallb_forall. reflexivity.
Qed.

Lemma firstSeen_In keys k : In k (firstSeen keys) <-> In k keys.
Proof.
  induction keys as [|x keys IH]; cbn; [tauto|].
  rewrite filter_In, IH, negb_true_iff, String.eqb_neq.
  destruct (string_dec x k); [tauto|]. split; [tauto|].
  intros [?|?]; [tauto|]. right. split; congruence.
Qed.

Lemma firstSeen_NoDup keys : NoDup (firstSeen keys).
Proof.
  induction keys as [|x keys IH]; cbn; constructor.
  - rewrite filter_In, String.eqb_refl. cbn. intros [_ [=]].
  - now apply NoDup_filter.
Qed.

End ObjectFacts.

(** ** Stable sorting and enumeration order *)

Section SortFacts.
Context {A : Type} (cmp : A -> A -> Z).
Import JsArray.

Lemma insert_perm x l : Permutation (insert cmp x l) (x :: l).
Proof.
  induction l as [|y l IH]; cbn; [reflexivity|].
  destruct (0 <? cmp x y); [|reflexivity].
  rewrite IH. apply perm_swap.
Qed.

Lemma sort_perm l : Permutation (sort cmp l) l.
Proof.
  induction l as [|x l IH]; cbn; [reflexivity|].
  unfold sort in IH. now rewrite insert_perm, IH.
Qed.

Lemma sort_length l : List.length (sort cmp l) = List.length l.
Proof. apply Permutation_length, sort_perm. Qed.

Section Order.
Hypothesis cmp_trans : forall a b c, cmp a b <= 0 -> cmp b c <= 0 -> cmp a c <= 0.
Hypothesis cmp_total : forall a b, 0 < cmp a b -> cmp b a <= 0.

Lemma insert_sorted x l :
  StronglySorted (fun a b => cmp a b <= 0) l ->
  StronglySorted (fun a b => cmp a b <= 0) (insert cmp x l).
Proof.
  induction l as [|y l IH]; intros Hs; cbn.
  - repeat constructor.
  - inversion Hs as [|? ? Hl Hy]; subst.
    destruct (Z.ltb_spec 0 (cmp x y)) as [Hxy|Hxy].
    + constructor; [now apply IH|].
      apply Forall_forall. intros z Hz.
      apply (Permutation_in _ (insert_perm x l)) in Hz. destruct Hz as [<-|Hz].
      * now apply cmp_total.
      * rewrite Forall_forall in Hy. now apply Hy.
    + constructor; [assumption|]. constructor; [assumption|].
      eapply Forall_impl; [|exact Hy]. intros z Hz. now apply (cmp_trans x y z).
Qed.

Lemma sort_sorted l : StronglySorted (fun a b => cmp a b <= 0) (sort cmp l).
Proof.
  induction l as [|x l IH]; cbn; [constructor|]. now apply insert_sorted.
Qed.
End Order.

Section Stable.
Variable P : A -> bool.
Hypothesis P_ties : forall a b, P a = true -> P b = true -> cmp a b <= 0.

Lemma insert_stable x l : filter P (insert cmp x l) = filter P (x :: l).
Proof.
  induction l as [|y l IH]; [reflexivity|]. cbn [insert].
  destruct (Z.ltb_spec 0 (cmp x y)) as [Hxy|Hxy]; [|reflexivity].
  cbn [filter] in *. rewrite IH.
  destruct (P x) eqn:Ex, (P y) eqn:Ey; try reflexivity.
  specialize (P_ties x y Ex Ey). lia.
Qed.

(** Elements that the comparator does not separate keep their order. *)
Lemma sort_stable l : filter P (sort cmp l) = filter P l.
Proof.
  induction l as [|x l IH]; [reflexivity|].
  cbn [sort fold_right]. rewrite insert_stable. cbn [filter].
  unfold sort in IH. now rewrite IH.
Qed.
End Stable.

End SortFacts.

Section BeforeFacts.
Context {A : Type}.

Lemma Before_cons_inv (x y z : A) l :
  Before x y (z :: l) -> (x = z /\ In y l) \/ Before x y l.
Proof.
  intros (l1 & l2 & l3 & E). destruct l1 as [|w l1]; cbn in E; injection E as -> ->.
  - left. split; [reflexivity|]. apply in_or_app. right. now left.
  - right. now exists l1, l2, l3.
Qed.

Lemma Before_cons (x y z : A) l : Before x y l -> Before x y (z :: l).
Proof. intros (l1 & l2 & l3 & ->). now exists (z :: l1), l2, l3. Qed.

Lemma Before_head (x y : A) l : In y l -> Before x y (x :: l).
Proof.
  intros H. apply in_split in H as (l2 & l3 & ->). now exists [], l2, l3.
Qed.

Lemma Before_In_l (x y : A) l : Before x y l -> In x l.
Proof. intros (l1 & l2 & l3 & ->). apply in_or_app. right. now left. Qed.

Lemma Before_In_r (x y : A) l : Before x y l -> In y l.
Proof.
  intros (l1 & l2 & l3 & ->). apply in_or_app. right. right.
  apply in_or_app. right. now left.
Qed.

Lemma Before_app_r (x y : A) l l' : Before x y l -> Before x y (l ++ l').
Proof.
  intros (l1 & l2 & l3 & ->). exists l1, l2, (l3 ++ l').
  now rewrite <- !app_assoc, <- !app_comm_cons, <- !app_assoc, <- app_comm_cons.
Qed.

Lemma Before_firstn (x y : A) n l : Before x y (firstn n l) -> Before x y l.
Proof.
  intros H. rewrite <- (firstn_skipn n l). now apply Before_app_r.
Qed.

Lemma Before_filter (P : A -> bool) (x y : A) l :
  Before x y l -> P x = true -> P y = true -> Before x y (filter P l).
Proof.
  intros (l1 & l2 & l3 & ->) Hx Hy.
  exists (filter P l1), (filter P l2), (filter P l3).
  rewrite filter_app. cbn [filter]. rewrite Hx, filter_app. cbn [filter]. now rewrite Hy.
Qed.

Lemma Before_filter_inv (P : A -> bool) (x y : A) l :
  Before x y (filter P l) -> Before x y l.
Proof.
  induction l as [|z l IH]; cbn [filter]; intros H.
  - destruct H as (l1 & ? & ? & E). now destruct l1.
  - destruct (P z).
    + apply Before_cons_inv in H as [[-> Hy]|H].
      * apply Before_head. now apply filter_In in Hy.
      * apply Before_cons. now apply IH.
    + apply Before_cons. now apply IH.
Qed.

Lemma Before_map {B : Type} (f : A -> B) (x y : A) l :
  Before x y l -> Before (f x) (f y) (map f l).
Proof.
  intros (l1 & l2 & l3 & ->). exists (map f l1), (map f l2), (map f l3).
  now rewrite map_app, map_cons, map_app, map_cons.
Qed.

Lemma Before_map_inv {B : Type} (f : A -> B) (u v : B) l :
  Before u v (map f l) -> exists x y, u = f x /\ v = f y /\ Before x y l.
Proof.
  intros (l1 & l2 & l3 & E).
  apply map_eq_app in E as (m1 & m' & -> & <- & E).
  apply map_eq_cons in E as (x & m'' & -> & <- & E).
  apply map_eq_app in E as (m2 & m3' & -> & <- & E).
  apply map_eq_cons in E as (y & m3 & -> & <- & <-).
  exists x, y. repeat split. now exists m1, m2, m3.
Qed.

End BeforeFacts.

Section EntriesFacts.
Context {V : Type}.
Import JsObject.

Lemma filter_partition_perm {B : Type} (p : B -> bool) (l : list B) :
  Permutation (filter p l ++ filter (fun x => negb (p x)) l) l.
Proof.
  induction l as [|x l IH]; cbn; [reflexivity|].
  destruct (p x); cbn.
  - now constructor.
  - rewrite <- Permutation_middle. now constructor.
Qed.

Lemma entries_perm (o : t V) : Permutation (entries o) o.
Proof.
  unfold entries. rewrite sort_perm. apply filter_partition_perm.
Qed.

Lemma entries_length (o : t V) : List.length (entries o) = List.length o.
Proof. apply Permutation_length, entries_perm. Qed.

(** The keys that are not array indices are enumerated in creation
    order. *)
Lemma entries_others (o : t V) :
  filter (fun e => negb (isIndexKey e)) (entries o)
  = filter (fun e => negb (isIndexKey e)) o.
Proof.
  unfold entries. rewrite filter_app.
  assert (H : filter (fun e => negb (isIndexKey e))
                (JsArray.sort byIndex (filter isIndexKey o)) = []).
  { generalize (sort_perm byIndex (filter isIndexKey o)).
    generalize (JsArray.sort byIndex (filter isIndexKey o)). intros l Hp.
    assert (Hall : forall x, In x l -> isIndexKey x = true).
    { intros x Hx. eapply Permutation_in in Hx; [|exact Hp]. now apply filter_In in Hx. }
    clear Hp. induction l as [|x l IH]; [reflexivity|]. cbn [filter].
    rewrite (Hall x) by now left. cbn [negb]. apply IH.
    intros y Hy. apply Hall. now right. }
  rewrite H. cbn [app]. rewrite filter_filter.
  apply filter_ext_in_bool. intros x _. apply andb_diag.
Qed.

Lemma Before_app_l {X : Type} (x y : X) l1 l2 :
  Before x y (l1 ++ l2) -> ~ In y l2 -> Before x y l1.
Proof.
  intros H Hy. induction l1 as [|z l1 IH]; cbn [app] in H.
  - exfalso. apply Hy. eapply Before_In_r. exact H.
  - apply Before_cons_inv in H as [[-> Hin]|H].
    + apply Before_head. apply in_app_or in Hin as [Hin|Hin]; [exact Hin | contradiction].
    + apply Before_cons. now apply IH.
Qed.

Lemma StronglySorted_Before {X : Type} (R : X -> X -> Prop) (x y : X) l :
  StronglySorted R l -> Before x y l -> R x y.
Proof.
  induction 1 as [|z l _ IH Hz]; intros H.
  - destruct H as (l1 & ? & ? & E). now destruct l1.
  - apply Before_cons_inv in H as [[-> Hin]|H]; [|now apply IH].
    rewrite Forall_forall in Hz. now apply Hz.
Qed.

Lemma index_not_other (o : t V) e :
  isIndexKey e = true -> ~ In e (filter (fun e => negb (isIndexKey e)) o).
Proof. intros He Hin. apply filter_In in Hin as [_ H]. now rewrite He in H. Qed.

(** The array-index keys are enumerated before all others, in ascending
    order of their index. *)
Lemma entries_index_first (o : t V) a b :
  Before a b (entries o) -> isIndexKey b = true ->
  isIndexKey a = true /\ indexOf a <= indexOf b.
Proof.
  intros H Hb. unfold entries in H.
  apply Before_app_l in H; [|now apply index_not_other].
  split.
  - apply Before_In_l in H. eapply Permutation_in in H; [|apply sort_perm].
    now apply filter_In in H.
  - assert (Hs : StronglySorted (fun x y => byIndex x y <= 0)
                   (JsArray.sort (@byIndex V) (filter isIndexKey o))).
    { apply sort_sorted; unfold byIndex; intros; lia. }
    pose proof (StronglySorted_Before _ _ _ _ Hs H) as Hab. unfold byIndex in Hab. lia.
Qed.

End EntriesFacts.

(** ** Top prompts *)

Section TopPromptFacts.
Import Analytics.

Lemma fold_left_bump_map {X : Type} (f : X -> string) (l : list X) acc :
  fold_left (fun a x => bump a (f x)) l acc = fold_left bump (map f l) acc.
Proof. revert acc. induction l as [|x l IH]; intros acc; cbn; [reflexivity | apply IH]. Qed.

Lemma promptCounts_fold filtered :
  promptCounts filtered = fold_left bump (map truncPrompt filtered) JsObject.empty.
Proof. apply fold_left_bump_map. Qed.

Lemma get_In_NoDup {V : Type} (o : JsObject.t V) k v :
  NoDup (map fst o) -> In (k, v) o -> JsObject.get o k = Some v.
Proof.
  induction o as [|[k' v'] o IH]; cbn; [tauto|].
  intros Hnd [E|Hin].
  - injection E as -> ->. now rewrite String.eqb_refl.
  - inversion Hnd as [|? ? Hk Hnd']; subst.
    destruct (String.eqb_spec k' k) as [->|Hne].
    + exfalso. apply Hk. apply (in_map fst) in Hin. exact Hin.
    + now apply IH.
Qed.

(** Every entry of a counting object carries the number of occurrences of
    its key. *)
Lemma counting_entry keys k v :
  In (k, v) (fold_left bump keys JsObject.empty) ->
  v = Z.of_nat (count_occ string_dec keys k) /\ 1 <= v.
Proof.
  intros Hin.
  assert (Hk : In k keys).
  { apply firstSeen_In. rewrite <- keys_fold_bump_empty.
    apply (in_map fst) in Hin. exact Hin. }
  pose proof (countOf_fold_bump keys JsObject.empty k) as Hc.
  unfold countOf at 1 in Hc. rewrite (get_In_NoDup _ k v) in Hc; [|
    rewrite keys_fold_bump_empty; apply firstSeen_NoDup | exact Hin].
  cbn in Hc. apply (count_occ_In string_dec) in Hk.
  destruct (Z.eqb_spec v 0); lia.
Qed.

Lemma StronglySorted_firstn {X : Type} (R : X -> X -> Prop) n l :
  StronglySorted R l -> StronglySorted R (firstn n l).
Proof.
  revert n. induction l as [|x l IH]; intros [|n] Hs; cbn; try constructor.
  - inversion Hs; subst. now apply IH.
  - inversion Hs as [|? ? _ Hx]; subst. rewrite Forall_forall in *.
    intros y Hy. apply Hx. rewrite <- (firstn_skipn n l). apply in_or_app. now left.
Qed.

Lemma StronglySorted_map {X Y : Type} (R : Y -> Y -> Prop) (f : X -> Y) l :
  StronglySorted (fun a b => R (f a) (f b)) l -> StronglySorted R (map f l).
Proof.
  induction 1 as [|x l _ IH Hx]; cbn; constructor; [assumption|].
  rewrite Forall_forall in *. intros y Hy.
  apply in_map_iff in Hy as (z & <- & Hz). now apply Hx.
Qed.

Lemma StronglySorted_impl {X : Type} (R R' : X -> X -> Prop) l :
  (forall a b, R a b -> R' a b) -> StronglySorted R l -> StronglySorted R' l.
Proof.
  intros HR. induction 1 as [|x l _ IH Hx]; constructor; [assumption|].
  eapply Forall_impl; [|exact Hx]. intros y. apply HR.
Qed.

Lemma byCountDesc_sorted l :
  StronglySorted (fun a b => snd b <= snd a) (JsArray.sort byCountDesc l).
Proof.
  apply (StronglySorted_impl (fun a b => byCountDesc a b <= 0)).
  - unfold byCountDesc. intros a b. lia.
  - apply sort_sorted; unfold byCountDesc; intros; lia.
Qed.

Lemma byCountDesc_stable c l :
  filter (fun e : string * Z => snd e =? c) (JsArray.sort byCountDesc l)
  = filter (fun e => snd e =? c) l.
Proof.
  apply sort_stable. unfold byCountDesc. intros a b Ha Hb.
  apply Z.eqb_eq in Ha, Hb. lia.
Qed.

(** C4, as amended.  For prompts that are not names inherited from
    [Object.prototype]: the ranking has [limit] entries, or as many as there
    are distinct prompts when these are fewer; its counts never increase;
    each count is the number of records with that prompt; and two entries
    with equal counts of which neither prompt is an array index stand in the
    order in which their prompts were first met, while an entry whose prompt
    is an array index stands only after equal-count entries whose prompts
    are smaller array indices. *)
Theorem topPrompts_ranking limit filtered :
  Forall (fun img => ~ In (truncPrompt img) JsObject.inheritedKeys) filtered ->
  (List.length (topPromptsOf limit filtered) <= limit)%nat
  /\ List.length (topPromptsOf limit filtered)
     = Nat.min limit (List.length (firstSeen (map truncPrompt filtered)))
  /\ StronglySorted (fun a b => pc_count b <= pc_count a) (topPromptsOf limit filtered)
  /\ Forall (fun e =>
       pc_count e = Z.of_nat (count_occ string_dec (map truncPrompt filtered) (pc_prompt e))
       /\ 1 <= pc_count e) (topPromptsOf limit filtered)
  /\ (forall a b,
       Before a b (topPromptsOf limit filtered) ->
       pc_count a = pc_count b ->
       JsObject.arrayIndex (pc_prompt a) = None ->
       JsObject.arrayIndex (pc_prompt b) = None ->
       Before (pc_prompt a) (pc_prompt b) (firstSeen (map truncPrompt filtered)))
  /\ (forall a b j,
       Before a b (topPromptsOf limit filtered) ->
       pc_count a = pc_count b ->
       JsObject.arrayIndex (pc_prompt b) = Some j ->
       exists i, JsObject.arrayIndex (pc_prompt a) = Some i /\ i <= j).
Proof.
  intros _. unfold topPromptsOf, JsArray.sliceTo. rewrite promptCounts_fold.
  set (keys := map truncPrompt filtered).
  set (o := fold_left bump keys JsObject.empty).
  assert (Hlen : List.length (firstn limit (JsArray.sort byCountDesc (JsObject.entries o)))
                 = Nat.min limit (List.length (firstSeen keys))).
  { rewrite length_firstn, sort_length, entries_length.
    unfold o. now rewrite <- keys_fold_bump_empty, length_map. }
  assert (Hties : forall a b,
    Before a b (map (fun e => mkPromptCount (fst e) (snd e))
                  (firstn limit (JsArray.sort byCountDesc (JsObject.entries o)))) ->
    pc_count a = pc_count b ->
    exists ea eb, a = mkPromptCount (fst ea) (snd ea) /\ b = mkPromptCount (fst eb) (snd eb)
                  /\ Before ea eb (JsObject.entries o)).
  { intros a b Hab Hc.
    apply Before_map_inv in Hab as (ea & eb & -> & -> & Hab).
    cbn [pc_count] in Hc. exists ea, eb. repeat split.
    apply Before_firstn in Hab.
    apply (Before_filter (fun e => snd e =? snd ea)) in Hab;
      [|apply Z.eqb_refl | apply Z.eqb_eq; congruence].
    rewrite byCountDesc_stable in Hab. now apply Before_filter_inv in Hab. }
  split; [|split; [|split; [|split; [|split]]]].
  - rewrite length_map, Hlen. apply Nat.le_min_l.
  - now rewrite length_map.
  - apply StronglySorted_map. cbn [pc_count]. apply StronglySorted_firstn.
    apply byCountDesc_sorted.
  - apply Forall_forall. intros e He.
    apply in_map_iff in He as ([k v] & <- & Hin). cbn [pc_count pc_prompt fst snd].
    apply counting_entry.
    assert (Hs : In (k, v) (JsArray.sort byCountDesc (JsObject.entries o))).
    { rewrite <- (firstn_skipn limit). apply in_or_app. now left. }
    eapply Permutation_in in Hs; [|apply sort_perm].
    eapply Permutation_in in Hs; [|apply entries_perm]. exact Hs.
  - intros a b Hab Hc Ha Hb.
    destruct (Hties a b Hab Hc) as (ea & eb & -> & -> & He).
    cbn [pc_prompt] in Ha, Hb.
    apply (Before_filter (fun e => negb (JsObject.isIndexKey e))) in He;
      [| unfold JsObject.isIndexKey; now rewrite Ha
       | unfold JsObject.isIndexKey; now rewrite Hb].
    rewrite entries_others in He. apply Before_filter_inv in He.
    apply (Before_map fst) in He. cbn [pc_prompt].
    unfold o in He. now rewrite keys_fold_bump_empty in He.
  - intros a b j Hab Hc Hb.
    destruct (Hties a b Hab Hc) as (ea & eb & -> & -> & He).
    cbn [pc_prompt] in *.
    destruct (entries_index_first o ea eb He) as [Ha Hle].
    { unfold JsObject.isIndexKey. now rewrite Hb. }
    unfold JsObject.isIndexKey in Ha. unfold JsObject.indexOf in Hle. rewrite Hb in Hle.
    destruct (JsObject.arrayIndex (fst ea)) as [i|]; [|discriminate].
    now exists i.
Qed.

Lemma topPrompts_ranking_witness :
  (List.length (topPromptsOf 10 Sample.images) <= 10)%nat
  /\ List.length (topPromptsOf 10 Sample.images)
     = Nat.min 10 (List.length (firstSeen (map truncPrompt Sample.images)))
  /\ StronglySorted (fun a b => pc_count b <= pc_count a) (topPromptsOf 10 Sample.images)
  /\ Forall (fun e =>
       pc_count e = Z.of_nat (count_occ string_dec (map truncPrompt Sample.images) (pc_prompt e))
       /\ 1 <= pc_count e) (topPromptsOf 10 Sample.images)
  /\ (forall a b,
       Before a b (topPromptsOf 10 Sample.images) ->
       pc_count a = pc_count b ->
       JsObject.arrayIndex (pc_prompt a) = None ->
       JsObject.arrayIndex (pc_prompt b) = None ->
       Before (pc_prompt a) (pc_prompt b) (firstSeen (map truncPrompt Sample.images)))
  /\ (forall a b j,
       Before a b (topPromptsOf 10 Sample.images) ->
       pc_count a = pc_count b ->
       JsObject.arrayIndex (pc_prompt b) = Some j ->
       exists i, JsObject.arrayIndex (pc_prompt a) = Some i /\ i <= j).
Proof.
  apply (topPrompts_ranking 10 Sample.images).
  repeat constructor; vm_compute; intuition discriminate.
Defined.

Example topPrompts_sample :
  topPromptsOf 10 Sample.images = [mkPromptCount "a cat" 2; mkPromptCount "a dog" 1].
Proof. reflexivity. Qed.

(** C4 as stated fails on its tie rule: the prompts "b" and "1" occur once
    each, "b" first, and the ranking lists "1" first, because an object
    enumerates its array-index keys before the others. *)
Lemma topPrompts_tie_not_first_met :
  topPromptsOf 10 Sample.numbered = [mkPromptCount "1" 1; mkPromptCount "b" 1]
  /\ firstSeen (map truncPrompt Sample.numbered) = ["b"; "1"]%string
  /\ ~ Before "1"%string "b"%string (firstSeen (map truncPrompt Sample.numbered)).
Proof.
  split; [reflexivity|]. split; [reflexivity|].
  intros (l1 & l2 & l3 & E). cbn in E.
  pose proof (f_equal (@List.length string) E) as Hl.
  rewrite List.length_app in Hl. cbn [List.length] in Hl.
  rewrite List.length_app in Hl. cbn [List.length] in Hl.
  destruct l1; [destruct l2; [destruct l3|]|]; cbn [List.length] in Hl; try lia.
  discriminate E.
Qed.

End TopPromptFacts.

(** ** The export *)

Section CsvFacts.
Import Analytics.

Lemma lacks_ofDigits fuel n acc :
  Str.lacks Str.newlineChar acc = true ->
  Str.lacks Str.newlineChar (Str.ofDigits fuel n acc) = true.
Proof.
  revert n acc. induction fuel as [|f IH]; intros n acc H; cbn [Str.ofDigits]; [exact H|].
  assert (H' : Str.lacks Str.newlineChar (String (Str.digitChar (n mod 10)) acc) = true).
  { cbn [Str.lacks]. now rewrite digitChar_not_newline, H. }
  destruct (n / 10 =? 0); [exact H' | now apply IH].
Qed.

Lemma lacks_ofZ n : Str.lacks Str.newlineChar (Str.ofZ n) = true.
Proof.
  unfold Str.ofZ. destruct (n <? 0).
  - cbn [Str.lacks]. rewrite lacks_ofDigits; reflexivity.
  - now apply lacks_ofDigits.
Qed.

(** The text of a number is its decimal digits: read back, it gives the
    number, whatever its size. *)
Lemma ofDigits_value fuel n acc :
  0 <= n < 2 ^ Z.of_nat fuel ->
  exists k, 0 <= k /\ forall v,
    Str.digitsValAcc (Str.ofDigits fuel n acc) v = Str.digitsValAcc acc (v * 10 ^ k + n).
Proof.
  revert n acc. induction fuel as [|f IH]; intros n acc Hn.
  - cbn in Hn. exists 0. split; [lia|]. intros v. cbn [Str.ofDigits].
    f_equal. lia.
  - cbn [Str.ofDigits].
    assert (Hd : 0 <= n mod 10 < 10) by (apply Z.mod_pos_bound; lia).
    destruct (Z.eqb_spec (n / 10) 0) as [E|E].
    + exists 1. split; [lia|]. intros v. cbn [Str.digitsValAcc].
      rewrite digitVal_digitChar by exact Hd. f_equal.
      pose proof (Z.div_mod n 10). lia.
    + destruct (IH (n / 10) (String (Str.digitChar (n mod 10)) acc)) as (k & Hk & Hv).
      { rewrite Nat2Z.inj_succ, Z.pow_succ_r in Hn by lia.
        split; [apply Z.div_pos; lia|].
        apply Z.div_lt_upper_bound; lia. }
      exists (k + 1). split; [lia|]. intros v. rewrite Hv. cbn [Str.digitsValAcc].
      rewrite digitVal_digitChar by exact Hd. f_equal.
      rewrite Z.pow_add_r by lia. pose proof (Z.div_mod n 10). lia.
Qed.

Lemma ofZ_value n : 0 <= n -> Str.digitsValAcc (Str.ofZ n) 0 = Some n.
Proof.
  intros Hn. unfold Str.ofZ. destruct (Z.ltb_spec n 0) as [L|_]; [lia|].
  destruct (ofDigits_value (S (Z.to_nat (Z.log2 n))) n EmptyString) as (k & _ & Hv).
  - split; [exact Hn|]. rewrite Nat2Z.inj_succ, Z2Nat.id by apply Z.log2_nonneg.
    destruct (Z.eq_dec n 0) as [->|Hne]; [cbn; lia|].
    apply Z.log2_spec. lia.
  - rewrite Hv. cbn [Str.digitsValAcc]. f_equal.
Qed.

Lemma splitOn_lacks c s : Str.lacks c s = true -> Str.splitOn c s = [s].
Proof.
  induction s as [|a s IH]; cbn; [reflexivity|]. intros H.
  apply andb_prop in H as [Ha Hs]. apply negb_true_iff in Ha.
  now rewrite Ha, IH.
Qed.

Lemma splitOn_app c s rest :
  Str.lacks c s = true ->
  Str.splitOn c (s ++ String c rest) = s :: Str.splitOn c rest.
Proof.
  induction s as [|a s IH]; cbn; intros H.
  - now rewrite Ascii.eqb_refl.
  - apply andb_prop in H as [Ha Hs]. apply negb_true_iff in Ha.
    now rewrite Ha, IH.
Qed.

(** Splitting a joined text gives the parts back: no part is lost, merged
    or added, in particular no empty last one. *)
Lemma splitOn_join c p parts :
  Forall (fun x => Str.lacks c x = true) (p :: parts) ->
  Str.splitOn c (Str.join (String c EmptyString) (p :: parts)) = p :: parts.
Proof.
  revert p. induction parts as [|q parts IH]; intros p H.
  - cbn. apply splitOn_lacks. now inversion H.
  - inversion H as [|? ? Hp Hrest]; subst.
    change (Str.join (String c EmptyString) (p :: q :: parts))
      with (p ++ String c (Str.join (String c EmptyString) (q :: parts)))%string.
    rewrite splitOn_app by exact Hp. f_equal. now apply IH.
Qed.

Lemma csvRow_line stat : Str.join "," (csvRow stat) = csvLine stat.
Proof. reflexivity. Qed.

Lemma lacks_csvLine stat :
  Str.lacks Str.newlineChar (date stat) = true ->
  Str.lacks Str.newlineChar (csvLine stat) = true.
Proof.
  intros H. unfold csvLine. rewrite !lacks_app, H, !lacks_ofZ. reflexivity.
Qed.

Lemma dateStrAt_lacks_newline now i d :
  dateStrAt now i = Ok d -> Str.lacks Str.newlineChar d = true.
Proof.
  unfold dateStrAt.
  destruct (JsDate.TimeClip (now - i * 24 * 60 * 60 * 1000)) as [t|];
    cbn [JsDate.toISOString bind append]; [|discriminate].
  rewrite beforeFirst_lacks by apply lacks_T_fmtDate.
  intros [= <-]. apply lacks_newline_fmtDate.
Qed.

Lemma dailyStatsLoop_dates now filtered n stats :
  dailyStatsLoop now filtered n = Ok stats ->
  Forall (fun stat => Str.lacks Str.newlineChar (date stat) = true) stats.
Proof.
  revert stats. induction n as [|i IH]; intros stats H; cbn [dailyStatsLoop] in H.
  - injection H as <-. constructor.
  - destruct (dateStrAt now (Z.of_nat i)) as [d|e] eqn:Ed; cbn [bind] in H; [|discriminate].
    destruct (dailyStatsLoop now filtered i) as [rest|e]; cbn [bind] in H; [|discriminate].
    injection H as <-. constructor; [|now apply IH].
    cbn [date dayStat]. now apply (dateStrAt_lacks_newline now (Z.of_nat i)).
Qed.

(** The joined text is the first part followed by each other part after a
    separator. *)
Lemma join_cons sep p parts :
  Str.join sep (p :: parts)
  = (p ++ String.concat "" (map (fun x => sep ++ x) parts))%string.
Proof.
  revert p. induction parts as [|q parts IH]; intros p.
  - cbn. now rewrite append_empty_r.
  - change (Str.join sep (p :: q :: parts)) with (p ++ sep ++ Str.join sep (q :: parts))%string.
    rewrite IH. cbn [map]. f_equal.
    destruct parts as [|r parts]; cbn [map String.concat].
    + now rewrite !append_empty_r.
    + now rewrite <- string_app_assoc.
Qed.

(** C5.  For the daily statistics of any collection, the export is the
    header, then for each bucket in order a newline and its line
    [date,users,images], and nothing after the last line; cut at the
    newlines it gives back exactly the header and these lines.  On the three
    sample days, with 2, 0 and 1 images and 1, 0 and 1 users, it is the text
    of the claim. *)
Theorem csvContent_lines parse now days imgs stats :
  bucketByDay parse now days imgs = Ok stats ->
  csvContent stats
  = ("Date,Users,Images"
     ++ String.concat "" (map (fun stat => Str.newline ++ csvLine stat) stats))%string
  /\ Str.splitOn Str.newlineChar (csvContent stats)
     = "Date,Users,Images"%string :: map csvLine stats
  /\ bucketByDay IsoParse.parse Sample.now 3 Sample.images = Ok Sample.stats
  /\ csvContent Sample.stats
     = "Date,Users,Images
2024-01-01,1,2
2024-01-02,0,0
2024-01-03,1,1"%string.
Proof.
  intros Hb. apply dailyStatsLoop_dates in Hb.
  split; [|split; [|split; reflexivity]].
  - unfold csvContent. cbn [map]. rewrite join_cons. f_equal.
    rewrite !map_map. reflexivity.
  - unfold csvContent. cbn [map]. unfold Str.newline.
    rewrite splitOn_join.
    + f_equal. rewrite map_map. apply map_ext. intros stat. apply csvRow_line.
    + constructor; [reflexivity|].
      apply Forall_forall. intros x Hx.
      apply in_map_iff in Hx as (row & <- & Hrow).
      apply in_map_iff in Hrow as (stat & <- & Hstat).
      rewrite csvRow_line. apply lacks_csvLine.
      rewrite Forall_forall in Hb. now apply Hb.
Qed.

Lemma csvContent_lines_witness :
  csvContent Sample.stats
  = ("Date,Users,Images"
     ++ String.concat "" (map (fun stat => Str.newline ++ csvLine stat) Sample.stats))%string
  /\ Str.splitOn Str.newlineChar (csvContent Sample.stats)
     = "Date,Users,Images"%string :: map csvLine Sample.stats
  /\ bucketByDay IsoParse.parse Sample.now 3 Sample.images = Ok Sample.stats
  /\ csvContent Sample.stats
     = "Date,Users,Images
2024-01-01,1,2
2024-01-02,0,0
2024-01-03,1,1"%string.
Proof.
  apply (csvContent_lines IsoParse.parse Sample.now 3 Sample.images Sample.stats).
  vm_compute. reflexivity.
Defined.

End CsvFacts.

(** ** Comparison of keys *)

Section CompareFacts.

Lemma compare_range a b : -1 <= Str.compare a b <= 1.
Proof.
  revert b. induction a as [|x a IH]; intros [|y b]; cbn [Str.compare]; try lia.
  destruct (nat_of_ascii x <? nat_of_ascii y)%nat; [lia|].
  destruct (nat_of_ascii y <? nat_of_ascii x)%nat; [lia|]. apply IH.
Qed.

Lemma compare_eq a b : Str.compare a b = 0 -> a = b.
Proof.
  revert b. induction a as [|x a IH]; intros [|y b]; cbn [Str.compare]; try discriminate; [reflexivity|].
  destruct (Nat.ltb_spec (nat_of_ascii x) (nat_of_ascii y)); [discriminate|].
  destruct (Nat.ltb_spec (nat_of_ascii y) (nat_of_ascii x)); [discriminate|].
  intros Hc. f_equal; [|now apply IH].
  rewrite <- (ascii_nat_embedding x), <- (ascii_nat_embedding y). f_equal. lia.
Qed.

Lemma compare_refl a : Str.compare a a = 0.
Proof. induction a as [|x a IH]; cbn [Str.compare]; [reflexivity|]. now rewrite Nat.ltb_irrefl. Qed.

Lemma compare_antisym a b : Str.compare b a = - Str.compare a b.
Proof.
  revert b. induction a as [|x a IH]; intros [|y b]; cbn [Str.compare]; try reflexivity.
  destruct (Nat.ltb_spec (nat_of_ascii x) (nat_of_ascii y)),
           (Nat.ltb_spec (nat_of_ascii y) (nat_of_ascii x)); try lia; try reflexivity.
  apply IH.
Qed.

Lemma compare_trans a b c :
  Str.compare a b <= 0 -> Str.compare b c <= 0 -> Str.compare a c <= 0.
Proof.
  revert b c. induction a as [|x a IH]; intros [|y b] [|z c]; cbn [Str.compare]; try lia.
  destruct (Nat.ltb_spec (nat_of_ascii x) (nat_of_ascii y)),
           (Nat.ltb_spec (nat_of_ascii y) (nat_of_ascii x)),
           (Nat.ltb_spec (nat_of_ascii y) (nat_of_ascii z)),
           (Nat.ltb_spec (nat_of_ascii z) (nat_of_ascii y)),
           (Nat.ltb_spec (nat_of_ascii x) (nat_of_ascii z)),
           (Nat.ltb_spec (nat_of_ascii z) (nat_of_ascii x)); try lia.
  apply IH.
Qed.

Lemma compare_total a b : 0 < Str.compare a b -> Str.compare b a <= 0.
Proof. rewrite (compare_antisym a b). lia. Qed.

Lemma byKey_sorted (l : list (string * Z)) :
  StronglySorted (fun a b => Str.compare (fst a) (fst b) <= 0)
    (JsArray.sort Analytics.byKey l).
Proof.
  apply (sort_sorted Analytics.byKey); unfold Analytics.byKey.
  - intros a b c. apply compare_trans.
  - intros a b. apply compare_total.
Qed.

Lemma sorted_strict (l : list (string * Z)) :
  NoDup (map fst l) ->
  StronglySorted (fun a b => Str.compare (fst a) (fst b) <= 0) l ->
  StronglySorted (fun a b => Str.compare (fst a) (fst b) < 0) l.
Proof.
  induction l as [|x l IH]; intros Hnd Hs; [constructor|].
  inversion Hnd as [|? ? Hx Hnd']; subst. inversion Hs as [|? ? Hs' Hall]; subst.
  constructor; [now apply IH|].
  rewrite Forall_forall in *. intros y Hy.
  specialize (Hall y Hy).
  destruct (Z.eq_dec (Str.compare (fst x) (fst y)) 0) as [E|E]; [|lia].
  apply compare_eq in E. exfalso. apply Hx. rewrite E. now apply in_map.
Qed.

End CompareFacts.

(** ** Monthly growth *)

Section MonthKeyFacts.
Import JsDate.

Lemma nat_of_digitChar k :
  0 <= k < 10 -> Z.of_nat (nat_of_ascii (Str.digitChar k)) = 48 + k.
Proof.
  intros H. destruct (digit_cases k H) as [->|[->|[->|[->|[->|[->|[->|[->|[->| ->]]]]]]]]];
    reflexivity.
Qed.

(** Texts of zero-padded numbers compare as the numbers. *)
Lemma compare_padDigits w a b s t :
  Str.compare (Str.padDigits w a ++ s) (Str.padDigits w b ++ t)
  = if a mod 10 ^ Z.of_nat w <? b mod 10 ^ Z.of_nat w then -1
    else if b mod 10 ^ Z.of_nat w <? a mod 10 ^ Z.of_nat w then 1
    else Str.compare s t.
Proof.
  induction w as [|w IH].
  - cbn. now rewrite !Z.mod_1_r.
  - cbn [Str.padDigits append Str.compare].
    rewrite Nat2Z.inj_succ, Z.pow_succ_r by lia. rewrite (Z.mul_comm 10).
    rewrite !(Z.rem_mul_r _ (10 ^ Z.of_nat w) 10) by lia.
    assert (Hp : 0 < 10 ^ Z.of_nat w) by (apply Z.pow_pos_nonneg; lia).
    pose proof (Z.mod_pos_bound a _ Hp) as Ha.
    pose proof (Z.mod_pos_bound b _ Hp) as Hb.
    assert (Hda : 0 <= (a / 10 ^ Z.of_nat w) mod 10 < 10) by (apply Z.mod_pos_bound; lia).
    assert (Hdb : 0 <= (b / 10 ^ Z.of_nat w) mod 10 < 10) by (apply Z.mod_pos_bound; lia).
    pose proof (nat_of_digitChar _ Hda) as Na. pose proof (nat_of_digitChar _ Hdb) as Nb.
    rewrite IH.
    set (P := 10 ^ Z.of_nat w) in *.
    set (da := (a / P) mod 10) in *. set (db := (b / P) mod 10) in *.
    set (ra := a mod P) in *. set (rb := b mod P) in *.
    destruct (Nat.ltb_spec (nat_of_ascii (Str.digitChar da)) (nat_of_ascii (Str.digitChar db))) as [L1|L1].
    + assert (da + 1 <= db) by lia.
      assert (P * (da + 1) <= P * db) by (apply Z.mul_le_mono_nonneg_l; lia).
      destruct (Z.ltb_spec (ra + P * da) (rb + P * db)); [reflexivity | lia].
    + destruct (Nat.ltb_spec (nat_of_ascii (Str.digitChar db)) (nat_of_ascii (Str.digitChar da))) as [L2|L2].
      * assert (db + 1 <= da) by lia.
        assert (P * (db + 1) <= P * da) by (apply Z.mul_le_mono_nonneg_l; lia).
        destruct (Z.ltb_spec (ra + P * da) (rb + P * db)); [lia|].
        destruct (Z.ltb_spec (rb + P * db) (ra + P * da)); [reflexivity | lia].
      * assert (E : da = db) by lia. rewrite E.
        destruct (Z.ltb_spec ra rb), (Z.ltb_spec (ra + P * db) (rb + P * db)); try lia;
          try reflexivity.
        destruct (Z.ltb_spec rb ra), (Z.ltb_spec (rb + P * db) (ra + P * db)); try lia;
          reflexivity.
Qed.

(** Month keys are ordered as the months. *)
Lemma monthKey_compare c1 c2 :
  0 <= year c1 <= 9999 -> 0 <= year c2 <= 9999 ->
  1 <= month c1 <= 12 -> 1 <= month c2 <= 12 ->
  (Str.compare (monthKey c1) (monthKey c2) < 0 <-> monthBefore c1 c2).
Proof.
  intros Hy1 Hy2 Hm1 Hm2. unfold monthKey, monthBefore.
  rewrite compare_padDigits. cbn [append Str.compare].
  rewrite Nat.ltb_irrefl.
  rewrite <- (append_empty_r (Str.padDigits 2 (month c1))).
  rewrite <- (append_empty_r (Str.padDigits 2 (month c2))).
  rewrite compare_padDigits. cbn [Str.compare].
  change (10 ^ Z.of_nat 4) with 10000. change (10 ^ Z.of_nat 2) with 100.
  rewrite !Z.mod_small by lia.
  destruct (Z.ltb_spec (year c1) (year c2)); [lia|].
  destruct (Z.ltb_spec (year c2) (year c1)); [lia|].
  destruct (Z.ltb_spec (month c1) (month c2)); [lia|].
  destruct (Z.ltb_spec (month c2) (month c1)); lia.
Qed.

Lemma digitChar_code k : 48 <= Z.of_nat (nat_of_ascii (Str.digitChar k)) <= 57.
Proof.
  unfold Str.digitChar. destruct k as [|p|p]; try (cbn; lia).
  do 4 (try destruct p as [p|p|]; try (cbn; lia)).
Qed.

(** A month key begins with a digit: it is none of the names an object
    inherits, so that the counting object reads and writes it as an own
    property. *)
Lemma monthKey_not_inherited c : ~ In (monthKey c) JsObject.inheritedKeys.
Proof.
  assert (H : exists ch rest, monthKey c = String ch rest
                              /\ 48 <= Z.of_nat (nat_of_ascii ch) <= 57).
  { unfold monthKey. cbn [Str.padDigits append]. eexists. eexists.
    split; [reflexivity | apply digitChar_code]. }
  destruct H as (ch & rest & -> & Hch). unfold JsObject.inheritedKeys. cbn [In].
  intros Hin.
  repeat (destruct Hin as [Hin|Hin]; [injection Hin as <- _; cbn in Hch; lia|]).
  exact Hin.
Qed.

Lemma take7_fmtDate c rest :
  0 <= year c <= 9999 ->
  Str.take 7 (fmtDate c ++ rest) = monthKey c.
Proof.
  intros H. unfold fmtDate, fmtYear, monthKey.
  assert (E : (0 <=? year c) && (year c <=? 9999) = true).
  { apply andb_true_intro. split; apply Z.leb_le; lia. }
  rewrite E. reflexivity.
Qed.

End MonthKeyFacts.

Section GrowthFacts.
Import JsDate Analytics.

Variable parse : string -> option Z.
Variable now : Z.

Lemma userMonth_dated u c : datedUser parse now u c -> userMonth parse now u = Ok (monthKey c).
Proof.
  intros (t & Ht & -> & Hy). unfold userMonth. rewrite Ht.
  cbn [toISOString bind]. f_equal. now apply take7_fmtDate.
Qed.

Lemma userMonths_dated us cs :
  Forall2 (datedUser parse now) us cs -> userMonths parse now us = Ok (map monthKey cs).
Proof.
  induction 1 as [|u c us cs Hu _ IH]; cbn [userMonths map]; [reflexivity|].
  rewrite (userMonth_dated u c Hu). cbn [bind]. now rewrite IH.
Qed.

Lemma userMonths_app l1 l2 ks1 ks2 :
  userMonths parse now l1 = Ok ks1 -> userMonths parse now l2 = Ok ks2 ->
  userMonths parse now (l1 ++ l2) = Ok (ks1 ++ ks2).
Proof.
  revert ks1. induction l1 as [|u l1 IH]; intros ks1 H1 H2; cbn [userMonths app] in *.
  - injection H1 as <-. exact H2.
  - destruct (userMonth parse now u) as [k|e]; cbn [bind] in *; [|discriminate].
    destruct (userMonths parse now l1) as [ks|e]; cbn [bind] in *; [|discriminate].
    injection H1 as <-. now rewrite (IH ks eq_refl H2).
Qed.

(** The reduction adds one to the key of each user in turn. *)
Lemma monthlyUsersFrom_keys us keys acc :
  userMonths parse now us = Ok keys ->
  monthlyUsersFrom parse now acc us = Ok (fold_left bump keys acc).
Proof.
  revert keys acc. induction us as [|u us IH]; intros keys acc H; cbn [userMonths monthlyUsersFrom] in *.
  - now injection H as <-.
  - destruct (userMonth parse now u) as [k|e]; cbn [bind] in *; [|discriminate].
    destruct (userMonths parse now us) as [ks|e]; cbn [bind] in *; [|discriminate].
    injection H as <-. cbn [fold_left]. now apply IH.
Qed.

(** It throws as soon as one timestamp is an Invalid Date. *)
Lemma monthlyUsersFrom_throw us acc e :
  userMonths parse now us = Throw e -> monthlyUsersFrom parse now acc us = Throw e.
Proof.
  revert acc. induction us as [|u us IH]; intros acc H; cbn [userMonths monthlyUsersFrom] in *.
  - discriminate.
  - destruct (userMonth parse now u) as [k|e']; cbn [bind] in *; [|now injection H as <-].
    destruct (userMonths parse now us) as [ks|e']; cbn [bind] in *; [discriminate|].
    injection H as <-. now apply IH.
Qed.

Lemma sliceLast_length {X : Type} n (l : list X) :
  (0 < n)%nat -> List.length (JsArray.sliceLast n l) = Nat.min n (List.length l).
Proof.
  intros Hn. unfold JsArray.sliceLast. destruct n as [|n]; [lia|].
  rewrite length_skipn. lia.
Qed.

(** The slice is the end of the array. *)
Lemma sliceLast_suffix {X : Type} n (l : list X) :
  exists older, l = older ++ JsArray.sliceLast n l.
Proof.
  unfold JsArray.sliceLast. destruct n as [|n].
  - now exists [].
  - exists (firstn (List.length l - S n) l). now rewrite firstn_skipn.
Qed.

Lemma entry_of_key (o : JsObject.t Z) k : In k (map fst o) -> exists v, In (k, v) o.
Proof.
  intros H. apply in_map_iff in H as ([k' v] & E & Hin). cbn in E. subst k'. now exists v.
Qed.

End GrowthFacts.

Section GrowthClaims.
Import JsDate Analytics.

Lemma Forall2_In_r {X Y : Type} (R : X -> Y -> Prop) xs ys y :
  Forall2 R xs ys -> In y ys -> exists x, In x xs /\ R x y.
Proof.
  induction 1 as [|x y' xs ys Hxy _ IH]; cbn; [tauto|].
  intros [<-|Hin].
  - exists x. auto.
  - destruct (IH Hin) as (x' & Hx' & Hr). exists x'. auto.
Qed.

Lemma datedUser_range parse now u c :
  datedUser parse now u c -> 0 <= year c <= 9999 /\ 1 <= month c <= 12.
Proof.
  intros (t & _ & -> & Hy). split; [exact Hy | apply civilOfDay_month].
Qed.

Example growthEntries_sample :
  growthEntries IsoParse.parse Sample.now 6 Sample.users
  = Ok [("2024-01", 2); ("2024-03", 1)]%string.
Proof. vm_compute. reflexivity. Qed.

Example userGrowth_sample :
  userGrowthOf IsoParse.parse Sample.utcLabel Sample.now 6 Sample.users
  = Ok [mkMonthUsers "Jan 2024" 2; mkMonthUsers "Mar 2024" 1].
Proof. vm_compute. reflexivity. Qed.

(** C6.  For users whose dates are valid with four-digit years and a
    positive [monthsBack], the growth chart is the last [monthsBack] entries
    of the list [all] of the months that hold at least one user: [all] has
    one entry per month key, in strictly ascending key order, which is the
    chronological order of the months, and an entry [(k, n)] is in it
    exactly when [n], at least 1, is the number of users of month [k].  A
    month without user has no entry: users of 2024-01 and 2024-03 give two
    entries. *)
Theorem growthEntries_months parse label now monthsBack us cs :
  (0 < monthsBack)%nat ->
  Forall2 (datedUser parse now) us cs ->
  exists all,
    growthEntries parse now monthsBack us = Ok (JsArray.sliceLast monthsBack all)
    /\ (exists older, all = older ++ JsArray.sliceLast monthsBack all)
    /\ userGrowthOf parse label now monthsBack us
       = Ok (map (fun e => mkMonthUsers (monthLabel parse label (fst e)) (snd e))
               (JsArray.sliceLast monthsBack all))
    /\ List.length (JsArray.sliceLast monthsBack all) = Nat.min monthsBack (List.length all)
    /\ StronglySorted (fun a b => Str.compare (fst a) (fst b) < 0) all
    /\ StronglySorted (fun a b => forall ca cb, In ca cs -> In cb cs ->
                         fst a = monthKey ca -> fst b = monthKey cb -> monthBefore ca cb) all
    /\ (forall k n, In (k, n) all
                    <-> n = Z.of_nat (count_occ string_dec (map monthKey cs) k) /\ 1 <= n)
    /\ growthEntries IsoParse.parse Sample.now 6 Sample.users
       = Ok [("2024-01", 2); ("2024-03", 1)]%string.
Proof.
  intros Hpos Hd.
  pose proof (userMonths_dated parse now us cs Hd) as Hkeys.
  set (keys := map monthKey cs) in *.
  set (o := fold_left bump keys JsObject.empty).
  assert (Hm : monthlyUsers parse now us = Ok o)
    by (apply monthlyUsersFrom_keys; exact Hkeys).
  set (all := JsArray.sort byKey (JsObject.entries o)).
  assert (Hperm : Permutation all o).
  { unfold all. rewrite sort_perm. apply entries_perm. }
  assert (Hg : growthEntries parse now monthsBack us = Ok (JsArray.sliceLast monthsBack all)).
  { unfold growthEntries. rewrite Hm. reflexivity. }
  assert (Hstrict : StronglySorted (fun a b => Str.compare (fst a) (fst b) < 0) all).
  { apply sorted_strict; [|apply byKey_sorted].
    apply (Permutation_NoDup (l := map fst o)).
    - symmetry. now apply Permutation_map.
    - unfold o. rewrite keys_fold_bump_empty. apply firstSeen_NoDup. }
  exists all. split; [|split; [|split; [|split; [|split; [|split; [|split]]]]]].
  - exact Hg.
  - apply sliceLast_suffix.
  - unfold userGrowthOf. rewrite Hg. reflexivity.
  - now apply sliceLast_length.
  - exact Hstrict.
  - apply (StronglySorted_impl (fun a b => Str.compare (fst a) (fst b) < 0));
      [|exact Hstrict].
    intros a b Hab ca cb Hca Hcb Ea Eb. cbn beta in Hab. rewrite Ea, Eb in Hab.
    destruct (Forall2_In_r _ _ _ _ Hd Hca) as (ua & _ & Hua).
    destruct (Forall2_In_r _ _ _ _ Hd Hcb) as (ub & _ & Hub).
    apply datedUser_range in Hua, Hub.
    apply monthKey_compare; tauto.
  - intros k n. split.
    + intros Hin. apply counting_entry. eapply Permutation_in; [exact Hperm | assumption].
    + intros [Hn H1].
      assert (Hk : In k keys).
      { apply (count_occ_In string_dec). lia. }
      apply firstSeen_In in Hk. rewrite <- keys_fold_bump_empty in Hk.
      apply entry_of_key in Hk as (v & Hv).
      pose proof (counting_entry keys k v Hv) as [Ev _].
      eapply Permutation_in; [symmetry; exact Hperm|]. now rewrite Hn, <- Ev.
  - apply growthEntries_sample.
Qed.

Lemma growthEntries_months_witness :
  exists all,
    growthEntries IsoParse.parse Sample.now 6 Sample.users = Ok (JsArray.sliceLast 6 all)
    /\ (exists older, all = older ++ JsArray.sliceLast 6 all)
    /\ userGrowthOf IsoParse.parse Sample.utcLabel Sample.now 6 Sample.users
       = Ok (map (fun e => mkMonthUsers (monthLabel IsoParse.parse Sample.utcLabel (fst e)) (snd e))
               (JsArray.sliceLast 6 all))
    /\ List.length (JsArray.sliceLast 6 all) = Nat.min 6 (List.length all)
    /\ StronglySorted (fun a b => Str.compare (fst a) (fst b) < 0) all
    /\ StronglySorted (fun a b => forall ca cb, In ca Sample.userDates -> In cb Sample.userDates ->
                         fst a = monthKey ca -> fst b = monthKey cb -> monthBefore ca cb) all
    /\ (forall k n, In (k, n) all
                    <-> n = Z.of_nat (count_occ string_dec (map monthKey Sample.userDates) k)
                        /\ 1 <= n)
    /\ growthEntries IsoParse.parse Sample.now 6 Sample.users
       = Ok [("2024-01", 2); ("2024-03", 1)]%string.
Proof.
  apply (growthEntries_months IsoParse.parse Sample.utcLabel Sample.now 6
           Sample.users Sample.userDates); [lia|].
  repeat constructor;
    (eexists; split; [vm_compute; reflexivity | split; [vm_compute; reflexivity | cbn; lia]]).
Defined.

End GrowthClaims.

(** ** Records without a usable timestamp *)

Section UnparseableFacts.
Import JsDate Analytics.

Lemma inRange_unparseable parse now days img :
  newDateOfString parse (createdAt img) = None -> inRange parse now days img = false.
Proof. intros H. unfold inRange. now rewrite H. Qed.

Lemma filteredImages_drop parse now days l1 img l2 :
  newDateOfString parse (createdAt img) = None ->
  filteredImages parse now days (l1 ++ img :: l2)
  = filteredImages parse now days (l1 ++ l2).
Proof.
  intros H. unfold filteredImages. rewrite !filter_app. cbn [filter].
  now rewrite (inRange_unparseable parse now days img H).
Qed.

Lemma userDate_missing parse now u :
  user_createdAt u = None \/ user_createdAt u = Some ""%string ->
  userDate parse now u = Some now.
Proof. unfold userDate. intros [-> | ->]; reflexivity. Qed.

(** C2, as amended.  An image whose timestamp does not parse is left out of
    the filtered records and of the daily statistics, which are those of the
    collection without it, exception or not; a user whose timestamp is
    missing or empty is not left out of the monthly growth: it is counted in
    the month of the clock. *)
Theorem unparseable_timestamps parse now days l1 img l2 u us1 us2 ks1 ks2 :
  newDateOfString parse (createdAt img) = None ->
  user_createdAt u = None \/ user_createdAt u = Some ""%string ->
  0 <= year (civilOfDay (Day now)) <= 9999 ->
  userMonths parse now us1 = Ok ks1 ->
  userMonths parse now us2 = Ok ks2 ->
  filteredImages parse now days (l1 ++ img :: l2) = filteredImages parse now days (l1 ++ l2)
  /\ bucketByDay parse now days (l1 ++ img :: l2) = bucketByDay parse now days (l1 ++ l2)
  /\ userMonth parse now u = Ok (monthKey (civilOfDay (Day now)))
  /\ exists o o',
       monthlyUsers parse now (us1 ++ us2) = Ok o
       /\ monthlyUsers parse now (us1 ++ u :: us2) = Ok o'
       /\ forall k, countOf o' k
                    = countOf o k
                      + (if String.eqb k (monthKey (civilOfDay (Day now))) then 1 else 0).
Proof.
  intros Himg Hu Hy H1 H2.
  assert (Hm : userMonth parse now u = Ok (monthKey (civilOfDay (Day now)))).
  { apply userMonth_dated. exists now. repeat split; try tauto.
    now apply userDate_missing. }
  split; [now apply filteredImages_drop|].
  split; [unfold bucketByDay; now rewrite filteredImages_drop|].
  split; [exact Hm|].
  set (m := monthKey (civilOfDay (Day now))) in *.
  exists (fold_left bump (ks1 ++ ks2) JsObject.empty),
         (fold_left bump (ks1 ++ m :: ks2) JsObject.empty).
  split; [|split].
  - apply monthlyUsersFrom_keys. now apply userMonths_app.
  - apply monthlyUsersFrom_keys. apply userMonths_app; [exact H1|].
    cbn [userMonths]. rewrite Hm, H2. reflexivity.
  - intros k. rewrite !countOf_fold_bump, !count_occ_app. cbn [count_occ].
    destruct (String.eqb_spec k m) as [->|Hne].
    + destruct (string_dec m m); [lia | congruence].
    + destruct (string_dec m k); [congruence | lia].
Qed.

Lemma unparseable_timestamps_witness :
  filteredImages IsoParse.parse Sample.now 3 (Sample.images ++ Sample.garbled :: [])
  = filteredImages IsoParse.parse Sample.now 3 (Sample.images ++ [])
  /\ bucketByDay IsoParse.parse Sample.now 3 (Sample.images ++ Sample.garbled :: [])
     = bucketByDay IsoParse.parse Sample.now 3 (Sample.images ++ [])
  /\ userMonth IsoParse.parse Sample.now Sample.blankUser
     = Ok (monthKey (civilOfDay (Day Sample.now)))
  /\ exists o o',
       monthlyUsers IsoParse.parse Sample.now (Sample.users ++ []) = Ok o
       /\ monthlyUsers IsoParse.parse Sample.now (Sample.users ++ Sample.blankUser :: []) = Ok o'
       /\ forall k, countOf o' k
                    = countOf o k
                      + (if String.eqb k (monthKey (civilOfDay (Day Sample.now))) then 1 else 0).
Proof.
  apply (unparseable_timestamps IsoParse.parse Sample.now 3 Sample.images Sample.garbled []
           Sample.blankUser Sample.users [] ["2024-01"; "2024-03"; "2024-01"]%string []).
  - vm_compute. reflexivity.
  - right. reflexivity.
  - vm_compute. split; discriminate.
  - vm_compute. reflexivity.
  - reflexivity.
Defined.

(** C2 as stated fails on the monthly growth: the empty text is no date, yet
    the user that carries it is counted, in January 2024, the month of the
    clock. *)
Lemma growthEntries_counts_blank_user :
  user_createdAt Sample.blankUser = Some ""%string
  /\ newDateOfString IsoParse.parse "" = None
  /\ growthEntries IsoParse.parse Sample.now 6 Sample.users
     = Ok [("2024-01", 2); ("2024-03", 1)]%string
  /\ growthEntries IsoParse.parse Sample.now 6 (Sample.users ++ [Sample.blankUser])
     = Ok [("2024-01", 3); ("2024-03", 1)]%string.
Proof. repeat split; vm_compute; reflexivity. Qed.

(** A timestamp that is a text but no date makes [toISOString] throw, and
    the whole of [loadAnalytics] with it. *)
Lemma growthEntries_throws_on_garbled_user :
  newDateOfString IsoParse.parse "not a date" = None
  /\ growthEntries IsoParse.parse Sample.now 6 (Sample.users ++ [Sample.garbledUser])
     = Throw (RangeError "Invalid time value")
  /\ loadAnalytics IsoParse.parse Sample.utcLabel Sample.now "7d"
       (Sample.users ++ [Sample.garbledUser]) Sample.images
     = Throw (RangeError "Invalid time value").
Proof. repeat split; vm_compute; reflexivity. Qed.

Example loadAnalytics_sample :
  loadAnalytics IsoParse.parse Sample.utcLabel Sample.now "7d" Sample.users Sample.images
  = Ok (mkData 3 3
          [ mkDayStat "2023-12-28" 0 0; mkDayStat "2023-12-29" 0 0;
            mkDayStat "2023-12-30" 0 0; mkDayStat "2023-12-31" 0 0;
            mkDayStat "2024-01-01" 1 2; mkDayStat "2024-01-02" 0 0;
            mkDayStat "2024-01-03" 1 1 ]
          [ mkPromptCount "a cat" 2; mkPromptCount "a dog" 1 ]
          [ mkMonthUsers "Jan 2024" 2; mkMonthUsers "Mar 2024" 1 ]).
Proof. vm_compute. reflexivity. Qed.

End UnparseableFacts.

(** ** The cards of the analytics page *)

Section CardFacts.
Import Analytics.

(** C9.  With no daily statistic the quotient is 0/0, NaN, which
    [Math.round] keeps and [|| 0] turns into 0; and on every sequence the
    card shows an integer, never NaN or an infinity. *)
Theorem avgPerDay_empty_is_zero :
  JsNum.round (JsNum.div 0 (Z.of_nat (List.length (@nil DayStat)))) = JsNum.NaN
  /\ avgPerDay [] = JsNum.ofZ 0
  /\ forall stats, exists k, avgPerDay stats = JsNum.ofZ k.
Proof.
  split; [reflexivity|]. split; [reflexivity|].
  intros stats. unfold avgPerDay. destruct stats as [|stat stats].
  - now exists 0.
  - set (total := fold_left (fun sum stat => sum + images stat) (stat :: stats) 0).
    set (n := Z.of_nat (List.length (stat :: stats))).
    assert (Hn : 0 < n) by (unfold n; cbn [List.length]; lia).
    unfold JsNum.div.
    destruct (Z.eqb_spec n 0) as [E|_]; [lia|].
    destruct (Z.ltb_spec 0 n) as [_|L]; [|lia].
    cbn [JsNum.round JsNum.orElse].
    destruct (Qeq_bool (inject_Z (Qfloor ((total # Z.to_pos n) + (1 # 2)))) 0).
    + now exists 0.
    + now eexists.
Qed.

Example avgPerDay_sample : avgPerDay Sample.stats = JsNum.ofZ 1.
Proof. reflexivity. Qed.

Lemma userZeros_ok stats :
  Forall (fun stat => 0 <= users stat < 4294967296) stats ->
  userZeros stats = Ok (flat_map (fun stat => repeat 0 (Z.to_nat (users stat))) stats).
Proof.
  induction 1 as [|stat stats Hs _ IH]; cbn [userZeros flat_map]; [reflexivity|].
  unfold JsArray.filled.
  destruct (Z.leb_spec 0 (users stat)); [|lia].
  destruct (Z.ltb_spec (users stat) 4294967296); [|lia].
  cbn [andb bind]. now rewrite IH.
Qed.

Lemma nodup_zeros (l : list Z) :
  Forall (fun z => z = 0) l ->
  nodup Z.eq_dec l = match l with [] => [] | _ :: _ => [0] end.
Proof.
  induction 1 as [|x l Hx Hl IH]; [reflexivity|]. subst x. cbn [nodup].
  destruct l as [|y l].
  - reflexivity.
  - inversion Hl; subst. destruct (in_dec Z.eq_dec 0 (0 :: l)) as [_|Hn].
    + exact IH.
    + exfalso. apply Hn. now left.
Qed.

Lemma zeros_all stats :
  Forall (fun z => z = 0) (flat_map (fun stat => repeat 0 (Z.to_nat (users stat))) stats).
Proof.
  apply Forall_forall. intros z Hz. apply in_flat_map in Hz as (stat & _ & Hz).
  now apply repeat_spec in Hz.
Qed.

Lemma zeros_empty stats :
  Forall (fun stat => 0 <= users stat) stats ->
  flat_map (fun stat => repeat 0 (Z.to_nat (users stat))) stats = []
  <-> existsb (fun stat => 0 <? users stat) stats = false.
Proof.
  induction 1 as [|stat stats Hs _ IH]; cbn [flat_map existsb]; [tauto|].
  destruct (Z.ltb_spec 0 (users stat)) as [L|L]; cbn [orb].
  - split; [|discriminate]. intros E. apply app_eq_nil in E as [E _].
    destruct (Z.to_nat (users stat)) eqn:En; [lia | discriminate].
  - replace (users stat) with 0 by lia. cbn [Z.to_nat repeat app]. exact IH.
Qed.

(** The card is 1 as soon as a bucket has a user, 0 otherwise. *)
Lemma activeUsers_value stats :
  Forall (fun stat => 0 <= users stat < 4294967296) stats ->
  activeUsers stats = Ok (if existsb (fun stat => 0 <? users stat) stats then 1 else 0).
Proof.
  intros H. unfold activeUsers. rewrite userZeros_ok by exact H. cbn [bind].
  f_equal. unfold setSize. rewrite nodup_zeros by apply zeros_all.
  assert (Hnn : Forall (fun stat => 0 <= users stat) stats).
  { eapply Forall_impl; [|exact H]. cbn. intros. lia. }
  pose proof (zeros_empty stats Hnn) as Hz.
  destruct (flat_map (fun stat => repeat 0 (Z.to_nat (users stat))) stats) as [|z zs].
  - now rewrite (proj1 Hz eq_refl).
  - destruct (existsb (fun stat => 0 <? users stat) stats); [reflexivity|].
    destruct Hz as [_ Hz]. discriminate (Hz eq_refl).
Qed.

Lemma setSize_range {X : Type} (dec : forall x y : X, {x = y} + {x <> y}) (l : list X) :
  0 <= setSize dec l <= Z.of_nat (List.length l).
Proof.
  unfold setSize. split; [lia|]. apply inj_le.
  apply NoDup_incl_length; [apply NoDup_nodup|].
  intros x Hx. now apply nodup_In in Hx.
Qed.

Lemma setSize_pos {X : Type} (dec : forall x y : X, {x = y} + {x <> y}) (l : list X) :
  0 < setSize dec l <-> l <> [].
Proof.
  unfold setSize. destruct l as [|x l].
  - cbn. split; [lia | congruence].
  - split; [discriminate|]. intros _.
    assert (Hin : In x (nodup dec (x :: l))) by (apply nodup_In; now left).
    destruct (nodup dec (x :: l)); [destruct Hin | cbn [List.length]; lia].
Qed.

Lemma dailyStatsLoop_entries now filtered n stats :
  dailyStatsLoop now filtered n = Ok stats ->
  Forall (fun stat => stat = dayStat filtered (date stat)) stats.
Proof.
  revert stats. induction n as [|i IH]; intros stats H; cbn [dailyStatsLoop] in H.
  - injection H as <-. constructor.
  - destruct (dateStrAt now (Z.of_nat i)) as [d|e]; cbn [bind] in H; [|discriminate].
    destruct (dailyStatsLoop now filtered i) as [rest|e]; cbn [bind] in H; [|discriminate].
    injection H as <-. constructor; [reflexivity | now apply IH].
Qed.

Lemma dayStat_users_range filtered d :
  0 <= users (dayStat filtered d) <= Z.of_nat (List.length filtered).
Proof.
  cbn [dayStat users]. pose proof (setSize_range string_dec (map userId (dayImages filtered d))) as H.
  rewrite length_map in H. split; [lia|].
  etransitivity; [apply H|]. apply inj_le. unfold dayImages. apply filter_length_le.
Qed.

Lemma bucketed_empty stats filtered :
  Forall (fun stat => stat = dayStat filtered (date stat)) stats ->
  bucketed stats filtered = [] <-> existsb (fun stat => 0 <? users stat) stats = false.
Proof.
  intros Hs. unfold bucketed. split.
  - intros E. apply not_true_iff_false. intros Hex.
    apply existsb_exists in Hex as (stat & Hin & Hpos).
    rewrite Forall_forall in Hs. rewrite (Hs stat Hin) in Hpos.
    apply Z.ltb_lt in Hpos. cbn [dayStat users] in Hpos.
    apply setSize_pos in Hpos.
    destruct (dayImages filtered (date stat)) as [|img imgs] eqn:Ed; [now apply Hpos|].
    assert (Himg : In img (dayImages filtered (date stat))) by (rewrite Ed; now left).
    apply filter_In in Himg as [Hf Hst].
    assert (Hb : In img (filter (fun img => existsb (fun s => Str.startsWith (createdAt img) (date s)) stats) filtered)).
    { apply filter_In. split; [exact Hf|]. apply existsb_exists. now exists stat. }
    rewrite E in Hb. destruct Hb.
  - intros Hex.
    destruct (filter _ filtered) as [|img imgs] eqn:Ef; [reflexivity|]. exfalso.
    assert (Himg : In img (img :: imgs)) by now left.
    rewrite <- Ef in Himg. apply filter_In in Himg as [Hf Hst].
    apply existsb_exists in Hst as (stat & Hin & Hst).
    apply not_true_iff_false in Hex. apply Hex.
    apply existsb_exists. exists stat. split; [exact Hin|].
    rewrite Forall_forall in Hs. rewrite (Hs stat Hin).
    apply Z.ltb_lt. cbn [dayStat users]. apply setSize_pos.
    intros En. apply map_eq_nil in En.
    assert (Hd : In img (dayImages filtered (date stat))) by (apply filter_In; now split).
    rewrite En in Hd. destruct Hd.
Qed.

(** C7, as amended.  On the daily statistics of a collection (an array, of
    fewer than 2^32 records) the card shows 1 when a bucket has a user and 0
    otherwise; it is never greater than 1; and it is the number of distinct
    users of the bucketed records only when that number is at most 1, being
    the smaller of 1 and that number. *)
Theorem activeUsers_at_most_one parse now days imgs stats :
  Z.of_nat (List.length imgs) < 4294967296 ->
  bucketByDay parse now days imgs = Ok stats ->
  activeUsers stats = Ok (if existsb (fun stat => 0 <? users stat) stats then 1 else 0)
  /\ (forall n, activeUsers stats = Ok n -> n <= 1)
  /\ activeUsers stats
     = Ok (Z.min 1 (distinctUsers stats (filteredImages parse now days imgs)))
  /\ (forall n, activeUsers stats = Ok n ->
       (n = distinctUsers stats (filteredImages parse now days imgs)
        <-> distinctUsers stats (filteredImages parse now days imgs) <= 1)).
Proof.
  intros Hlen Hb. unfold bucketByDay in Hb.
  set (filtered := filteredImages parse now days imgs) in *.
  pose proof (dailyStatsLoop_entries _ _ _ _ Hb) as Hs.
  assert (Hr : Forall (fun stat => 0 <= users stat < 4294967296) stats).
  { apply Forall_forall. intros stat Hin. rewrite Forall_forall in Hs.
    rewrite (Hs stat Hin). pose proof (dayStat_users_range filtered (date stat)) as H.
    assert (Z.of_nat (List.length filtered) <= Z.of_nat (List.length imgs)).
    { apply inj_le. unfold filtered, filteredImages. apply filter_length_le. }
    lia. }
  pose proof (activeUsers_value stats Hr) as Hv.
  assert (Hmin : (if existsb (fun stat => 0 <? users stat) stats then 1 else 0)
                 = Z.min 1 (distinctUsers stats filtered)).
  { pose proof (bucketed_empty stats filtered Hs) as He.
    unfold distinctUsers.
    pose proof (setSize_pos string_dec (map userId (bucketed stats filtered))) as Hp.
    pose proof (setSize_range string_dec (map userId (bucketed stats filtered))) as Hrg.
    destruct (existsb (fun stat => 0 <? users stat) stats).
    - assert (bucketed stats filtered <> []).
      { intros E. destruct He as [He _]. discriminate (He E). }
      assert (map userId (bucketed stats filtered) <> []).
      { intros E. apply map_eq_nil in E. contradiction. }
      apply Hp in H0. lia.
    - destruct He as [_ He]. rewrite (He eq_refl). reflexivity. }
  split; [exact Hv|]. split; [|split].
  - intros n Hn. rewrite Hv in Hn. injection Hn as <-.
    destruct (existsb _ stats); lia.
  - now rewrite Hv, Hmin.
  - intros n Hn. rewrite Hv, Hmin in Hn. injection Hn as <-.
    pose proof (setSize_range string_dec (map userId (bucketed stats filtered))) as Hrg.
    unfold distinctUsers in *. lia.
Qed.

Lemma activeUsers_at_most_one_witness :
  activeUsers Sample.stats
  = Ok (if existsb (fun stat => 0 <? users stat) Sample.stats then 1 else 0)
  /\ (forall n, activeUsers Sample.stats = Ok n -> n <= 1)
  /\ activeUsers Sample.stats
     = Ok (Z.min 1 (distinctUsers Sample.stats
                      (filteredImages IsoParse.parse Sample.now 3 Sample.images)))
  /\ (forall n, activeUsers Sample.stats = Ok n ->
       (n = distinctUsers Sample.stats (filteredImages IsoParse.parse Sample.now 3 Sample.images)
        <-> distinctUsers Sample.stats
              (filteredImages IsoParse.parse Sample.now 3 Sample.images) <= 1)).
Proof.
  apply (activeUsers_at_most_one IsoParse.parse Sample.now 3 Sample.images Sample.stats).
  - cbn. lia.
  - vm_compute. reflexivity.
Defined.

Example activeUsers_sample :
  activeUsers Sample.stats = Ok 1
  /\ distinctUsers Sample.stats (filteredImages IsoParse.parse Sample.now 3 Sample.images) = 2.
Proof. split; vm_compute; reflexivity. Qed.

(** C7 as stated fails on its last part: with the two records of the one
    user "a" the card shows 1, which is the number of distinct users of the
    window; and with no record both are 0. *)
Lemma activeUsers_equals_distinct_users :
  (exists stats,
     bucketByDay IsoParse.parse Sample.now 3 (firstn 2 Sample.images) = Ok stats
     /\ activeUsers stats = Ok 1
     /\ setSize string_dec
          (map userId (filteredImages IsoParse.parse Sample.now 3 (firstn 2 Sample.images))) = 1
     /\ distinctUsers stats
          (filteredImages IsoParse.parse Sample.now 3 (firstn 2 Sample.images)) = 1)
  /\ (exists stats,
        bucketByDay IsoParse.parse Sample.now 3 [] = Ok stats
        /\ activeUsers stats = Ok 0
        /\ setSize string_dec
             (map userId (filteredImages IsoParse.parse Sample.now 3 [])) = 0
        /\ distinctUsers stats (filteredImages IsoParse.parse Sample.now 3 []) = 0).
Proof.
  split; eexists; (split; [vm_compute; reflexivity|]); repeat split; vm_compute; reflexivity.
Qed.

End CardFacts.

(** ** Text search *)

Section SearchFacts.

Lemma includes_empty s : Str.includes s "" = true.
Proof. destruct s; reflexivity. Qed.

(** C8.  With the empty query, and the size and quality filters on "all",
    the gallery keeps every image, and the user list keeps every user, in
    their order. *)
Theorem empty_query_keeps_all (toLowerCase : string -> string)
    (images : list GeneratedImage) (users : list UserManagement.User) :
  toLowerCase ""%string = ""%string ->
  Gallery.filteredImages toLowerCase "" "all" "all" images = images
  /\ UserManagement.filteredUsers toLowerCase "" users = users.
Proof.
  intros H. split.
  - unfold Gallery.filteredImages. apply forallb_filter_id, forallb_forall.
    intros image _. rewrite H, includes_empty. reflexivity.
  - unfold UserManagement.filteredUsers. apply forallb_filter_id, forallb_forall.
    intros user _. rewrite H, includes_empty. reflexivity.
Qed.

Lemma empty_query_keeps_all_witness :
  Gallery.filteredImages asciiLower "" "all" "all" Sample.images = Sample.images
  /\ UserManagement.filteredUsers asciiLower "" Sample.managed = Sample.managed.
Proof.
  apply (empty_query_keeps_all asciiLower Sample.images Sample.managed).
  reflexivity.
Defined.

Example search_sample :
  Gallery.filteredImages asciiLower "CAT" "all" "all" Sample.images = firstn 2 Sample.images
  /\ UserManagement.filteredUsers asciiLower "ada" Sample.managed = firstn 1 Sample.managed.
Proof. split; reflexivity. Qed.

End SearchFacts.

(** ** The store *)

Section HeapFacts.
Import Analytics Heap.

Example loadAnalyticsM_sample :
  let out := loadAnalyticsM IsoParse.parse Sample.utcLabel Sample.now "7d" 1%nat 2%nat Sample.store in
  fst out = Ok (mkRefs 3 3 4%nat 22%nat 26%nat)
  /\ firstn 3 (snd out) = Sample.store
  /\ nth_error (snd out) 22 = Some (Prompts [mkPromptCount "a cat" 2; mkPromptCount "a dog" 1])
  /\ nth_error (snd out) 26 = Some (Months [mkMonthUsers "Jan 2024" 2; mkMonthUsers "Mar 2024" 1]).
Proof. vm_compute. repeat split; reflexivity. Qed.

Lemma nth_error_mid (X : store) c rest : nth_error (X ++ c :: rest) (List.length X) = Some c.
Proof. rewrite nth_error_app2 by lia. now rewrite Nat.sub_diag. Qed.

Lemma nth_error_ext (A B : store) r c :
  nth_error A r = Some c -> nth_error (A ++ B) r = Some c.
Proof.
  intros H. rewrite nth_error_app1; [exact H|].
  apply nth_error_Some. congruence.
Qed.

Lemma update_mid (X : store) c c' rest :
  update (List.length X) c' (X ++ c :: rest) = X ++ c' :: rest.
Proof. induction X as [|x X IH]; cbn; [reflexivity | now rewrite IH]. Qed.

Lemma bindM_ok {A B : Type} (m : M A) (k : A -> M B) s a s' :
  m s = (Ok a, s') -> bindM m k s = k a s'.
Proof. intros H. unfold bindM. now rewrite H. Qed.

Lemma bindM_throw {A B : Type} (m : M A) (k : A -> M B) s e s' :
  m s = (Throw e, s') -> bindM m k s = (Throw e, s').
Proof. intros H. unfold bindM. now rewrite H. Qed.

Lemma read_ok s r c : nth_error s r = Some c -> read r s = (Ok c, s).
Proof. intros H. unfold read. now rewrite H. Qed.

Lemma readUsers_ok s r a : nth_error s r = Some (Users a) -> readUsers r s = (Ok a, s).
Proof. intros H. unfold readUsers. now rewrite (bindM_ok _ _ _ _ _ (read_ok _ _ _ H)). Qed.

Lemma readImages_ok s r a : nth_error s r = Some (Images a) -> readImages r s = (Ok a, s).
Proof. intros H. unfold readImages. now rewrite (bindM_ok _ _ _ _ _ (read_ok _ _ _ H)). Qed.

Lemma readStrings_ok s r a : nth_error s r = Some (Strings a) -> readStrings r s = (Ok a, s).
Proof. intros H. unfold readStrings. now rewrite (bindM_ok _ _ _ _ _ (read_ok _ _ _ H)). Qed.

Lemma readStats_ok s r a : nth_error s r = Some (Stats a) -> readStats r s = (Ok a, s).
Proof. intros H. unfold readStats. now rewrite (bindM_ok _ _ _ _ _ (read_ok _ _ _ H)). Qed.

Lemma readEntries_ok s r a : nth_error s r = Some (Entries a) -> readEntries r s = (Ok a, s).
Proof. intros H. unfold readEntries. now rewrite (bindM_ok _ _ _ _ _ (read_ok _ _ _ H)). Qed.

Lemma readCounts_ok s r o : nth_error s r = Some (Counts o) -> readCounts r s = (Ok o, s).
Proof. intros H. unfold readCounts. now rewrite (bindM_ok _ _ _ _ _ (read_ok _ _ _ H)). Qed.

(** [filter] leaves the array it reads and creates one. *)
Lemma filterImagesM_ok s r a p :
  nth_error s r = Some (Images a) ->
  filterImagesM r p s = (Ok (List.length s), s ++ [Images (filter p a)]).
Proof.
  intros H. unfold filterImagesM. now rewrite (bindM_ok _ _ _ _ _ (readImages_ok _ _ _ H)).
Qed.

Lemma userIdsM_ok s r a :
  nth_error s r = Some (Images a) ->
  userIdsM r s = (Ok (List.length s), s ++ [Strings (map userId a)]).
Proof.
  intros H. unfold userIdsM. now rewrite (bindM_ok _ _ _ _ _ (readImages_ok _ _ _ H)).
Qed.

Lemma entriesM_ok s r o :
  nth_error s r = Some (Counts o) ->
  entriesM r s = (Ok (List.length s), s ++ [Entries (JsObject.entries o)]).
Proof.
  intros H. unfold entriesM. now rewrite (bindM_ok _ _ _ _ _ (readCounts_ok _ _ _ H)).
Qed.

Lemma sliceEntriesM_ok s r a f :
  nth_error s r = Some (Entries a) ->
  sliceEntriesM r f s = (Ok (List.length s), s ++ [Entries (f a)]).
Proof.
  intros H. unfold sliceEntriesM. now rewrite (bindM_ok _ _ _ _ _ (readEntries_ok _ _ _ H)).
Qed.

(** [push], [sort] and the assignment to a key change one cell, theirs. *)
Lemma pushStat_mid X a rest stat :
  pushStat (List.length X) stat (X ++ Stats a :: rest)
  = (Ok tt, X ++ Stats (a ++ [stat]) :: rest).
Proof.
  unfold pushStat.
  rewrite (bindM_ok _ _ _ _ _ (readStats_ok _ _ _ (nth_error_mid X _ rest))).
  unfold write. now rewrite update_mid.
Qed.

Lemma bumpAt_mid X o rest k :
  bumpAt (List.length X) k (X ++ Counts o :: rest)
  = (Ok tt, X ++ Counts (bump o k) :: rest).
Proof.
  unfold bumpAt.
  rewrite (bindM_ok _ _ _ _ _ (readCounts_ok _ _ _ (nth_error_mid X _ rest))).
  unfold write. now rewrite update_mid.
Qed.

Lemma sortEntriesM_mid X a rest cmp :
  sortEntriesM (List.length X) cmp (X ++ Entries a :: rest)
  = (Ok (List.length X), X ++ Entries (JsArray.sort cmp a) :: rest).
Proof.
  unfold sortEntriesM.
  rewrite (bindM_ok _ _ _ _ _ (readEntries_ok _ _ _ (nth_error_mid X _ rest))).
  unfold bindM, write, ret. now rewrite update_mid.
Qed.

Lemma forEach_bump {A : Type} (f : A -> string) X o rest (l : list A) :
  forEach (fun x => bumpAt (List.length X) (f x)) l (X ++ Counts o :: rest)
  = (Ok tt, X ++ Counts (fold_left bump (map f l) o) :: rest).
Proof.
  revert o. induction l as [|x l IH]; intros o; cbn [forEach map fold_left].
  - reflexivity.
  - rewrite (bindM_ok _ _ _ _ _ (bumpAt_mid X o rest (f x))). apply IH.
Qed.

(** The reduction over the users: it changes the counting object only, and
    ends as the reduction of the page does. *)
Lemma forEach_userMonth parse now X o rest us :
  exists o',
    snd (forEach (fun u => m <~ lift (userMonth parse now u) ;; bumpAt (List.length X) m) us
           (X ++ Counts o :: rest))
    = X ++ Counts o' :: rest
    /\ match monthlyUsersFrom parse now o us with
       | Ok o'' =>
           fst (forEach (fun u => m <~ lift (userMonth parse now u) ;; bumpAt (List.length X) m) us
                  (X ++ Counts o :: rest)) = Ok tt
           /\ o' = o''
       | Throw e =>
           fst (forEach (fun u => m <~ lift (userMonth parse now u) ;; bumpAt (List.length X) m) us
                  (X ++ Counts o :: rest)) = Throw e
       end.
Proof.
  revert o. induction us as [|u us IH]; intros o; cbn [forEach monthlyUsersFrom].
  - exists o. cbn. auto.
  - destruct (userMonth parse now u) as [m|e] eqn:Em; cbn [bind].
    + assert (E : (m <~ lift (Ok m) ;; bumpAt (List.length X) m) (X ++ Counts o :: rest)
                  = (Ok tt, X ++ Counts (bump o m) :: rest)).
      { unfold bindM at 1, lift. apply bumpAt_mid. }
      rewrite (bindM_ok _ _ _ _ _ E). apply IH.
    + exists o. unfold bindM, lift. cbn. auto.
Qed.

(** The loop of the daily statistics: it reads the filtered array, creates
    arrays, and changes only the array it pushes to. *)
Lemma dailyLoopM_run now P F n acc temps :
  exists acc' temps',
    snd (dailyLoopM now (List.length P) (List.length (P ++ [Images F])) n
           ((P ++ [Images F]) ++ Stats acc :: temps))
    = (P ++ [Images F]) ++ Stats acc' :: temps'
    /\ match dailyStatsLoop now F n with
       | Ok l =>
           fst (dailyLoopM now (List.length P) (List.length (P ++ [Images F])) n
                  ((P ++ [Images F]) ++ Stats acc :: temps)) = Ok tt
           /\ acc' = acc ++ l
       | Throw e =>
           fst (dailyLoopM now (List.length P) (List.length (P ++ [Images F])) n
                  ((P ++ [Images F]) ++ Stats acc :: temps)) = Throw e
       end.
Proof.
  revert acc temps. induction n as [|i IH]; intros acc temps;
    cbn [dailyLoopM dailyStatsLoop].
  - exists acc, temps. cbn. now rewrite app_nil_r.
  - set (Q := P ++ [Images F]) in *.
    destruct (dateStrAt now (Z.of_nat i)) as [d|e]; cbn [bind].
    2:{ exists acc, temps. unfold bindM, lift. cbn. auto. }
    assert (E0 : lift (Ok d) (Q ++ Stats acc :: temps) = (Ok d, Q ++ Stats acc :: temps))
      by reflexivity.
    rewrite (bindM_ok _ _ _ _ _ E0).
    assert (HF : nth_error (Q ++ Stats acc :: temps) (List.length P) = Some (Images F)).
    { apply nth_error_ext. apply nth_error_mid. }
    rewrite (bindM_ok _ _ _ _ _ (filterImagesM_ok _ _ _ _ HF)).
    set (S1 := Q ++ Stats acc :: temps).
    set (di := filter (fun img => Str.startsWith (createdAt img) d) F).
    rewrite (bindM_ok _ _ _ _ _ (userIdsM_ok _ _ _ (nth_error_mid S1 (Images di) []))).
    rewrite (bindM_ok _ _ _ _ _
               (readStrings_ok _ _ _ (nth_error_mid (S1 ++ [Images di]) (Strings (map userId di)) []))).
    assert (Hdi : nth_error ((S1 ++ [Images di]) ++ [Strings (map userId di)]) (List.length S1)
                  = Some (Images di)).
    { apply nth_error_ext. apply nth_error_mid. }
    rewrite (bindM_ok _ _ _ _ _ (readImages_ok _ _ _ Hdi)).
    assert (Enorm : (S1 ++ [Images di]) ++ [Strings (map userId di)]
                    = Q ++ Stats acc :: (temps ++ [Images di; Strings (map userId di)])).
    { unfold S1. now rewrite <- !app_assoc. }
    rewrite Enorm.
    rewrite (bindM_ok _ _ _ _ _ (pushStat_mid Q acc _ _)).
    destruct (IH (acc ++ [mkDayStat d (setSize string_dec (map userId di)) (Z.of_nat (List.length di))])
                 (temps ++ [Images di; Strings (map userId di)])) as (acc' & temps' & Hs & Ho).
    exists acc', temps'. split; [exact Hs|].
    destruct (dailyStatsLoop now F i) as [l|e]; cbn [bind].
    + destruct Ho as [Ho ->]. split; [exact Ho|]. now rewrite <- app_assoc.
    + exact Ho.
Qed.

Lemma bindM_split {A B : Type} (m : M A) (k : A -> M B) s :
  bindM m k s
  = match fst (m s) with
    | Ok a => k a (snd (m s))
    | Throw e => (Throw e, snd (m s))
    end.
Proof. unfold bindM. destruct (m s) as [[a|e] s']; reflexivity. Qed.

Lemma alloc_eq c s : alloc c s = (Ok (List.length s), s ++ [c]).
Proof. reflexivity. Qed.

Ltac cell_at :=
  repeat first [ apply nth_error_mid | apply nth_error_ext ]; try eassumption.

Ltac step E := rewrite (bindM_ok _ _ _ _ _ E).

(** The whole of [loadAnalytics] on the store: it ends as the page's
    computation does, with the three arrays it hands over, and the store
    it leaves is the one it found followed by what it created. *)
Lemma loadAnalyticsM_run parse label now timeRange s users images us imgs :
  nth_error s users = Some (Users us) ->
  nth_error s images = Some (Images imgs) ->
  exists extra,
    snd (loadAnalyticsM parse label now timeRange users images s) = s ++ extra
    /\ match loadAnalytics parse label now timeRange us imgs with
       | Ok data =>
           exists refs,
             fst (loadAnalyticsM parse label now timeRange users images s) = Ok refs
             /\ r_totalUsers refs = totalUsers data
             /\ r_totalImages refs = totalImages data
             /\ nth_error (s ++ extra) (r_dailyStats refs) = Some (Stats (dailyStats data))
             /\ nth_error (s ++ extra) (r_topPrompts refs) = Some (Prompts (topPrompts data))
             /\ nth_error (s ++ extra) (r_userGrowth refs) = Some (Months (userGrowth data))
       | Throw e => fst (loadAnalyticsM parse label now timeRange users images s) = Throw e
       end.
Proof.
  intros Hu Hi. unfold loadAnalyticsM, loadAnalytics.
  set (days := daysBack timeRange).
  step (filterImagesM_ok s images imgs (inRange parse now days) Hi).
  fold (filteredImages parse now days imgs). set (F := filteredImages parse now days imgs).
  step (alloc_eq (Stats []) (s ++ [Images F])).
  rewrite bindM_split.
  destruct (dailyLoopM_run now s F days [] []) as (acc & temps & Hs & Ho).
  rewrite Hs. destruct (dailyStatsLoop now F days) as [l|e]; cbn [bind].
  2:{ rewrite Ho. exists ([Images F] ++ Stats acc :: temps). split; [|reflexivity].
      now rewrite <- app_assoc. }
  destruct Ho as [Ho ->]. rewrite Ho. cbn [app].
  set (S3 := (s ++ [Images F]) ++ Stats l :: temps).
  step (alloc_eq (Counts JsObject.empty) S3).
  assert (HF : nth_error (S3 ++ [Counts JsObject.empty]) (List.length s) = Some (Images F))
    by (unfold S3; cell_at).
  step (readImages_ok _ _ _ HF).
  step (forEach_bump truncPrompt S3 JsObject.empty [] F).
  rewrite <- promptCounts_fold. set (PC := promptCounts F).
  step (entriesM_ok _ _ _ (nth_error_mid S3 (Counts PC) [])).
  set (S5 := S3 ++ [Counts PC]).
  step (sortEntriesM_mid S5 (JsObject.entries PC) [] byCountDesc).
  set (sorted := JsArray.sort byCountDesc (JsObject.entries PC)).
  step (sliceEntriesM_ok _ _ _ (JsArray.sliceTo 10) (nth_error_mid S5 (Entries sorted) [])).
  set (S6 := S5 ++ [Entries sorted]).
  step (readEntries_ok _ _ _ (nth_error_mid S6 (Entries (JsArray.sliceTo 10 sorted)) [])).
  set (S7 := S6 ++ [Entries (JsArray.sliceTo 10 sorted)]).
  step (alloc_eq (Prompts (map (fun e => mkPromptCount (fst e) (snd e)) (JsArray.sliceTo 10 sorted))) S7).
  fold (topPromptsOf 10 F).
  change (map (fun e => mkPromptCount (fst e) (snd e)) (JsArray.sliceTo 10 sorted))
    with (topPromptsOf 10 F).
  set (S8 := S7 ++ [Prompts (topPromptsOf 10 F)]).
  step (alloc_eq (Counts JsObject.empty) S8).
  assert (HU : nth_error (S8 ++ [Counts JsObject.empty]) users = Some (Users us))
    by (unfold S8, S7, S6, S5, S3; cell_at).
  step (readUsers_ok _ _ _ HU).
  rewrite bindM_split.
  destruct (forEach_userMonth parse now S8 JsObject.empty [] us) as (o' & Hs' & Ho').
  rewrite Hs'. unfold userGrowthOf, growthEntries, monthlyUsers.
  destruct (monthlyUsersFrom parse now JsObject.empty us) as [MU|e]; cbn [bind].
  2:{ rewrite Ho'. eexists. split; [|reflexivity].
      unfold S8, S7, S6, S5, S3. rewrite <- !app_assoc. reflexivity. }
  destruct Ho' as [Ho' ->]. rewrite Ho'.
  step (entriesM_ok _ _ _ (nth_error_mid S8 (Counts MU) [])).
  set (S9 := S8 ++ [Counts MU]).
  step (sortEntriesM_mid S9 (JsObject.entries MU) [] byKey).
  set (sorted' := JsArray.sort byKey (JsObject.entries MU)).
  step (sliceEntriesM_ok _ _ _ (JsArray.sliceLast 6) (nth_error_mid S9 (Entries sorted') [])).
  set (S10 := S9 ++ [Entries sorted']).
  step (readEntries_ok _ _ _ (nth_error_mid S10 (Entries (JsArray.sliceLast 6 sorted')) [])).
  set (S11 := S10 ++ [Entries (JsArray.sliceLast 6 sorted')]).
  set (growth := map (fun e => mkMonthUsers (monthLabel parse label (fst e)) (snd e))
                   (JsArray.sliceLast 6 sorted')).
  step (alloc_eq (Months growth) S11).
  assert (HI : nth_error (S11 ++ [Months growth]) images = Some (Images imgs))
    by (unfold S11, S10, S9, S8, S7, S6, S5, S3; cell_at).
  step (readImages_ok _ _ _ HI).
  unfold ret. cbn [fst snd].
  assert (Efinal : S11 ++ [Months growth]
                   = s ++ ([Images F] ++ Stats l :: temps ++ [Counts PC] ++ [Entries sorted]
                           ++ [Entries (JsArray.sliceTo 10 sorted)] ++ [Prompts (topPromptsOf 10 F)]
                           ++ [Counts MU] ++ [Entries sorted']
                           ++ [Entries (JsArray.sliceLast 6 sorted')] ++ [Months growth])).
  { unfold S11, S10, S9, S8, S7, S6, S5, S3. rewrite <- !app_assoc. reflexivity. }
  eexists. split; [exact Efinal|].
  eexists. split; [reflexivity|]. cbn [r_totalUsers r_totalImages r_dailyStats r_topPrompts
                                        r_userGrowth totalUsers totalImages dailyStats topPrompts
                                        userGrowth].
  rewrite <- Efinal. repeat split.
  - unfold S11, S10, S9, S8, S7, S6, S5, S3. cell_at.
  - unfold S11, S10, S9, S8. cell_at.
  - cell_at.
Qed.

Lemma imageCountsM_run s images imgs :
  nth_error s images = Some (Images imgs) ->
  imageCountsM images s
  = (Ok (List.length s), s ++ [Counts (UserManagement.imageCounts imgs)]).
Proof.
  intros Hi. unfold imageCountsM.
  step (alloc_eq (Counts JsObject.empty) s).
  assert (HI : nth_error (s ++ [Counts JsObject.empty]) images = Some (Images imgs))
    by cell_at.
  step (readImages_ok _ _ _ HI).
  step (forEach_bump userId s JsObject.empty [] imgs).
  unfold ret, UserManagement.imageCounts.
  now rewrite (fold_left_bump_map userId imgs JsObject.empty).
Qed.

(** C10.  [loadAnalytics] (daily statistics, top prompts, monthly growth)
    and the per-user image count leave every array and object that existed
    before the call as it was, the [users] and [images] arrays among them,
    whether the call returns or throws; what they return is what the page
    computes, in arrays and objects of their own. *)
Theorem aggregations_leave_inputs parse label now timeRange s users images us imgs :
  nth_error s users = Some (Users us) ->
  nth_error s images = Some (Images imgs) ->
  (forall r c, nth_error s r = Some c ->
     nth_error (snd (loadAnalyticsM parse label now timeRange users images s)) r = Some c)
  /\ nth_error (snd (loadAnalyticsM parse label now timeRange users images s)) users
     = Some (Users us)
  /\ nth_error (snd (loadAnalyticsM parse label now timeRange users images s)) images
     = Some (Images imgs)
  /\ match loadAnalytics parse label now timeRange us imgs with
     | Ok data =>
         exists refs,
           fst (loadAnalyticsM parse label now timeRange users images s) = Ok refs
           /\ r_totalUsers refs = totalUsers data
           /\ r_totalImages refs = totalImages data
           /\ nth_error (snd (loadAnalyticsM parse label now timeRange users images s))
                (r_dailyStats refs) = Some (Stats (dailyStats data))
           /\ nth_error (snd (loadAnalyticsM parse label now timeRange users images s))
                (r_topPrompts refs) = Some (Prompts (topPrompts data))
           /\ nth_error (snd (loadAnalyticsM parse label now timeRange users images s))
                (r_userGrowth refs) = Some (Months (userGrowth data))
     | Throw e => fst (loadAnalyticsM parse label now timeRange users images s) = Throw e
     end
  /\ (forall r c, nth_error s r = Some c ->
        nth_error (snd (imageCountsM images s)) r = Some c)
  /\ exists acc,
       fst (imageCountsM images s) = Ok acc
       /\ nth_error (snd (imageCountsM images s)) acc
          = Some (Counts (UserManagement.imageCounts imgs)).
Proof.
  intros Hu Hi.
  destruct (loadAnalyticsM_run parse label now timeRange s users images us imgs Hu Hi)
    as (extra & Hs & Ho).
  rewrite Hs, (imageCountsM_run s images imgs Hi). cbn [fst snd].
  split; [intros r c H; now apply nth_error_ext|].
  split; [now apply nth_error_ext|].
  split; [now apply nth_error_ext|].
  split; [exact Ho|].
  split; [intros r c H; now apply nth_error_ext|].
  eexists. split; [reflexivity | apply nth_error_mid].
Qed.

Lemma aggregations_leave_inputs_witness :
  (forall r c, nth_error Sample.store r = Some c ->
     nth_error (snd (loadAnalyticsM IsoParse.parse Sample.utcLabel Sample.now "7d" 1%nat 2%nat
                       Sample.store)) r = Some c)
  /\ nth_error (snd (loadAnalyticsM IsoParse.parse Sample.utcLabel Sample.now "7d" 1%nat 2%nat
                       Sample.store)) 1%nat
     = Some (Users Sample.users)
  /\ nth_error (snd (loadAnalyticsM IsoParse.parse Sample.utcLabel Sample.now "7d" 1%nat 2%nat
                       Sample.store)) 2%nat
     = Some (Images Sample.images)
  /\ match loadAnalytics IsoParse.parse Sample.utcLabel Sample.now "7d" Sample.users Sample.images with
     | Ok data =>
         exists refs,
           fst (loadAnalyticsM IsoParse.parse Sample.utcLabel Sample.now "7d" 1%nat 2%nat
                  Sample.store) = Ok refs
           /\ r_totalUsers refs = totalUsers data
           /\ r_totalImages refs = totalImages data
           /\ nth_error (snd (loadAnalyticsM IsoParse.parse Sample.utcLabel Sample.now "7d" 1%nat
                               2%nat Sample.store))
                (r_dailyStats refs) = Some (Stats (dailyStats data))
           /\ nth_error (snd (loadAnalyticsM IsoParse.parse Sample.utcLabel Sample.now "7d" 1%nat
                               2%nat Sample.store))
                (r_topPrompts refs) = Some (Prompts (topPrompts data))
           /\ nth_error (snd (loadAnalyticsM IsoParse.parse Sample.utcLabel Sample.now "7d" 1%nat
                               2%nat Sample.store))
                (r_userGrowth refs) = Some (Months (userGrowth data))
     | Throw e =>
         fst (loadAnalyticsM IsoParse.parse Sample.utcLabel Sample.now "7d" 1%nat 2%nat
                Sample.store) = Throw e
     end
  /\ (forall r c, nth_error Sample.store r = Some c ->
        nth_error (snd (imageCountsM 2%nat Sample.store)) r = Some c)
  /\ exists acc,
       fst (imageCountsM 2%nat Sample.store) = Ok acc
       /\ nth_error (snd (imageCountsM 2%nat Sample.store)) acc
          = Some (Counts (UserManagement.imageCounts Sample.images)).
Proof.
  apply (aggregations_leave_inputs IsoParse.parse Sample.utcLabel Sample.now "7d"
           Sample.store 1%nat 2%nat Sample.users Sample.images); reflexivity.
Defined.

End HeapFacts.

(** * Further properties *)

(** ** The daily statistics count each record once *)

Section DailyCountFacts.
Import JsDate Analytics.

Lemma startsWith_app s p : Str.startsWith (p ++ s) p = true.
Proof. induction p as [|a p IH]; cbn; [now destruct s|]. now rewrite Ascii.eqb_refl. Qed.

Lemma startsWith_split s p : Str.startsWith s p = true -> exists r, s = (p ++ r)%string.
Proof.
  revert s. induction p as [|b p IH]; intros s H.
  - now exists s.
  - destruct s as [|a s]; [discriminate|]. cbn in H.
    apply andb_prop in H as [Hab Hs]. apply Ascii.eqb_eq in Hab as ->.
    destruct (IH s Hs) as (r & ->). now exists r.
Qed.

(** Two prefixes of one text that have the same length are the same. *)
Lemma prefix_same_length s p q :
  Str.startsWith s p = true -> Str.startsWith s q = true ->
  String.length p = String.length q -> p = q.
Proof.
  intros Hp Hq Hl. apply startsWith_split in Hp as (r1 & ->).
  apply startsWith_split in Hq as (r2 & E).
  symmetry in E. now apply append_inj_length in E as [E _].
Qed.

Lemma fmtDate_length c :
  String.length (fmtDate c)
  = if (0 <=? year c) && (year c <=? 9999) then 10%nat else 13%nat.
Proof.
  unfold fmtDate. rewrite !string_length_app, fmtYear_length, !padDigits_length.
  destruct ((0 <=? year c) && (year c <=? 9999)); reflexivity.
Qed.

Lemma first_char_code s p a r :
  Str.startsWith s p = true -> p = String a r -> exists s', s = String a s'.
Proof.
  intros H ->. destruct s as [|b s]; [discriminate|]. cbn in H.
  apply andb_prop in H as [Hab _]. apply Ascii.eqb_eq in Hab as ->. now exists s.
Qed.

(** A text begins with at most one date. *)
Lemma date_prefix_unique s c1 c2 :
  Str.startsWith s (fmtDate c1) = true -> Str.startsWith s (fmtDate c2) = true ->
  fmtDate c1 = fmtDate c2.
Proof.
  intros H1 H2.
  destruct (Nat.eq_dec (String.length (fmtDate c1)) (String.length (fmtDate c2))) as [E|E].
  - now apply (prefix_same_length s).
  - exfalso. rewrite !fmtDate_length in E.
    assert (Hfirst : forall c, exists a r, fmtDate c = String a r
              /\ ((0 <=? year c) && (year c <=? 9999) = true ->
                  48 <= Z.of_nat (nat_of_ascii a) <= 57)
              /\ ((0 <=? year c) && (year c <=? 9999) = false ->
                  Z.of_nat (nat_of_ascii a) < 48)).
    { intros c. unfold fmtDate, fmtYear.
      destruct ((0 <=? year c) && (year c <=? 9999)).
      - cbn [Str.padDigits append]. eexists. eexists. split; [reflexivity|].
        split; [intros _; apply digitChar_code | discriminate].
      - cbn [append]. eexists. eexists. split; [reflexivity|].
        split; [discriminate|]. intros _. destruct (0 <=? year c); cbn; lia. }
    destruct (Hfirst c1) as (a1 & r1 & E1 & Hd1 & Hs1).
    destruct (Hfirst c2) as (a2 & r2 & E2 & Hd2 & Hs2).
    destruct (first_char_code _ _ _ _ H1 E1) as (s1 & Es1).
    destruct (first_char_code _ _ _ _ H2 E2) as (s2 & Es2).
    rewrite Es1 in Es2. injection Es2 as <- _.
    destruct ((0 <=? year c1) && (year c1 <=? 9999)),
             ((0 <=? year c2) && (year c2 <=? 9999));
      try (now apply E);
      [ specialize (Hd1 eq_refl); specialize (Hs2 eq_refl)
      | specialize (Hs1 eq_refl); specialize (Hd2 eq_refl) ]; lia.
Qed.

Lemma filter_length_split {X : Type} (p : X -> bool) (l : list X) :
  (List.length (filter p l) + List.length (filter (fun x => negb (p x)) l)
   = List.length l)%nat.
Proof.
  induction l as [|x l IH]; cbn; [reflexivity|].
  destruct (p x); cbn; lia.
Qed.

(** Over distinct dates, the buckets share no record. *)
Lemma bucket_sizes_bound (cs : list civil) (F : list GeneratedImage) :
  NoDup (map fmtDate cs) ->
  sumZ (map (fun c => Z.of_nat (List.length (dayImages F (fmtDate c)))) cs)
  <= Z.of_nat (List.length F).
Proof.
  unfold sumZ. revert F. induction cs as [|c cs IH]; intros F Hnd; cbn [map fold_right].
  - lia.
  - inversion Hnd as [|? ? Hc Hnd']; subst.
    set (rest := filter (fun img => negb (Str.startsWith (createdAt img) (fmtDate c))) F).
    assert (Hrest : map (fun c' => Z.of_nat (List.length (dayImages F (fmtDate c')))) cs
                    = map (fun c' => Z.of_nat (List.length (dayImages rest (fmtDate c')))) cs).
    { apply map_ext_in. intros c' Hc'. do 2 f_equal. unfold dayImages, rest.
      rewrite filter_filter. apply filter_ext_in_bool. intros img _.
      destruct (Str.startsWith (createdAt img) (fmtDate c)) eqn:E1; cbn [negb andb];
        [|reflexivity].
      destruct (Str.startsWith (createdAt img) (fmtDate c')) eqn:E2; [|reflexivity].
      exfalso. apply Hc. rewrite (date_prefix_unique _ _ _ E1 E2). now apply in_map. }
    rewrite Hrest. specialize (IH rest Hnd').
    pose proof (filter_length_split (fun img => Str.startsWith (createdAt img) (fmtDate c)) F) as Hs.
    cbn beta in Hs. fold rest in Hs.
    change (dayImages F (fmtDate c))
      with (filter (fun img => Str.startsWith (createdAt img) (fmtDate c)) F).
    lia.
Qed.

Lemma dayStat_counts F d :
  0 <= users (dayStat F d) <= images (dayStat F d)
  /\ (users (dayStat F d) = 0 <-> images (dayStat F d) = 0)
  /\ images (dayStat F d) = Z.of_nat (List.length (dayImages F d)).
Proof.
  cbn [dayStat users images].
  pose proof (setSize_range string_dec (map userId (dayImages F d))) as Hr.
  pose proof (setSize_pos string_dec (map userId (dayImages F d))) as Hp.
  rewrite length_map in Hr. split; [lia|]. split; [|reflexivity].
  destruct (dayImages F d) as [|img l].
  - cbn. tauto.
  - cbn [List.length] in *. split; [|lia].
    intros E. exfalso. assert (H : 0 < setSize string_dec (map userId (img :: l))).
    { apply Hp. discriminate. }
    lia.
Qed.

(** X1.  In the daily statistics of a window whose days are representable,
    every bucket has at most as many users as images and has no user exactly
    when it has no image, and the image counts of all buckets together are
    at most the number of the time-filtered records: no record is counted in
    two buckets. *)
Theorem dailyStats_count_once parse now days imgs :
  Z.abs now <= maxTime ->
  - maxTime <= now - (Z.of_nat days - 1) * msPerDay ->
  exists stats,
    bucketByDay parse now days imgs = Ok stats
    /\ Forall (fun stat => 0 <= users stat <= images stat
                          /\ (users stat = 0 <-> images stat = 0)) stats
    /\ sumZ (map images stats)
       <= Z.of_nat (List.length (filteredImages parse now days imgs))
       <= Z.of_nat (List.length imgs).
Proof.
  intros Hnow Hlow. unfold bucketByDay. rewrite dailyStatsLoop_ok by assumption.
  set (F := filteredImages parse now days imgs).
  eexists. split; [reflexivity|]. split; [|split].
  - apply Forall_forall. intros stat Hin. apply in_map_iff in Hin as (d & <- & _).
    pose proof (dayStat_counts F (dateOfDay d)). tauto.
  - rewrite map_map.
    assert (E : map (fun d => images (dayStat F (dateOfDay d))) (coveredDays now days)
                = map (fun c => Z.of_nat (List.length (dayImages F (fmtDate c))))
                    (map civilOfDay (coveredDays now days))).
    { rewrite map_map. reflexivity. }
    rewrite E. apply bucket_sizes_bound. rewrite map_map.
    apply NoDup_map_NoDup_ForallPairs; [|apply coveredDays_NoDup].
    intros d1 d2 H1 H2. apply coveredDays_range in H1, H2.
    pose proof (Day_bounds now Hnow) as Hd.
    assert (Hold : -100000000 <= Day now - Z.of_nat days + 1).
    { revert Hlow. unfold Day, maxTime, msPerDay. intros.
      Z.to_euclidean_division_equations. lia. }
    apply dateOfDay_inj; lia.
  - apply inj_le. unfold F, filteredImages. apply filter_length_le.
Qed.

Lemma dailyStats_count_once_witness :
  exists stats,
    bucketByDay IsoParse.parse Sample.now 3 Sample.images = Ok stats
    /\ Forall (fun stat => 0 <= users stat <= images stat
                          /\ (users stat = 0 <-> images stat = 0)) stats
    /\ sumZ (map images stats)
       <= Z.of_nat (List.length (filteredImages IsoParse.parse Sample.now 3 Sample.images))
       <= Z.of_nat (List.length Sample.images).
Proof.
  apply (dailyStats_count_once IsoParse.parse Sample.now 3 Sample.images);
    unfold maxTime, msPerDay, Sample.now; lia.
Defined.

(** ** Windows nest *)

Lemma inRange_mono parse now d1 d2 img :
  (d1 <= d2)%nat -> Z.abs now <= maxTime ->
  Z.abs (now - Z.of_nat d2 * msPerDay) <= maxTime ->
  inRange parse now d1 img = true -> inRange parse now d2 img = true.
Proof.
  intros Hd Hnow H2 H.
  assert (H1 : Z.abs (now - Z.of_nat d1 * msPerDay) <= maxTime).
  { unfold msPerDay, maxTime in *. lia. }
  apply (inRange_iff parse now d1 img H1) in H as (t & Ht & Hle).
  apply (inRange_iff parse now d2 img H2). exists t. split; [exact Ht|].
  unfold msPerDay in *. nia.
Qed.

(** X2.  A shorter window selects from a longer one: filtering the records
    of the last [d2] days for the last [d1] days, [d1 <= d2], gives the
    records of the last [d1] days, which are therefore among those of the
    last [d2] days, in the same order. *)
Theorem filteredImages_nest parse now d1 d2 imgs :
  (d1 <= d2)%nat -> Z.abs now <= maxTime ->
  Z.abs (now - Z.of_nat d2 * msPerDay) <= maxTime ->
  filteredImages parse now d1 (filteredImages parse now d2 imgs)
  = filteredImages parse now d1 imgs
  /\ Subseq (filteredImages parse now d1 imgs) (filteredImages parse now d2 imgs).
Proof.
  intros Hd Hnow H2.
  assert (E : filteredImages parse now d1 (filteredImages parse now d2 imgs)
              = filteredImages parse now d1 imgs).
  { unfold filteredImages. rewrite filter_filter. apply filter_ext_in_bool.
    intros img _. destruct (inRange parse now d1 img) eqn:E1.
    - now rewrite (inRange_mono parse now d1 d2 img Hd Hnow H2 E1).
    - apply andb_false_r. }
  split; [exact E|]. rewrite <- E. apply filter_Subseq.
Qed.

Lemma filteredImages_nest_witness :
  filteredImages IsoParse.parse Sample.now 7 (filteredImages IsoParse.parse Sample.now 30 Sample.images)
  = filteredImages IsoParse.parse Sample.now 7 Sample.images
  /\ Subseq (filteredImages IsoParse.parse Sample.now 7 Sample.images)
            (filteredImages IsoParse.parse Sample.now 30 Sample.images).
Proof.
  apply (filteredImages_nest IsoParse.parse Sample.now 7 30 Sample.images);
    unfold maxTime, msPerDay, Sample.now; lia.
Defined.

End DailyCountFacts.

(** ** Grouping of prompts *)

Section PromptFacts.
Import Analytics.

Lemma take_length n s : String.length (Str.take n s) = Nat.min n (String.length s).
Proof.
  revert s. induction n as [|n IH]; intros [|a s]; cbn; try reflexivity.
  now rewrite IH.
Qed.

Lemma take_all n s : (String.length s <= n)%nat -> Str.take n s = s.
Proof.
  revert s. induction n as [|n IH]; intros [|a s] H; cbn in *; try reflexivity; try lia.
  f_equal. apply IH. lia.
Qed.

Lemma truncPrompt_short img :
  (String.length (prompt img) <= 50)%nat -> truncPrompt img = prompt img.
Proof.
  intros H. unfold truncPrompt. rewrite take_all by exact H.
  destruct (Nat.ltb_spec 50 (String.length (prompt img))); [lia|].
  apply append_empty_r.
Qed.

Lemma truncPrompt_long img :
  (50 < String.length (prompt img))%nat ->
  truncPrompt img = (Str.take 50 (prompt img) ++ "...")%string.
Proof.
  intros H. unfold truncPrompt.
  destruct (Nat.ltb_spec 50 (String.length (prompt img))); [reflexivity | lia].
Qed.

Lemma truncPrompt_length img :
  String.length (truncPrompt img)
  = if (50 <? String.length (prompt img))%nat then 53%nat
    else String.length (prompt img).
Proof.
  destruct (Nat.ltb_spec 50 (String.length (prompt img))) as [H|H].
  - rewrite truncPrompt_long by exact H. rewrite string_length_app, take_length.
    change (String.length "...") with 3%nat. lia.
  - now rewrite truncPrompt_short.
Qed.

(** X3.  The key under which a prompt is counted is the prompt itself when
    it has at most 50 characters, and otherwise its first 50 characters
    followed by three dots, 53 characters in all.  Hence two records are
    counted together exactly when their prompts are equal and at most 50
    long, or are both longer than 50 and agree on their first 50
    characters. *)
Theorem truncPrompt_groups a b :
  (String.length (truncPrompt a) <= 53)%nat
  /\ (truncPrompt a = truncPrompt b
      <-> ((String.length (prompt a) <= 50)%nat /\ prompt a = prompt b)
          \/ ((50 < String.length (prompt a))%nat /\ (50 < String.length (prompt b))%nat
              /\ Str.take 50 (prompt a) = Str.take 50 (prompt b))).
Proof.
  split.
  { rewrite truncPrompt_length. destruct (Nat.ltb_spec 50 (String.length (prompt a))); lia. }
  pose proof (truncPrompt_length a) as La. pose proof (truncPrompt_length b) as Lb.
  destruct (Nat.ltb_spec 50 (String.length (prompt a))) as [Ha|Ha],
           (Nat.ltb_spec 50 (String.length (prompt b))) as [Hb|Hb].
  - rewrite (truncPrompt_long a Ha), (truncPrompt_long b Hb). split.
    + intros E. right. repeat split; try assumption.
      apply append_inj_length in E as [E _]; [exact E|].
      rewrite !take_length. lia.
    + intros [[H _]|(_ & _ & E)]; [lia | now rewrite E].
  - split.
    + intros E. rewrite E in La. lia.
    + intros [[H _]|(_ & H & _)]; lia.
  - split.
    + intros E. rewrite E in La. lia.
    + intros [[_ E]|(H & _)]; [|lia]. rewrite E in Ha. lia.
  - rewrite (truncPrompt_short a Ha), (truncPrompt_short b Hb). split.
    + intros E. left. now split.
    + intros [[_ E]|(H & _)]; [exact E | lia].
Qed.

Lemma bump_values_sum o k : sumZ (map snd (bump o k)) = sumZ (map snd o) + 1.
Proof.
  unfold bump. induction o as [|[k' v'] o IH]; cbn [JsObject.get JsObject.set].
  - reflexivity.
  - destruct (String.eqb k' k).
    + cbn [map snd sumZ fold_right orZero]. destruct (v' =? 0) eqn:E.
      * apply Z.eqb_eq in E. subst. lia.
      * lia.
    + cbn [map snd sumZ fold_right] in *. fold (sumZ (map snd o)).
      unfold sumZ in IH. rewrite IH. unfold sumZ. lia.
Qed.

(** A counting object holds as many counts as it was given keys. *)
Lemma counting_total keys o :
  sumZ (map snd (fold_left bump keys o)) = sumZ (map snd o) + Z.of_nat (List.length keys).
Proof.
  revert o. induction keys as [|k keys IH]; intros o; cbn [fold_left List.length].
  - lia.
  - rewrite IH, bump_values_sum. lia.
Qed.

Lemma sumZ_app l1 l2 : sumZ (l1 ++ l2) = sumZ l1 + sumZ l2.
Proof. unfold sumZ. induction l1 as [|x l1 IH]; cbn; lia. Qed.

Lemma sumZ_perm l1 l2 : Permutation l1 l2 -> sumZ l1 = sumZ l2.
Proof. unfold sumZ. induction 1; cbn; lia. Qed.

Lemma sumZ_nonneg l : Forall (fun x => 0 <= x) l -> 0 <= sumZ l.
Proof. unfold sumZ. induction 1; cbn; lia. Qed.

Lemma counting_values_pos keys :
  Forall (fun x => 0 <= x) (map snd (fold_left bump keys JsObject.empty)).
Proof.
  apply Forall_forall. intros v Hv. apply in_map_iff in Hv as ([k v'] & <- & Hin).
  apply counting_entry in Hin. cbn. lia.
Qed.

(** X4.  The ranking (for prompts that are not names inherited from
    [Object.prototype]) lists no prompt twice, and its counts add up to at
    most the number of records it was computed from, to exactly that number
    when the limit is not below the number of distinct prompts: every
    record is counted once. *)
Theorem topPrompts_total limit filtered :
  Forall (fun img => ~ In (truncPrompt img) JsObject.inheritedKeys) filtered ->
  NoDup (map pc_prompt (topPromptsOf limit filtered))
  /\ sumZ (map pc_count (topPromptsOf limit filtered)) <= Z.of_nat (List.length filtered)
  /\ ((List.length (firstSeen (map truncPrompt filtered)) <= limit)%nat ->
      sumZ (map pc_count (topPromptsOf limit filtered)) = Z.of_nat (List.length filtered)).
Proof.
  intros _. unfold topPromptsOf, JsArray.sliceTo. rewrite promptCounts_fold.
  set (keys := map truncPrompt filtered).
  set (o := fold_left bump keys JsObject.empty).
  set (sorted := JsArray.sort byCountDesc (JsObject.entries o)).
  assert (Hperm : Permutation sorted o).
  { unfold sorted. rewrite sort_perm. apply entries_perm. }
  assert (Htotal : sumZ (map snd sorted) = Z.of_nat (List.length filtered)).
  { rewrite (sumZ_perm _ _ (Permutation_map snd Hperm)). unfold o.
    rewrite counting_total. cbn. unfold keys. rewrite length_map. lia. }
  assert (Hpos : Forall (fun x => 0 <= x) (map snd sorted)).
  { eapply Permutation_Forall; [symmetry; apply (Permutation_map snd Hperm)|].
    apply counting_values_pos. }
  rewrite !map_map. cbn [pc_prompt pc_count].
  split; [|split].
  - change (fun x : string * Z => fst x) with (@fst string Z).
    rewrite <- firstn_map.
    assert (Hnd : NoDup (map fst sorted)).
    { apply (Permutation_NoDup (l := map fst o)).
      - symmetry. now apply Permutation_map.
      - unfold o. rewrite keys_fold_bump_empty. apply firstSeen_NoDup. }
    rewrite <- (firstn_skipn limit (map fst sorted)) in Hnd.
    now apply NoDup_app_remove_r in Hnd.
  - change (fun x : string * Z => snd x) with (@snd string Z).
    rewrite <- firstn_map, <- Htotal.
    rewrite <- (firstn_skipn limit (map snd sorted)) at 2. rewrite sumZ_app.
    assert (0 <= sumZ (skipn limit (map snd sorted))); [|lia].
    apply sumZ_nonneg. rewrite <- (firstn_skipn limit (map snd sorted)) in Hpos.
    now apply Forall_app in Hpos.
  - intros Hl. change (fun x : string * Z => snd x) with (@snd string Z).
    rewrite firstn_all2; [exact Htotal|].
    rewrite (Permutation_length Hperm). unfold o.
    rewrite <- (length_map fst), keys_fold_bump_empty. exact Hl.
Qed.

Lemma topPrompts_total_witness :
  NoDup (map pc_prompt (topPromptsOf 10 Sample.images))
  /\ sumZ (map pc_count (topPromptsOf 10 Sample.images))
     <= Z.of_nat (List.length Sample.images)
  /\ ((List.length (firstSeen (map truncPrompt Sample.images)) <= 10)%nat ->
      sumZ (map pc_count (topPromptsOf 10 Sample.images))
      = Z.of_nat (List.length Sample.images)).
Proof.
  apply (topPrompts_total 10 Sample.images).
  repeat constructor; vm_compute; intuition discriminate.
Defined.

End PromptFacts.

(** ** Totals of the monthly counts and the outcome of a load *)

Section LoadFacts.
Import JsDate Analytics.

Variable parse : string -> option Z.
Variable now : Z.

Lemma userMonth_valid u : userDate parse now u <> None -> exists k, userMonth parse now u = Ok k.
Proof.
  unfold userMonth. destruct (userDate parse now u) as [t|]; [|congruence].
  intros _. cbn [toISOString bind]. eauto.
Qed.

Lemma userMonth_invalid u :
  userDate parse now u = None -> userMonth parse now u = Throw (RangeError "Invalid time value").
Proof. unfold userMonth. now intros ->. Qed.

Lemma userMonths_valid us :
  Forall (fun u => userDate parse now u <> None) us ->
  exists keys, userMonths parse now us = Ok keys /\ List.length keys = List.length us.
Proof.
  induction 1 as [|u us Hu _ (keys & IH & Hlen)]; cbn [userMonths].
  - now exists [].
  - destruct (userMonth_valid u Hu) as (k & ->). cbn [bind]. rewrite IH. cbn [bind].
    exists (k :: keys). cbn [List.length]. now rewrite Hlen.
Qed.

Lemma userMonths_invalid us :
  Exists (fun u => userDate parse now u = None) us ->
  userMonths parse now us = Throw (RangeError "Invalid time value").
Proof.
  induction 1 as [u us Hu | u us _ IH]; cbn [userMonths].
  - now rewrite (userMonth_invalid u Hu).
  - destruct (userDate parse now u) as [t|] eqn:E.
    + destruct (userMonth_valid u) as (k & ->); [congruence|]. cbn [bind]. now rewrite IH.
    + now rewrite (userMonth_invalid u E).
Qed.

Lemma userDate_cases us :
  Forall (fun u => userDate parse now u <> None) us
  \/ Exists (fun u => userDate parse now u = None) us.
Proof.
  induction us as [|u us [IH|IH]].
  - left. constructor.
  - destruct (userDate parse now u) as [t|] eqn:E.
    + left. constructor; [congruence | exact IH].
    + right. now constructor.
  - right. now constructor 2.
Qed.

Lemma monthlyUsers_ok us acc :
  monthlyUsers parse now us = Ok acc ->
  exists keys, userMonths parse now us = Ok keys
               /\ List.length keys = List.length us
               /\ acc = fold_left bump keys JsObject.empty.
Proof.
  intros H. destruct (userDate_cases us) as [Hv|Hi].
  - destruct (userMonths_valid us Hv) as (keys & Hk & Hlen).
    exists keys. repeat split; try assumption.
    unfold monthlyUsers in H. rewrite (monthlyUsersFrom_keys parse now us keys _ Hk) in H.
    now injection H as <-.
  - apply userMonths_invalid in Hi. unfold monthlyUsers in H.
    rewrite (monthlyUsersFrom_throw parse now us _ _ Hi) in H. discriminate.
Qed.

(** X5.  When the monthly reduction returns, every user has been counted in
    exactly one month: the counts of all months add up to the number of
    users.  The chart, which keeps the last [monthsBack] months, holds
    counts of at least 1 that add up to at most that number, and to exactly
    that number when no month is cut off. *)
Theorem monthly_counts_total monthsBack us es :
  growthEntries parse now monthsBack us = Ok es ->
  exists acc,
    monthlyUsers parse now us = Ok acc
    /\ sumZ (map snd acc) = Z.of_nat (List.length us)
    /\ Forall (fun e => 1 <= snd e) es
    /\ sumZ (map snd es) <= Z.of_nat (List.length us)
    /\ ((List.length acc <= monthsBack)%nat ->
        sumZ (map snd es) = Z.of_nat (List.length us)).
Proof.
  unfold growthEntries. intros H.
  destruct (monthlyUsers parse now us) as [acc|e] eqn:Hm; cbn [bind] in H; [|discriminate].
  injection H as <-. exists acc. split; [reflexivity|].
  destruct (monthlyUsers_ok us acc Hm) as (keys & Hk & Hlen & ->).
  set (o := fold_left bump keys JsObject.empty).
  set (all := JsArray.sort byKey (JsObject.entries o)).
  assert (Hperm : Permutation all o).
  { unfold all. rewrite sort_perm. apply entries_perm. }
  assert (Htotal : sumZ (map snd o) = Z.of_nat (List.length us)).
  { unfold o. rewrite counting_total. cbn. lia. }
  assert (Hall : sumZ (map snd all) = Z.of_nat (List.length us)).
  { now rewrite (sumZ_perm _ _ (Permutation_map snd Hperm)). }
  assert (Hone : Forall (fun e => 1 <= snd e) all).
  { apply Forall_forall. intros [k v] Hin.
    apply (Permutation_in _ Hperm) in Hin. apply counting_entry in Hin. cbn. lia. }
  destruct (sliceLast_suffix monthsBack all) as (older & Hsplit).
  set (kept := JsArray.sliceLast monthsBack all) in *.
  assert (Hparts : Forall (fun e => 1 <= snd e) older /\ Forall (fun e => 1 <= snd e) kept).
  { rewrite Hsplit in Hone. now apply Forall_app in Hone. }
  destruct Hparts as [Holder Hkept].
  assert (Hsum : sumZ (map snd older) + sumZ (map snd kept) = Z.of_nat (List.length us)).
  { rewrite <- Hall, Hsplit, map_app, sumZ_app. reflexivity. }
  assert (Hnn : 0 <= sumZ (map snd older)).
  { apply sumZ_nonneg. apply Forall_map. eapply Forall_impl; [|exact Holder].
    cbn. intros. lia. }
  split; [exact Htotal|]. split; [exact Hkept|]. split; [lia|].
  intros Hfit.
  assert (Hwhole : kept = all).
  { unfold kept, JsArray.sliceLast. destruct monthsBack as [|n]; [reflexivity|].
    rewrite (Permutation_length Hperm).
    replace (List.length o - S n)%nat with 0%nat by lia. reflexivity. }
  now rewrite Hwhole.
Qed.

Lemma daysBack_cases timeRange :
  daysBack timeRange = 7%nat \/ daysBack timeRange = 30%nat \/ daysBack timeRange = 90%nat.
Proof.
  unfold daysBack. destruct (String.eqb timeRange "7d"); [tauto|].
  destruct (String.eqb timeRange "30d"); tauto.
Qed.

Lemma dailyStatsLoop_length filtered n stats :
  dailyStatsLoop now filtered n = Ok stats -> List.length stats = n.
Proof.
  revert stats. induction n as [|i IH]; intros stats H; cbn [dailyStatsLoop] in H.
  - now injection H as <-.
  - destruct (dateStrAt now (Z.of_nat i)) as [d|e]; cbn [bind] in H; [|discriminate].
    destruct (dailyStatsLoop now filtered i) as [rest|e]; cbn [bind] in H; [|discriminate].
    injection H as <-. cbn [List.length]. now rewrite (IH rest eq_refl).
Qed.

(** X6.  With the clock in the range of valid dates, the images never make
    a load fail, whatever their timestamps: it fails exactly when some user
    has a [createdAt] that is neither missing nor empty and is not a date,
    and then with the RangeError of [toISOString]; nothing is set.
    Otherwise it returns the two totals as the sizes of the two collections
    as read, one daily entry per day of the range, at most 10 prompts and at
    most 6 months. *)
Theorem loadAnalytics_outcome label timeRange us imgs :
  0 <= now <= maxTime ->
  (Forall (fun u => userDate parse now u <> None) us ->
   exists data,
     loadAnalytics parse label now timeRange us imgs = Ok data
     /\ totalUsers data = Z.of_nat (List.length us)
     /\ totalImages data = Z.of_nat (List.length imgs)
     /\ List.length (dailyStats data) = daysBack timeRange
     /\ (List.length (topPrompts data) <= 10)%nat
     /\ (List.length (userGrowth data) <= 6)%nat)
  /\ (Exists (fun u => userDate parse now u = None) us ->
      loadAnalytics parse label now timeRange us imgs
      = Throw (RangeError "Invalid time value"))
  /\ (forall u, userDate parse now u = None
                <-> exists s, user_createdAt u = Some s /\ s <> ""%string
                              /\ newDateOfString parse s = None).
Proof.
  intros Hnow. unfold loadAnalytics.
  set (days := daysBack timeRange).
  set (filtered := filteredImages parse now days imgs).
  assert (Hdays : (days <= 90)%nat).
  { unfold days. destruct (daysBack_cases timeRange) as [-> | [-> | ->]]; lia. }
  assert (Hloop : exists stats, dailyStatsLoop now filtered days = Ok stats).
  { eexists. apply dailyStatsLoop_ok; unfold maxTime, msPerDay in *; lia. }
  destruct Hloop as (stats & Hstats). rewrite Hstats. cbn [bind].
  split; [|split].
  - intros Hv. destruct (userMonths_valid us Hv) as (keys & Hk & _).
    unfold userGrowthOf, growthEntries, monthlyUsers.
    rewrite (monthlyUsersFrom_keys parse now us keys _ Hk). cbn [bind].
    eexists. split; [reflexivity|].
    cbn [totalUsers totalImages dailyStats topPrompts userGrowth].
    split; [reflexivity|]. split; [reflexivity|].
    split; [now apply (dailyStatsLoop_length filtered)|].
    split.
    + unfold topPromptsOf, JsArray.sliceTo. rewrite length_map, length_firstn. lia.
    + rewrite length_map, sliceLast_length by lia. lia.
  - intros Hi. apply userMonths_invalid in Hi.
    unfold userGrowthOf, growthEntries, monthlyUsers.
    now rewrite (monthlyUsersFrom_throw parse now us _ _ Hi).
  - intros u. unfold userDate. destruct (user_createdAt u) as [s|].
    + destruct (String.eqb_spec s "") as [->|Hne].
      * split; [discriminate|]. intros (s' & E & Hs' & _). now injection E as <-.
      * split.
        -- intros H. now exists s.
        -- intros (s' & E & _ & H). now injection E as <-.
    + split; [discriminate|]. intros (s' & E & _). discriminate.
Qed.

End LoadFacts.

Lemma monthly_counts_total_witness :
  exists acc,
    Analytics.monthlyUsers IsoParse.parse Sample.now Sample.users = Ok acc
    /\ sumZ (map snd acc) = Z.of_nat (List.length Sample.users)
    /\ Forall (fun e => 1 <= snd e) [("2024-01", 2); ("2024-03", 1)]%string
    /\ sumZ (map snd [("2024-01", 2); ("2024-03", 1)]%string)
       <= Z.of_nat (List.length Sample.users)
    /\ ((List.length acc <= 6)%nat ->
        sumZ (map snd [("2024-01", 2); ("2024-03", 1)]%string)
        = Z.of_nat (List.length Sample.users)).
Proof.
  apply (monthly_counts_total IsoParse.parse Sample.now 6 Sample.users).
  vm_compute. reflexivity.
Defined.

Lemma loadAnalytics_outcome_witness :
  exists data,
    Analytics.loadAnalytics IsoParse.parse Sample.utcLabel Sample.now "7d"
      Sample.users Sample.images = Ok data
    /\ Analytics.totalUsers data = 3
    /\ Analytics.totalImages data = Z.of_nat (List.length Sample.images)
    /\ List.length (Analytics.dailyStats data) = 7%nat.
Proof.
  destruct (loadAnalytics_outcome IsoParse.parse Sample.now Sample.utcLabel "7d"
              Sample.users Sample.images) as (Hok & _ & _).
  - vm_compute. split; discriminate.
  - destruct Hok as (data & H1 & H2 & H3 & H4 & _).
    + repeat constructor; vm_compute; discriminate.
    + exists data. repeat split; assumption.
Defined.

(** ** The export read back *)

Section ExportFacts.
Import JsDate Analytics.

Lemma digitChar_not_comma k : Ascii.eqb (Str.digitChar k) "," = false.
Proof.
  unfold Str.digitChar. destruct k as [|p|p]; try reflexivity.
  do 4 (try destruct p as [p|p|]; try reflexivity).
Qed.

Lemma lacks_ofDigits_any c fuel n acc :
  (forall k, Ascii.eqb (Str.digitChar k) c = false) ->
  Str.lacks c acc = true -> Str.lacks c (Str.ofDigits fuel n acc) = true.
Proof.
  intros Hc. revert n acc. induction fuel as [|f IH]; intros n acc H; cbn [Str.ofDigits]; [exact H|].
  assert (H' : Str.lacks c (String (Str.digitChar (n mod 10)) acc) = true).
  { cbn [Str.lacks]. now rewrite Hc, H. }
  destruct (n / 10 =? 0); [exact H' | now apply IH].
Qed.

Lemma lacks_comma_ofZ n : 0 <= n -> Str.lacks "," (Str.ofZ n) = true.
Proof.
  intros Hn. unfold Str.ofZ. destruct (Z.ltb_spec n 0); [lia|].
  apply lacks_ofDigits_any; [apply digitChar_not_comma | reflexivity].
Qed.

Lemma dateStrAt_lacks_comma now i d : dateStrAt now i = Ok d -> Str.lacks "," d = true.
Proof.
  unfold dateStrAt.
  destruct (TimeClip (now - i * 24 * 60 * 60 * 1000)) as [t|];
    cbn [toISOString bind append]; [|discriminate].
  rewrite beforeFirst_lacks by apply lacks_T_fmtDate.
  intros [= <-]. apply lacks_fmtDate; [apply digitChar_not_comma | reflexivity | reflexivity].
Qed.

Lemma dailyStatsLoop_exportable now filtered n stats :
  dailyStatsLoop now filtered n = Ok stats -> Forall exportable stats.
Proof.
  revert stats. induction n as [|i IH]; intros stats H; cbn [dailyStatsLoop] in H.
  - injection H as <-. constructor.
  - destruct (dateStrAt now (Z.of_nat i)) as [d|e] eqn:Ed; cbn [bind] in H; [|discriminate].
    destruct (dailyStatsLoop now filtered i) as [rest|e]; cbn [bind] in H; [|discriminate].
    injection H as <-. constructor; [|now apply IH].
    pose proof (dayStat_counts filtered d) as (Hu & _ & Hi).
    unfold exportable. change (date (dayStat filtered d)) with d.
    split; [now apply (dateStrAt_lacks_comma now (Z.of_nat i))|].
    split; [now apply (dateStrAt_lacks_newline now (Z.of_nat i))|].
    split; lia.
Qed.

Lemma csvDecodeLine_csvLine stat :
  exportable stat -> csvDecodeLine (csvLine stat) = Some stat.
Proof.
  intros (Hc & _ & Hu & Hi). unfold csvDecodeLine. rewrite <- csvRow_line.
  unfold csvRow. rewrite splitOn_join.
  - rewrite !ofZ_value by assumption. now destruct stat.
  - repeat constructor; [exact Hc | now apply lacks_comma_ofZ | now apply lacks_comma_ofZ].
Qed.

Lemma csvContent_split stats :
  Forall exportable stats ->
  Str.splitOn Str.newlineChar (csvContent stats)
  = "Date,Users,Images"%string :: map csvLine stats.
Proof.
  intros H. unfold csvContent. cbn [map].
  change (Str.join "," ["Date"; "Users"; "Images"]%string) with "Date,Users,Images"%string.
  unfold Str.newline. rewrite splitOn_join.
  - f_equal. rewrite map_map. apply map_ext. intros stat. apply csvRow_line.
  - constructor; [reflexivity|]. rewrite map_map. apply Forall_map.
    eapply Forall_impl; [|exact H]. intros stat (_ & Hn & _).
    cbn beta. rewrite csvRow_line. now apply lacks_csvLine.
Qed.

Lemma csvDecode_csvContent stats :
  Forall exportable stats -> csvDecode (csvContent stats) = map Some stats.
Proof.
  intros H. unfold csvDecode. rewrite csvContent_split by exact H. cbn [tl].
  rewrite map_map. induction H as [|stat stats Hs _ IH]; cbn [map]; [reflexivity|].
  now rewrite csvDecodeLine_csvLine, IH.
Qed.

Lemma map_Some_inj {X : Type} (l1 l2 : list X) : map Some l1 = map Some l2 -> l1 = l2.
Proof.
  revert l2. induction l1 as [|x l1 IH]; intros [|y l2] H; cbn in H; try discriminate.
  - reflexivity.
  - injection H as -> H. f_equal. now apply IH.
Qed.

(** X7.  The export loses nothing of the daily statistics: splitting the
    text at line breaks, dropping the header and splitting each line at
    commas gives back each date and, read as decimal numbers, each pair of
    counts, in order.  Hence two exports are the same text only when the
    statistics are the same. *)
Theorem csvContent_read_back parse now days imgs stats :
  bucketByDay parse now days imgs = Ok stats ->
  csvDecode (csvContent stats) = map Some stats
  /\ forall parse' now' days' imgs' stats',
       bucketByDay parse' now' days' imgs' = Ok stats' ->
       csvContent stats = csvContent stats' -> stats = stats'.
Proof.
  intros H. apply dailyStatsLoop_exportable in H. split.
  - now apply csvDecode_csvContent.
  - intros parse' now' days' imgs' stats' H' E.
    apply dailyStatsLoop_exportable in H'.
    apply map_Some_inj.
    rewrite <- (csvDecode_csvContent stats H), <- (csvDecode_csvContent stats' H').
    now rewrite E.
Qed.

Lemma csvContent_read_back_witness :
  csvDecode (csvContent Sample.stats) = map Some Sample.stats
  /\ forall parse' now' days' imgs' stats',
       bucketByDay parse' now' days' imgs' = Ok stats' ->
       csvContent Sample.stats = csvContent stats' -> Sample.stats = stats'.
Proof.
  apply (csvContent_read_back IsoParse.parse Sample.now 3 Sample.images Sample.stats).
  reflexivity.
Defined.

(** ** The average per day *)

Lemma fold_images_sum stats acc :
  fold_left (fun sum stat => sum + images stat) stats acc = acc + sumZ (map images stats).
Proof.
  unfold sumZ. revert acc. induction stats as [|s stats IH]; intros acc; cbn [fold_left map fold_right].
  - lia.
  - rewrite IH. lia.
Qed.

Lemma Qfloor_half a p : Qfloor ((a # p) + (1 # 2)) = (2 * a + Z.pos p) / (2 * Z.pos p).
Proof.
  unfold Qplus, Qfloor. cbn [Qnum Qden].
  replace (a * 2 + 1 * Z.pos p) with (2 * a + Z.pos p) by lia.
  f_equal. lia.
Qed.

(** X8.  On at least one entry (and a total below 2^52, so that the
    quotient of the two doubles rounds as the exact one does) the "Avg per
    Day" card shows the integer nearest to total / entries, a half rounded
    upwards: the number [k] with [2 * total - n < 2 * k * n <= 2 * total + n]. *)
Theorem avgPerDay_nearest stats :
  stats <> [] ->
  0 <= sumZ (map images stats) < 2 ^ 52 ->
  let n := Z.of_nat (List.length stats) in
  let total := sumZ (map images stats) in
  let k := (2 * total + n) / (2 * n) in
  avgPerDay stats = JsNum.ofZ k
  /\ 2 * total - n < 2 * k * n <= 2 * total + n.
Proof.
  intros Hne _ n total k.
  assert (Hn : 0 < n) by (unfold n; destruct stats; [congruence | cbn [List.length]; lia]).
  split.
  - unfold avgPerDay. rewrite fold_images_sum, Z.add_0_l. fold total. fold n.
    unfold JsNum.div. destruct (Z.eqb_spec n 0) as [E|_]; [lia|].
    destruct (Z.ltb_spec 0 n) as [_|L]; [|lia].
    cbn [JsNum.round]. rewrite Qfloor_half, Z2Pos.id by exact Hn. fold k.
    cbn [JsNum.orElse]. unfold JsNum.ofZ.
    destruct (Qeq_bool (inject_Z k) 0) eqn:E; [|reflexivity].
    apply Qeq_bool_eq in E. unfold Qeq in E. cbn in E.
    replace k with 0 by lia. reflexivity.
  - unfold k. pose proof (Z.div_mod (2 * total + n) (2 * n) ltac:(lia)) as Hd.
    pose proof (Z.mod_pos_bound (2 * total + n) (2 * n) ltac:(lia)) as Hm.
    nia.
Qed.

Lemma avgPerDay_nearest_witness : avgPerDay Sample.stats = JsNum.ofZ 1.
Proof.
  apply (avgPerDay_nearest Sample.stats).
  - discriminate.
  - vm_compute. split; [discriminate | reflexivity].
Defined.

End ExportFacts.

(** ** The name of a downloaded file *)

Section DownloadFacts.
Import Download.

Lemma replaceOthers_length s : String.length (replaceOthers s) = String.length s.
Proof. induction s as [|c s IH]; cbn; [reflexivity | now rewrite IH]. Qed.

Lemma replaceOthers_safe s :
  allChars (fun c => isAlnum c || Ascii.eqb c "-") (replaceOthers s) = true.
Proof.
  induction s as [|c s IH]; cbn [replaceOthers allChars]; [reflexivity|].
  rewrite IH, andb_true_r. destruct (isAlnum c) eqn:E; [now rewrite E | apply orb_true_r].
Qed.

Lemma replaceOthers_alnum s : allChars isAlnum s = true -> replaceOthers s = s.
Proof.
  induction s as [|c s IH]; cbn [replaceOthers allChars]; [reflexivity|].
  intros H. apply andb_prop in H as [Hc Hs]. now rewrite Hc, IH.
Qed.

Lemma append_inj_l (a b c : string) : (a ++ b)%string = (a ++ c)%string -> b = c.
Proof. induction a as [|x a IH]; cbn; [easy|]. intros [= H]. now apply IH. Qed.

(** X9.  The name given to a downloaded image is [ai-generated-], then one
    character for each of the first 30 characters of the prompt, kept when
    it is an ASCII letter or digit and a hyphen otherwise, then [.png]:
    nothing of the prompt reaches the name but letters, digits and hyphens.
    A prompt of letters and digits is kept as it is, and two prompts get the
    same name exactly when their first 30 characters agree after that
    replacement. *)
Theorem fileName_shape p :
  exists middle,
    fileName p = ("ai-generated-" ++ middle ++ ".png")%string
    /\ String.length middle = Nat.min 30 (String.length p)
    /\ allChars (fun c => isAlnum c || Ascii.eqb c "-") middle = true
    /\ (allChars isAlnum (Str.take 30 p) = true -> middle = Str.take 30 p)
    /\ forall q, fileName p = fileName q
                 <-> replaceOthers (Str.take 30 p) = replaceOthers (Str.take 30 q).
Proof.
  exists (replaceOthers (Str.take 30 p)). split; [reflexivity|].
  split; [now rewrite replaceOthers_length, take_length|].
  split; [apply replaceOthers_safe|].
  split; [apply replaceOthers_alnum|].
  intros q. unfold fileName. split.
  - intros E. apply append_inj_l in E.
    apply append_inj_length in E as [E _]; [exact E|].
    rewrite !replaceOthers_length, !take_length.
    apply (f_equal String.length) in E.
    rewrite !string_length_app, !replaceOthers_length, !take_length in E. lia.
  - now intros ->.
Qed.

Example fileName_sample :
  fileName "A cat, in space! And much more text follows here"
  = "ai-generated-A-cat--in-space--And-much-more.png"%string.
Proof. reflexivity. Qed.

End DownloadFacts.

(** ** The initial of an avatar *)

Section AvatarFacts.
Import Avatar.

(** X10.  Rendering the initial of a user throws, a TypeError, exactly when
    the display name is missing or empty and the e-mail address is empty.
    Otherwise it is the first character of the display name as it is
    written, or, without one, the first character of the address in upper
    case. *)
Theorem initial_outcome (toUpperCase : string -> string) dn mail :
  ((exists e, initial toUpperCase dn mail = Throw e)
   <-> (dn = None \/ dn = Some ""%string) /\ mail = ""%string)
  /\ (forall c rest, dn = Some (String c rest) ->
        initial toUpperCase dn mail = Ok (String c EmptyString))
  /\ (forall c rest, dn = None \/ dn = Some ""%string -> mail = String c rest ->
        initial toUpperCase dn mail = Ok (toUpperCase (String c EmptyString))).
Proof.
  split; [|split].
  - unfold initial. destruct dn as [[|c rest]|]; destruct mail as [|d rest']; cbn [first];
      split;
      try (intros (e & H); discriminate);
      try (intros (e & H); split; [tauto | reflexivity]);
      try (intros ([H|H] & H'); discriminate);
      try (intros _; eauto).
  - intros c rest ->. reflexivity.
  - intros c rest [-> | ->] ->; reflexivity.
Qed.

Example initial_sample :
  initial asciiUpper (Some "ada lovelace"%string) "ada@example.org" = Ok "a"%string
  /\ initial asciiUpper None "bob@example.org" = Ok "B"%string
  /\ initial asciiUpper (Some ""%string) "" = Throw (TypeError "Cannot read properties of undefined (reading 'toUpperCase')").
Proof. repeat split; reflexivity. Qed.

End AvatarFacts.

(** ** The page of the users *)

Section UserPageFacts.
Import UserManagement UserPage.

Lemma hits_at_most_one (x : string) ks :
  NoDup ks -> sumZ (map (fun k => if string_dec x k then 1 else 0) ks) <= 1
              /\ (~ In x ks -> sumZ (map (fun k => if string_dec x k then 1 else 0) ks) = 0).
Proof.
  unfold sumZ. induction 1 as [|k ks Hk _ [IH1 IH2]]; cbn [map fold_right In].
  - split; [lia | reflexivity].
  - destruct (string_dec x k) as [->|Hne].
    + rewrite (IH2 Hk). split; [lia | tauto].
    + split; [lia|]. intros Hn. apply IH2. tauto.
Qed.

(** Counting the occurrences of distinct keys counts no element twice. *)
Lemma count_occ_distinct (l ks : list string) :
  NoDup ks ->
  sumZ (map (fun k => Z.of_nat (count_occ string_dec l k)) ks) <= Z.of_nat (List.length l).
Proof.
  intros Hnd. induction l as [|x l IH]; cbn [count_occ List.length].
  - assert (H : forall ks' : list string, sumZ (map (fun _ => Z.of_nat 0) ks') = 0)
      by (unfold sumZ; induction ks'; cbn in *; lia).
    rewrite H. lia.
  - assert (H : forall ks' : list string,
               sumZ (map (fun k => Z.of_nat (if string_dec x k then S (count_occ string_dec l k)
                                             else count_occ string_dec l k)) ks')
               = sumZ (map (fun k => Z.of_nat (count_occ string_dec l k)) ks')
                 + sumZ (map (fun k => if string_dec x k then 1 else 0) ks')).
    { unfold sumZ. induction ks' as [|k ks' IH']; cbn [map fold_right]; [lia|].
      rewrite IH'. destruct (string_dec x k); lia. }
    rewrite H. pose proof (hits_at_most_one x ks Hnd) as [H1 _]. lia.
Qed.

Lemma isAdmin_transformUser now counts u :
  isAdmin (transformUser now counts u)
  = match Analytics.role u with Some r => String.eqb r "admin" | None => false end.
Proof.
  unfold isAdmin, transformUser, orText. cbn [role].
  destruct (Analytics.role u) as [r|]; [|reflexivity].
  destruct (String.eqb_spec r "") as [->|_]; reflexivity.
Qed.

Lemma filter_map_length {X Y : Type} (f : X -> Y) (p : Y -> bool) (l : list X) :
  List.length (filter p (map f l)) = List.length (filter (fun x => p (f x)) l).
Proof.
  induction l as [|x l IH]; cbn [map filter]; [reflexivity|].
  destruct (p (f x)); cbn [List.length]; now rewrite IH.
Qed.

(** X11.  After a load that succeeded, the page holds one user per row of
    the database, in the order of the rows, every one of them active and
    none banned, whatever the database holds; the role is the one of the
    row, an administrator being a row whose role is [admin]; and, for keys
    that are not names inherited from [Object.prototype], the image count of
    a user is the number of image records with that user id.  When the ids
    are distinct these counts add up to at most the number of image records.
    A read that fails leaves the users as they were; in both cases the page
    is no longer loading. *)
Theorem loadUsers_cards now dbUsers images page :
  Forall (fun img => ~ In (userId img) JsObject.inheritedKeys) images ->
  Forall (fun u => ~ In (Analytics.user_id u) JsObject.inheritedKeys) dbUsers ->
  let page' := fst (loadUsers now (Fulfilled dbUsers) (Fulfilled images) page) in
  map id (users page') = map Analytics.user_id dbUsers
  /\ loading page' = false
  /\ totalCard page' = List.length dbUsers
  /\ activeCard page' = List.length dbUsers
  /\ bannedCard page' = 0%nat
  /\ adminsCard page'
     = List.length (filter (fun u => match Analytics.role u with
                                     | Some r => String.eqb r "admin"
                                     | None => false
                                     end) dbUsers)
  /\ Forall (fun u => imageCount u
                      = Some (Z.of_nat (count_occ string_dec (map userId images) (id u))))
       (users page')
  /\ (NoDup (map Analytics.user_id dbUsers) ->
      sumZ (map (fun u => Analytics.orZero (imageCount u)) (users page'))
      <= Z.of_nat (List.length images))
  /\ (forall r, loadUsers now Rejected r page
                = (mkPage (users page) false, Some (ToastError "Failed to load users")))
  /\ loadUsers now (Fulfilled dbUsers) Rejected page
     = (mkPage (users page) false, Some (ToastError "Failed to load users")).
Proof.
  intros _ _ page'. unfold page', loadUsers. cbn [fst users loading].
  unfold totalCard, activeCard, bannedCard, adminsCard, transformedUsers. cbn [users].
  assert (Hcount : forall u, Analytics.countOf (imageCounts images) (Analytics.user_id u)
                             = Z.of_nat (count_occ string_dec (map userId images)
                                           (Analytics.user_id u))).
  { intros u. unfold imageCounts.
    rewrite (fold_left_bump_map userId images JsObject.empty).
    rewrite countOf_fold_bump. reflexivity. }
  split; [now rewrite map_map|]. split; [reflexivity|].
  split; [now rewrite length_map|].
  split.
  { rewrite filter_map_length. cbn. rewrite <- (length_map (fun x => x)), map_id.
    f_equal. apply forallb_filter_id. now apply forallb_forall. }
  split.
  { rewrite filter_map_length. cbn. induction dbUsers; [reflexivity | assumption]. }
  split.
  { rewrite filter_map_length. f_equal. apply filter_ext. intros u.
    apply isAdmin_transformUser. }
  split.
  { apply Forall_map, Forall_forall. intros u _. cbn [imageCount id transformUser].
    now rewrite Hcount. }
  split.
  { intros Hnd. rewrite map_map.
    rewrite (map_ext _ (fun u => Z.of_nat (count_occ string_dec (map userId images)
                                             (Analytics.user_id u)))).
    - rewrite <- (map_map Analytics.user_id
                    (fun k => Z.of_nat (count_occ string_dec (map userId images) k))).
      etransitivity; [apply count_occ_distinct; exact Hnd|]. now rewrite length_map.
    - intros u. cbn [imageCount transformUser Analytics.orZero]. rewrite Hcount.
      destruct (Z.eqb_spec (Z.of_nat (count_occ string_dec (map userId images)
                                        (Analytics.user_id u))) 0) as [E|E];
        [now rewrite E | reflexivity]. }
  split; [intros r; now destruct r | reflexivity].
Qed.

Lemma loadUsers_cards_witness :
  activeCard (fst (loadUsers Sample.now (Fulfilled Sample.users) (Fulfilled Sample.images)
                     (mkPage [] true))) = 3%nat
  /\ bannedCard (fst (loadUsers Sample.now (Fulfilled Sample.users) (Fulfilled Sample.images)
                        (mkPage [] true))) = 0%nat.
Proof.
  destruct (loadUsers_cards Sample.now Sample.users Sample.images (mkPage [] true))
    as (_ & _ & _ & Ha & Hb & _).
  - repeat constructor; vm_compute; intuition discriminate.
  - repeat constructor; vm_compute; intuition discriminate.
  - split; [exact Ha | exact Hb].
Defined.

Lemma filter_map_same {X : Type} (f : X -> X) (p : X -> bool) (l : list X) :
  (forall x, p (f x) = p x) -> filter p (map f l) = map f (filter p l).
Proof.
  intros H. induction l as [|x l IH]; cbn [map filter]; [reflexivity|].
  rewrite H. destruct (p x); cbn [map]; now rewrite IH.
Qed.

Lemma map_other_ids (f : User -> User) userId l :
  ~ In userId (map id l) ->
  map (fun user => if String.eqb (id user) userId then f user else user) l = l.
Proof.
  induction l as [|u l IH]; cbn [map In]; [reflexivity|]. intros H.
  destruct (String.eqb_spec (id u) userId) as [E|_]; [tauto|].
  rewrite IH by tauto. reflexivity.
Qed.

(** X12.  A role change whose update of the database fails changes nothing
    on the page.  One that succeeds keeps the users, their order, their
    addresses, names and statuses, hence the rows a search shows and the
    cards of the statuses; with distinct ids it moves the card of the
    administrators by the one user concerned: down by one when an
    administrator gets another role, up by one when another user becomes
    [admin]. *)
Theorem handleRoleChange_effect (toLowerCase : string -> string) searchQuery
    update userId newRole page :
  let page' := fst (handleRoleChange update userId newRole page) in
  (update = Rejected -> page' = page)
  /\ map id (users page') = map id (users page)
  /\ map status (users page') = map status (users page)
  /\ filteredUsers toLowerCase searchQuery (users page')
     = users (fst (handleRoleChange update userId newRole
                     (mkPage (filteredUsers toLowerCase searchQuery (users page))
                        (loading page))))
  /\ totalCard page' = totalCard page
  /\ activeCard page' = activeCard page
  /\ bannedCard page' = bannedCard page
  /\ (forall u, update = Fulfilled tt -> NoDup (map id (users page)) ->
                In u (users page) -> id u = userId ->
                (adminsCard page' + (if isAdmin u then 1 else 0)
                 = adminsCard page + (if String.eqb newRole "admin" then 1 else 0))%nat).
Proof.
  intros page'. unfold page'. destruct update as [[]|].
  2:{ cbn [handleRoleChange fst users]. repeat split; try reflexivity.
      intros u H. discriminate. }
  cbn [handleRoleChange fst users loading].
  set (f := fun user => if String.eqb (id user) userId then withRole user newRole else user).
  assert (Hid : forall u, id (f u) = id u)
    by (intros u; unfold f; now destruct (String.eqb (id u) userId)).
  assert (Hst : forall u, status (f u) = status u)
    by (intros u; unfold f; now destruct (String.eqb (id u) userId)).
  unfold totalCard, activeCard, bannedCard, adminsCard. cbn [users].
  split; [discriminate|].
  split; [rewrite map_map; now apply map_ext|].
  split; [rewrite map_map; now apply map_ext|].
  split.
  { unfold filteredUsers. apply filter_map_same. intros u. unfold f.
    now destruct (String.eqb (id u) userId). }
  split; [now rewrite length_map|].
  split; [rewrite filter_map_length; f_equal; apply filter_ext; intros u;
          unfold isActive; now rewrite Hst|].
  split; [rewrite filter_map_length; f_equal; apply filter_ext; intros u;
          unfold isBanned; now rewrite Hst|].
  intros u _ Hnd Hin Hu.
  destruct (in_split _ _ Hin) as (l1 & l2 & Hl). rewrite Hl in Hnd |- *.
  rewrite map_app in Hnd. cbn [map] in Hnd.
  pose proof (NoDup_remove_2 _ _ _ Hnd) as Hout. rewrite Hu in Hout.
  rewrite map_app. cbn [map]. unfold f at 2. rewrite Hu, String.eqb_refl.
  unfold f. rewrite !map_other_ids by (intros H; apply Hout, in_or_app; tauto).
  rewrite !filter_app, !length_app. cbn [filter].
  replace (isAdmin (withRole u newRole)) with (String.eqb newRole "admin") by reflexivity.
  destruct (isAdmin u), (String.eqb newRole "admin"); cbn [List.length]; lia.
Qed.

(** X13.  Role and status changes that the database accepted may be made in
    either order: a role change commutes with a status change, two role
    changes, or two status changes, of different users commute, and of two
    changes of the same kind for one user the later one stands. *)
Theorem changes_commute i j r r' s s' page :
  let rc := fun k x p => fst (handleRoleChange (Fulfilled tt) k x p) in
  let sc := fun k x p => fst (handleStatusChange k x p) in
  rc i r (sc j s page) = sc j s (rc i r page)
  /\ (i <> j -> rc i r (rc j r' page) = rc j r' (rc i r page))
  /\ (i <> j -> sc i s (sc j s' page) = sc j s' (sc i s page))
  /\ rc i r (rc i r' page) = rc i r page
  /\ sc i s (sc i s' page) = sc i s page.
Proof.
  intros rc sc. unfold rc, sc. cbn [handleRoleChange handleStatusChange fst users loading].
  repeat split; try intros Hij; f_equal; rewrite !map_map; apply map_ext; intros u;
    destruct (String.eqb_spec (id u) i) as [Ei|Ei], (String.eqb_spec (id u) j) as [Ej|Ej];
    cbn [id withRole withStatus];
    rewrite ?Ei, ?Ej, ?String.eqb_refl;
    try congruence;
    repeat match goal with
           | |- context [String.eqb ?a ?b] =>
               destruct (String.eqb_spec a b); try congruence
           end;
    reflexivity.
Qed.

Lemma handleRoleChange_effect_witness :
  (adminsCard (fst (handleRoleChange (Fulfilled tt) "u2" "admin"
                      (mkPage Sample.managed false))) + 0
   = 1 + 1)%nat
  /\ fst (handleRoleChange Rejected "u2" "admin" (mkPage Sample.managed false))
     = mkPage Sample.managed false.
Proof.
  destruct (handleRoleChange_effect asciiLower "" (Fulfilled tt) "u2" "admin"
              (mkPage Sample.managed false)) as (_ & _ & _ & _ & _ & _ & _ & H).
  destruct (handleRoleChange_effect asciiLower "" Rejected "u2" "admin"
              (mkPage Sample.managed false)) as (H' & _).
  split; [|now apply H'].
  apply (H (UserManagement.mkUser "u2" "bob@example.org" None (Some "user"%string)
              "2024-03-02T09:30:00.000Z" None (Some 0) active) eq_refl).
  - repeat constructor; cbn; intuition discriminate.
  - right. now left.
  - reflexivity.
Defined.

Lemma changes_commute_witness :
  fst (handleRoleChange (Fulfilled tt) "u1" "user"
         (fst (handleRoleChange (Fulfilled tt) "u2" "admin" (mkPage Sample.managed false))))
  = fst (handleRoleChange (Fulfilled tt) "u2" "admin"
           (fst (handleRoleChange (Fulfilled tt) "u1" "user" (mkPage Sample.managed false)))).
Proof.
  destruct (changes_commute "u1" "u2" "user" "admin" banned active
              (mkPage Sample.managed false)) as (_ & H & _).
  apply H. discriminate.
Defined.

End UserPageFacts.

(** ** The generator page *)

Section GeneratorFacts.
Import ImageGenerator GeneratorInvariant.

Lemma firstUrl_not_empty data u : firstUrl data = Some u -> u <> ""%string.
Proof.
  unfold firstUrl. destruct data as [[|[v|] l]|]; try discriminate.
  destruct (String.eqb_spec v ""); [discriminate|]. now intros [= <-].
Qed.

Lemma initial_wellFormed : wellFormed initial.
Proof.
  unfold wellFormed, initial, closureOk, own. cbn.
  repeat split; try lia; try congruence; try tauto; try (intros H; lia).
  constructor.
Qed.

Lemma not_generating_idle g ph :
  (g = true <-> ph <> Idle) -> g = false -> ph = Idle.
Proof.
  intros [_ H] ->. destruct ph; [reflexivity | | |];
    (assert (E : false = true) by (apply H; discriminate)); discriminate.
Qed.

Ltac finish_wf :=
  cbn; repeat split; intros;
  try discriminate; try congruence; try lia; try tauto; try assumption;
  try (constructor; [tauto | assumption]);
  try (match goal with
       | Hg : _ <-> _ <> Idle |- _ = true => apply Hg; discriminate
       end);
  try (match goal with
       | H100 : 90 < ?pr -> _, H : 90 < ?pr |- _ =>
           destruct (H100 H) as (? & ? & ?); try discriminate; try lia
       end);
  try (match goal with
       | |- ~ (_ \/ _) =>
           let H := fresh in intros [H|H]; [discriminate | tauto]
       end);
  eauto.

Lemma step_wellFormed st e st' : wellFormed st -> step st e = Some st' -> wellFormed st'.
Proof.
  destruct st as [p s q y g pr imgs n ph lg].
  unfold wellFormed, closureOk, own. cbn.
  intros (Hg & Hp & H100 & Hown & Hcl & Himgs & Hlog & Hzero) Hs.
  destruct e; cbn in Hs.
  1-4: (destruct g eqn:Eg; [discriminate|]; injection Hs as <-;
        rewrite (not_generating_idle _ _ Hg eq_refl) in *; finish_wf).
  - unfold buttonEnabled, handleGenerate in Hs. cbn in Hs.
    destruct g eqn:Eg; [discriminate|]. cbn in Hs.
    fold (isBlank p) in Hs.
    destruct (isBlank p) eqn:Eb; cbn in Hs; [discriminate|]. injection Hs as <-.
    rewrite (not_generating_idle _ _ Hg eq_refl) in *. finish_wf.
  - destruct n as [|n]; [discriminate|]. injection Hs as <-. finish_wf.
  - destruct ph; try discriminate. destruct r; injection Hs as <-; finish_wf.
  - destruct ph; try discriminate. destruct r as [data|].
    + destruct (firstUrl data) as [u|] eqn:Eu; injection Hs as <-.
      * pose proof (firstUrl_not_empty _ _ Eu). finish_wf.
      * finish_wf.
    + injection Hs as <-. finish_wf.
  - destruct ph; try discriminate. destruct r as [[]|]; injection Hs as <-; finish_wf.
Qed.

Lemma run_wellFormed es : forall st st',
  wellFormed st -> run st es = Some st' -> wellFormed st'.
Proof.
  induction es as [|e es IH]; intros st st' Hwf Hrun; cbn [run] in Hrun.
  - now injection Hrun as <-.
  - destruct (step st e) as [st1|] eqn:Es; [|discriminate].
    apply (IH st1); [now apply (step_wellFormed st e) | exact Hrun].
Qed.

Lemma step_intervals st e st' :
  wellFormed st -> step st e = Some st' ->
  (intervals st' + own st = intervals st + own st' + (if leaves st e then 1 else 0))%nat.
Proof.
  destruct st as [p s q y g pr imgs n ph lg]. unfold wellFormed, own, leaves. cbn.
  intros (Hg & _ & _ & Hown & _) Hs. destruct e; cbn in Hs.
  1-4: (destruct g; [discriminate|]; injection Hs as <-; cbn; destruct ph; lia).
  - unfold buttonEnabled, handleGenerate in Hs. cbn in Hs.
    destruct g eqn:Eg; [discriminate|]. cbn in Hs. fold (isBlank p) in Hs.
    destruct (isBlank p); cbn in Hs; [discriminate|]. injection Hs as <-.
    rewrite (not_generating_idle _ _ Hg eq_refl). cbn. lia.
  - destruct n as [|n]; [discriminate|]. injection Hs as <-. cbn. destruct ph; lia.
  - destruct ph; try discriminate. destruct r; injection Hs as <-; cbn; lia.
  - destruct ph; try discriminate. destruct r as [data|].
    + destruct (firstUrl data); injection Hs as <-; cbn; lia.
    + injection Hs as <-. cbn. lia.
  - destruct ph; try discriminate. destruct r as [[]|]; injection Hs as <-; cbn; lia.
Qed.

Lemma run_intervals es : forall st st',
  wellFormed st -> run st es = Some st' ->
  (intervals st' + own st = intervals st + own st' + leaks st es)%nat.
Proof.
  induction es as [|e es IH]; intros st st' Hwf Hrun; cbn [run leaks] in *.
  - injection Hrun as <-. lia.
  - destruct (step st e) as [st1|] eqn:Es; [|discriminate].
    pose proof (step_intervals st e st1 Hwf Es) as H2.
    pose proof (IH st1 st' (step_wellFormed st e st1 Hwf Es) Hrun) as H4. lia.
Qed.

(** X14.  In every state that the page reaches from its first one, by any
    sequence of inputs, clicks, interval ticks and settled promises:
    [generating] is true exactly while a call is pending; the progress is
    between 0 and 100, and above 90 only as the 100 shown while the record is
    saved; the pending call holds the values the form shows, with a prompt
    that is not blank; every image of the list has a prompt that is not
    blank and an address that is not empty; and the toast
    [Please enter a prompt] has never been shown, for the button is disabled
    exactly when the guard of the handler would fire. *)
Theorem generator_invariant es st :
  run initial es = Some st -> wellFormed st.
Proof. intros H. now apply (run_wellFormed es initial st initial_wellFormed). Qed.

Lemma generator_invariant_witness :
  wellFormed
    (mkState "a cat" "1024x1024" "high" "natural" false 0
       [imageData 1704283200000 1704283200001 "u1" "https://cdn.example/1.png"
          "a cat" "1024x1024" "high"] 0 Idle
       [Toasted (ToastSuccess "Image generated successfully!");
        CreateRequested
          (imageData 1704283200000 1704283200001 "u1" "https://cdn.example/1.png"
             "a cat" "1024x1024" "high");
        ImageRequested "a cat" "1024x1024" "high" "natural"; MeRequested]).
Proof.
  apply (generator_invariant
           [SetPrompt "a cat"; Click; Tick; MeSettled (Fulfilled "u1"%string); Tick;
            ImageSettled (Fulfilled (Some [Some "https://cdn.example/1.png"%string]))
              1704283200000 1704283200001;
            CreateSettled (Fulfilled tt)]).
  reflexivity.
Defined.

(** X15.  The interval that a call sets is cleared only after the image
    service has answered.  So, from the first state of the page, the number
    of intervals that are set is the number of calls that failed before
    that, at the lookup of the user or at the image service, plus one while
    a call waits for one of the two: such a failure leaves its interval
    set for good. *)
Theorem intervals_left_set es st :
  run initial es = Some st ->
  intervals st = (leaks initial es + own st)%nat.
Proof.
  intros H. pose proof (run_intervals es initial st initial_wellFormed H) as E.
  cbn in E. lia.
Qed.

Lemma intervals_left_set_witness :
  exists st,
    run initial [SetPrompt "a cat"; Click; MeSettled Rejected; Click;
                 MeSettled (Fulfilled "u1"%string); ImageSettled Rejected 5 6] = Some st
    /\ intervals st = 2%nat.
Proof.
  eexists. split; [reflexivity|].
  apply (intervals_left_set
           [SetPrompt "a cat"; Click; MeSettled Rejected; Click;
            MeSettled (Fulfilled "u1"%string); ImageSettled Rejected 5 6]).
  reflexivity.
Defined.

Lemma run_app es1 : forall es2 st st1,
  run st es1 = Some st1 -> run st (es1 ++ es2) = run st1 es2.
Proof.
  induction es1 as [|e es1 IH]; intros es2 st st1 H; cbn [run app] in *.
  - now injection H as <-.
  - destruct (step st e) as [st'|]; [|discriminate]. now apply IH.
Qed.

(** Ticks change the progress only: ten more each, up to 90. *)
Lemma run_ticks n : forall st,
  (0 < intervals st)%nat ->
  run st (repeat Tick n)
  = Some (mkState (st_prompt st) (st_size st) (st_quality st) (st_style st)
            (generating st)
            (match n with O => progress st
                     | S _ => Z.min (progress st + 10 * Z.of_nat n) 90 end)
            (generatedImages st) (intervals st) (phase st) (log st)).
Proof.
  induction n as [|n IH]; intros st Hpos.
  - now destruct st.
  - cbn [repeat run step]. destruct (intervals st) as [|k] eqn:Ek; [lia|].
    rewrite IH by (cbn; lia). unfold tick.
    cbn [st_prompt st_size st_quality st_style generating progress generatedImages
         intervals phase log].
    rewrite Ek. do 2 f_equal. destruct n as [|n]; lia.
Qed.

(** X16.  When the lookup of the user or the image service fails, the call
    ends with [generating] false and the progress at 0, but its interval
    goes on: [n] ticks later, with nothing pending, the progress is back at
    [min (10 n) 90].  When the image service answers, with an image or
    without, the call ends with as many intervals as before it, and, when
    there was none, no tick can follow. *)
Theorem failed_call_keeps_ticking st n :
  buttonEnabled st = true ->
  (0 < n)%nat ->
  (forall fails,
     fails = [Click; MeSettled Rejected]
     \/ (exists user t1 t2,
           fails = [Click; MeSettled (Fulfilled user); ImageSettled Rejected t1 t2]) ->
     exists st',
       run st (fails ++ repeat Tick n) = Some st'
       /\ generating st' = false /\ phase st' = Idle
       /\ intervals st' = S (intervals st)
       /\ progress st' = Z.min (10 * Z.of_nat n) 90)
  /\ (forall user data t1 t2 r,
        exists st',
          run st ([Click; MeSettled (Fulfilled user); ImageSettled (Fulfilled data) t1 t2]
                  ++ match firstUrl data with
                     | Some _ => [CreateSettled r]
                     | None => []
                     end) = Some st'
          /\ generating st' = false /\ phase st' = Idle
          /\ intervals st' = intervals st
          /\ progress st' = 0
          /\ (intervals st = 0%nat -> step st' Tick = None)).
Proof.
  intros Hen Hn. unfold buttonEnabled in Hen.
  apply andb_prop in Hen as [Hg Hb]. apply negb_true_iff in Hg, Hb.
  destruct st as [p s q y g pr imgs k ph lg]. cbn in Hg, Hb. subst g.
  split.
  - intros fails [-> | (user & t1 & t2 & ->)].
    + erewrite run_app.
      2:{ cbn. unfold buttonEnabled, handleGenerate. cbn. rewrite Hb. cbn. reflexivity. }
      rewrite run_ticks by (cbn; lia). eexists. split; [reflexivity|]. cbn.
      repeat split. destruct n; [lia|]. reflexivity.
    + erewrite run_app.
      2:{ cbn. unfold buttonEnabled, handleGenerate. cbn. rewrite Hb. cbn. reflexivity. }
      rewrite run_ticks by (cbn; lia). eexists. split; [reflexivity|]. cbn.
      repeat split. destruct n; [lia|]. reflexivity.
  - intros user data t1 t2 r. destruct (firstUrl data) as [u|] eqn:Eu.
    + cbn. unfold buttonEnabled, handleGenerate. cbn. rewrite Hb. cbn. rewrite Eu. cbn.
      destruct r as [[]|]; eexists; (split; [reflexivity|]); cbn; repeat split;
        now intros ->.
    + cbn. unfold buttonEnabled, handleGenerate. cbn. rewrite Hb. cbn. rewrite Eu.
      eexists. split; [reflexivity|]. cbn. repeat split. now intros ->.
Qed.

Lemma failed_call_keeps_ticking_witness :
  exists st',
    run (withForm "a cat" "1024x1024" "high" "natural" initial)
      ([Click; MeSettled Rejected] ++ repeat Tick 12) = Some st'
    /\ generating st' = false /\ phase st' = Idle
    /\ intervals st' = 1%nat
    /\ progress st' = 90.
Proof.
  destruct (failed_call_keeps_ticking
              (withForm "a cat" "1024x1024" "high" "natural" initial) 12) as [H _].
  - reflexivity.
  - lia.
  - apply (H [Click; MeSettled Rejected]). now left.
Defined.

Lemma step_images st e st' :
  step st e = Some st' ->
  exists added, generatedImages st' = added ++ generatedImages st
                /\ List.length added = created [e].
Proof.
  destruct st as [p s q y g pr imgs n ph lg]. intros Hs. destruct e; cbn in Hs.
  1-4: (destruct g; [discriminate|]; injection Hs as <-; now exists []).
  - unfold buttonEnabled, handleGenerate in Hs. cbn in Hs.
    destruct (negb g && negb (allChars isWhiteSpace p)); [|discriminate].
    injection Hs as <-. exists []. now destruct (allChars isWhiteSpace p).
  - destruct n; [discriminate|]. injection Hs as <-. now exists [].
  - destruct ph; try discriminate. destruct r; injection Hs as <-; now exists [].
  - destruct ph; try discriminate. destruct r as [data|].
    + destruct (firstUrl data); injection Hs as <-; now exists [].
    + injection Hs as <-. now exists [].
  - destruct ph as [| | |img]; try discriminate. destruct r as [[]|]; injection Hs as <-.
    + now exists [img].
    + now exists [].
Qed.

Lemma created_cons e es : created (e :: es) = (created [e] + created es)%nat.
Proof. destruct e as [| | | | | |r|r t1 t2|[[]|]]; reflexivity. Qed.

(** X17.  Whatever happens on the page, no image leaves the list and none
    changes place: after any sequence of events the list is the one before
    it, preceded by one new image, newest first, for each record whose
    creation the database accepted. *)
Theorem images_only_added es : forall st st',
  run st es = Some st' ->
  exists added,
    generatedImages st' = added ++ generatedImages st
    /\ List.length added = created es.
Proof.
  induction es as [|e es IH]; intros st st' Hrun; cbn [run] in Hrun.
  - injection Hrun as <-. now exists [].
  - destruct (step st e) as [st1|] eqn:Es; [|discriminate].
    destruct (step_images st e st1 Es) as (a1 & H1 & L1).
    destruct (IH st1 st' Hrun) as (a2 & H2 & L2).
    exists (a2 ++ a1). rewrite H2, H1, app_assoc. split; [reflexivity|].
    rewrite length_app, (created_cons e es). lia.
Qed.

Lemma images_only_added_witness :
  exists st' added,
    run initial
      [SetPrompt "a cat"; Click; Tick; MeSettled (Fulfilled "u1"%string); Tick;
       ImageSettled (Fulfilled (Some [Some "https://cdn.example/1.png"%string]))
         1704283200000 1704283200001;
       CreateSettled (Fulfilled tt)] = Some st'
    /\ generatedImages st' = added ++ generatedImages initial
    /\ List.length added = 1%nat.
Proof.
  destruct (run initial
              [SetPrompt "a cat"; Click; Tick; MeSettled (Fulfilled "u1"%string); Tick;
               ImageSettled (Fulfilled (Some [Some "https://cdn.example/1.png"%string]))
                 1704283200000 1704283200001;
               CreateSettled (Fulfilled tt)]) as [st'|] eqn:E.
  - destruct (images_only_added _ initial st' E) as (added & H1 & H2).
    exists st', added. repeat split; assumption.
  - vm_compute in E. discriminate E.
Defined.

(** X18.  The id of a new record is [img_] followed by the decimal digits of
    the clock reading: two records get the same id exactly when they are
    made in the same millisecond. *)
Theorem imageData_id t1 n1 u1 a1 p1 s1 q1 t2 n2 u2 a2 p2 s2 q2 :
  0 <= t1 -> 0 <= t2 ->
  (id (imageData t1 n1 u1 a1 p1 s1 q1) = id (imageData t2 n2 u2 a2 p2 s2 q2) <-> t1 = t2).
Proof.
  intros H1 H2. cbn [imageData id]. split; [|now intros ->].
  intros E. apply (append_inj_l "img_") in E.
  pose proof (ofZ_value t1 H1) as V1. pose proof (ofZ_value t2 H2) as V2.
  rewrite E in V1. congruence.
Qed.

Lemma imageData_id_witness :
  id (imageData 1704283200000 1704283200001 "u1" "x" "a cat" "1024x1024" "high")
  = id (imageData 1704283200000 1704283200002 "u2" "y" "a dog" "1024x1024" "low")
  <-> 1704283200000 = 1704283200000.
Proof. apply imageData_id; lia. Defined.

End GeneratorFacts.

(** ** The dashboard *)

Section DashboardFacts.
Import AdminDashboard.

Lemma insert_ext_in {A : Type} (cmp cmp' : A -> A -> Z) x l :
  (forall y, In y l -> cmp x y = cmp' x y) ->
  JsArray.insert cmp x l = JsArray.insert cmp' x l.
Proof.
  induction l as [|y l IH]; intros H; cbn [JsArray.insert]; [reflexivity|].
  rewrite (H y) by now left. rewrite IH by (intros z Hz; apply H; now right).
  reflexivity.
Qed.

(** Sorting depends on the comparator on the elements of the array only. *)
Lemma sort_ext_in {A : Type} (cmp cmp' : A -> A -> Z) l :
  (forall a b, In a l -> In b l -> cmp a b = cmp' a b) ->
  JsArray.sort cmp l = JsArray.sort cmp' l.
Proof.
  induction l as [|x l IH]; intros H; [reflexivity|].
  cbn [JsArray.sort fold_right]. fold (JsArray.sort cmp l). fold (JsArray.sort cmp' l).
  rewrite IH by (intros a b Ha Hb; apply H; now right).
  apply insert_ext_in. intros y Hy. apply H; [now left|].
  right. apply (Permutation_in _ (sort_perm cmp' l)). exact Hy.
Qed.

Lemma setSize_incl (l1 l2 : list string) :
  incl l1 l2 -> setSize string_dec l1 <= setSize string_dec l2.
Proof.
  intros H. unfold setSize. apply inj_le.
  apply NoDup_incl_length; [apply NoDup_nodup|].
  intros x Hx. apply nodup_In. apply H. now apply nodup_In in Hx.
Qed.

Section WithBuiltins.
Variable parse : string -> option Z.
Variable now : Z.

Lemma byTimeDesc_dated a b :
  dated parse a -> dated parse b ->
  byTimeDesc parse a b = timeOf parse b - timeOf parse a.
Proof.
  unfold dated, byTimeDesc, timeOf. intros Ha Hb.
  destruct (newDateOfString parse (timestamp b)); [|congruence].
  destruct (newDateOfString parse (timestamp a)); [|congruence].
  reflexivity.
Qed.

Lemma activities_length users images :
  List.length (activities now users images)
  = (Nat.min 5 (List.length images) + Nat.min 3 (List.length users))%nat.
Proof.
  unfold activities, JsArray.sliceTo.
  now rewrite length_app, !length_map, !length_firstn.
Qed.

(** X19.  When the timestamps of the activities are dates, the list of
    recent activity holds every activity that was built, one for each of
    the first five images and one for each of the first three users, at
    most eight, so that the final [slice(0, 10)] cuts nothing; it is ordered
    from the latest to the earliest, and activities with the same time stay
    in the order in which they were built, images before users. *)
Theorem recentActivity_sorted users images :
  Forall (dated parse) (activities now users images) ->
  let acts := recentActivity parse now users images in
  Permutation acts (activities now users images)
  /\ List.length acts
     = (Nat.min 5 (List.length images) + Nat.min 3 (List.length users))%nat
  /\ (List.length acts <= 8)%nat
  /\ StronglySorted (fun a b => timeOf parse b <= timeOf parse a) acts
  /\ forall t, filter (fun a => timeOf parse a =? t) acts
               = filter (fun a => timeOf parse a =? t) (activities now users images).
Proof.
  intros Hd acts. unfold acts, recentActivity, JsArray.sliceTo.
  set (l := activities now users images) in *.
  set (cmp' := fun a b : RecentActivity => timeOf parse b - timeOf parse a).
  assert (Hsort : JsArray.sort (byTimeDesc parse) l = JsArray.sort cmp' l).
  { apply sort_ext_in. intros a b Ha Hb. rewrite Forall_forall in Hd.
    now apply byTimeDesc_dated; apply Hd. }
  assert (Hlen : List.length l
                 = (Nat.min 5 (List.length images) + Nat.min 3 (List.length users))%nat)
    by apply activities_length.
  rewrite Hsort, firstn_all2 by (rewrite sort_length; lia).
  split; [apply sort_perm|]. split; [now rewrite sort_length|].
  split; [rewrite sort_length; lia|]. split.
  - apply (StronglySorted_impl (fun a b => cmp' a b <= 0)).
    + unfold cmp'. intros a b. lia.
    + apply sort_sorted; unfold cmp'; intros; lia.
  - intros t. apply sort_stable. unfold cmp'. intros a b Ha Hb.
    apply Z.eqb_eq in Ha, Hb. lia.
Qed.

End WithBuiltins.

Lemma recentActivity_sorted_witness :
  map act_id (recentActivity IsoParse.parse Sample.now Sample.users Sample.images)
  = ["user-u2"; "user-u3"; "user-u1"; "img-i3"; "img-i2"; "img-i1"]%string
  /\ StronglySorted (fun a b => timeOf IsoParse.parse b <= timeOf IsoParse.parse a)
       (recentActivity IsoParse.parse Sample.now Sample.users Sample.images).
Proof.
  split; [vm_compute; reflexivity|].
  apply (recentActivity_sorted IsoParse.parse Sample.now Sample.users Sample.images).
  repeat constructor; vm_compute; discriminate.
Defined.

(** X20.  The active users of the dashboard are the distinct users of
    exactly the records that the analytics page keeps for its range of 7
    days: at least 0, at most the number of these records, itself at most
    the total of the images, and 0 only when there is no such record.  No
    day of the analytics page at that range shows more users than the
    dashboard counts as active.  The images of the month are at most the
    total. *)
Theorem dashboard_stats parse monthStart now users images :
  let s := stats parse monthStart now users images in
  let week := Analytics.filteredImages parse now 7 images in
  activeUsers s = setSize string_dec (map userId week)
  /\ 0 <= activeUsers s <= Z.of_nat (List.length week)
  /\ Z.of_nat (List.length week) <= totalImages s
  /\ (activeUsers s = 0 <-> week = [])
  /\ 0 <= imagesThisMonth s <= totalImages s
  /\ totalUsers s = Z.of_nat (List.length users)
  /\ forall days, Analytics.bucketByDay parse now 7 images = Ok days ->
                  Forall (fun d => Analytics.users d <= activeUsers s) days.
Proof.
  intros s week. unfold s, stats. cbn [activeUsers totalImages imagesThisMonth totalUsers].
  change (since parse (lastWeek now) images) with week.
  pose proof (setSize_range string_dec (map userId week)) as Hr.
  pose proof (setSize_pos string_dec (map userId week)) as Hp.
  rewrite length_map in Hr.
  split; [reflexivity|]. split; [exact Hr|].
  split; [apply inj_le; apply filter_length_le|].
  split.
  { split.
    - intros E. destruct week as [|x w]; [reflexivity|].
      assert (0 < setSize string_dec (map userId (x :: w))) by (apply Hp; discriminate).
      lia.
    - intros ->. reflexivity. }
  split; [split; [lia | apply inj_le; apply filter_length_le]|].
  split; [reflexivity|].
  intros days Hdays. unfold Analytics.bucketByDay in Hdays. fold week in Hdays.
  pose proof (dailyStatsLoop_entries now week 7 days Hdays) as He.
  eapply Forall_impl; [|exact He]. intros d ->.
  cbn [Analytics.dayStat Analytics.users]. apply setSize_incl.
  intros x Hx. apply in_map_iff in Hx as (img & <- & Hin). apply in_map.
  unfold Analytics.dayImages in Hin. now apply filter_In in Hin.
Qed.

Lemma find_none_iff {X : Type} (p : X -> bool) l :
  find p l = None <-> forall x, In x l -> p x = false.
Proof.
  split; [apply find_none|]. induction l as [|x l IH]; intros H; cbn [find]; [reflexivity|].
  rewrite (H x) by now left. apply IH. intros y Hy. apply H. now right.
Qed.

(** X21.  The activity of an image carries the first 50 characters of the
    prompt followed by three dots, whether or not the prompt was longer: for
    a prompt of more than 50 characters this is the text under which the
    analytics page counts it, for a shorter one it is the prompt with dots
    that the analytics page does not add.  Its e-mail address is the one of
    the first user with the id of the record, and is missing exactly when
    no user has that id. *)
Theorem imageActivity_shape users img :
  let a := imageActivity users img in
  ((50 < String.length (prompt img))%nat ->
   message a = ("Image generated: " ++ quote ++ Analytics.truncPrompt img ++ quote)%string)
  /\ ((String.length (prompt img) <= 50)%nat ->
      message a = ("Image generated: " ++ quote ++ prompt img ++ "..." ++ quote)%string
      /\ Analytics.truncPrompt img = prompt img)
  /\ (userEmail a = None
      <-> forall u, In u users -> Analytics.user_id u <> userId img)
  /\ (forall e, userEmail a = Some e ->
        exists l1 u l2, users = l1 ++ u :: l2
                        /\ Analytics.user_id u = userId img /\ Analytics.email u = e
                        /\ forall v, In v l1 -> Analytics.user_id v <> userId img)
  /\ act_userId a = Some (userId img) /\ timestamp a = createdAt img.
Proof.
  intros a. unfold a, imageActivity. cbn [message userEmail act_userId timestamp].
  split; [|split; [|split; [|split; [|split; reflexivity]]]].
  - intros H. rewrite (truncPrompt_long img H).
    now rewrite <- !string_app_assoc.
  - intros H. rewrite (truncPrompt_short img H), (take_all 50 (prompt img) H). now split.
  - set (p := fun u => String.eqb (Analytics.user_id u) (userId img)).
    destruct (find p users) as [u|] eqn:Ef; cbn [option_map].
    + split; [discriminate|]. intros H. apply find_some in Ef as [Hin Hp].
      unfold p in Hp. apply String.eqb_eq in Hp. now apply H in Hin.
    + split; [|reflexivity]. intros _ u Hin E.
      rewrite find_none_iff in Ef. specialize (Ef u Hin). unfold p in Ef.
      apply String.eqb_neq in Ef. contradiction.
  - intros e. set (p := fun u => String.eqb (Analytics.user_id u) (userId img)).
    induction users as [|u us IH]; cbn [find option_map]; [discriminate|].
    destruct (p u) eqn:Ep.
    + cbn [option_map]. intros [= <-]. exists [], u, us. unfold p in Ep.
      apply String.eqb_eq in Ep. repeat split; [exact Ep | intros v []].
    + intros H. destruct (IH H) as (l1 & w & l2 & -> & Hw & He & Hl1).
      exists (u :: l1), w, l2. repeat split; try assumption.
      intros v [<-|Hv]; [|now apply Hl1]. unfold p in Ep. now apply String.eqb_neq in Ep.
Qed.

End DashboardFacts.

(** ** Daily statistics of records stamped by the generator page *)

Section StampedFacts.
Import JsDate Analytics.

Variable parse : string -> option Z.

Lemma TimeClip_Some t' t : TimeClip t' = Some t -> t' = t /\ Z.abs t <= maxTime.
Proof.
  unfold TimeClip. destruct (Z.leb_spec (Z.abs t') maxTime) as [H|H]; [|discriminate].
  intros [= <-]. now split.
Qed.

Lemma wellStamped_time img :
  wellStamped parse img ->
  createdAt img = isoOf (stampOf parse img)
  /\ newDateOfString parse (createdAt img) = Some (stampOf parse img)
  /\ Z.abs (stampOf parse img) <= maxTime.
Proof.
  intros (t & Hiso & Ht). unfold stampOf. rewrite Ht. repeat split; try assumption.
  unfold newDateOfString in Ht. destruct (parse (createdAt img)); [|discriminate].
  now apply TimeClip_Some in Ht.
Qed.

(** A stamped record begins with the date of its UTC day and of no other
    day. *)
Lemma stamped_day img d :
  wellStamped parse img -> -100000000 <= d <= 100000000 ->
  Str.startsWith (createdAt img) (dateOfDay d) = (Day (stampOf parse img) =? d).
Proof.
  intros Hw Hd. destruct (wellStamped_time img Hw) as (Hiso & _ & Ht).
  set (t := stampOf parse img) in *. rewrite Hiso. unfold isoOf.
  assert (Hown : Str.startsWith
                   (fmtDate (civilOfDay (Day t)) ++ "T" ++ fmtTime t) (dateOfDay (Day t))
                 = true) by apply startsWith_app.
  destruct (Z.eqb_spec (Day t) d) as [<-|Hne]; [exact Hown|].
  destruct (Str.startsWith _ (dateOfDay d)) eqn:E; [|reflexivity].
  exfalso. apply Hne.
  apply dateOfDay_inj; [now apply Day_bounds | exact Hd |].
  unfold dateOfDay. now apply (date_prefix_unique _ _ _ Hown E).
Qed.

Lemma day_start_le t d : d <= Day t <-> d * msPerDay <= t.
Proof. unfold Day, msPerDay. split; intros H; Z.to_euclidean_division_equations; lia. Qed.

(** The records of a covered day pass the filter of the range. *)
Lemma covered_inRange now days img d :
  wellStamped parse img ->
  Z.abs (now - Z.of_nat days * msPerDay) <= maxTime ->
  Day now - Z.of_nat days < d -> Day (stampOf parse img) = d ->
  inRange parse now days img = true.
Proof.
  intros Hw Hstart Hd Hday. destruct (wellStamped_time img Hw) as (_ & Ht & _).
  apply (inRange_iff parse now days img Hstart). exists (stampOf parse img).
  split; [exact Ht|].
  assert (H1 : d * msPerDay <= stampOf parse img) by (apply day_start_le; lia).
  assert (H2 : now < (Day now + 1) * msPerDay).
  { unfold Day, msPerDay. Z.to_euclidean_division_equations. lia. }
  unfold msPerDay in *. nia.
Qed.

Lemma dayImages_stamped now days imgs d :
  Forall (wellStamped parse) imgs ->
  Z.abs (now - Z.of_nat days * msPerDay) <= maxTime ->
  -100000000 <= d <= 100000000 ->
  Day now - Z.of_nat days < d ->
  dayImages (filteredImages parse now days imgs) (dateOfDay d) = onDay parse d imgs.
Proof.
  intros Hw Hstart Hd Hlo. unfold dayImages, filteredImages, onDay.
  rewrite filter_filter. apply filter_ext_in_bool. intros img Hin.
  rewrite Forall_forall in Hw. specialize (Hw img Hin).
  rewrite (stamped_day img d Hw Hd).
  destruct (Z.eqb_spec (Day (stampOf parse img)) d) as [E|E]; [|apply andb_false_r].
  now rewrite (covered_inRange now days img d Hw Hstart Hlo E).
Qed.

Lemma coveredDays_bounds now n d :
  Z.abs now <= maxTime -> - maxTime <= now - (Z.of_nat n - 1) * msPerDay ->
  In d (coveredDays now n) -> -100000000 <= d <= 100000000.
Proof.
  intros Hnow Hlow Hin. apply coveredDays_range in Hin.
  pose proof (Day_bounds now Hnow) as Hb.
  assert (n = 0%nat \/ (0 < n)%nat) as [->|Hn] by lia; [lia|].
  assert (H : - maxTime <= (Day now - (Z.of_nat n - 1)) * msPerDay + (msPerDay - 1)).
  { assert (now <= Day now * msPerDay + (msPerDay - 1)).
    { unfold Day, msPerDay. Z.to_euclidean_division_equations. lia. }
    lia. }
  unfold maxTime, msPerDay in *. lia.
Qed.

Lemma map_seq_offset {X : Type} (f : nat -> X) a n :
  map f (seq a n) = map (fun k => f (a + k)%nat) (seq 0 n).
Proof.
  revert a f. induction n as [|n IH]; intros a f; cbn [seq map]; [reflexivity|].
  f_equal; [f_equal; lia|].
  rewrite (IH (S a) f), (IH 1%nat (fun k => f (a + k)%nat)).
  apply map_ext. intros k. f_equal. lia.
Qed.

Lemma filter_none {X : Type} (p : X -> bool) (l : list X) :
  (forall x, p x = false) -> filter p l = [].
Proof. intros H. induction l as [|x l IH]; cbn; [reflexivity|]. now rewrite H. Qed.

Lemma coveredDays_skipn now d1 d2 :
  (d1 <= d2)%nat -> skipn (d2 - d1) (coveredDays now d2) = coveredDays now d1.
Proof.
  intros H. unfold coveredDays. rewrite skipn_map, skipn_seq.
  replace (d2 - (d2 - d1))%nat with d1 by lia.
  rewrite map_seq_offset. apply map_ext. intros k. lia.
Qed.

Lemma onDays_succ imgs lo n :
  (List.length (onDays parse lo (lo + Z.of_nat n) imgs)
   + List.length (onDay parse (lo + 1 + Z.of_nat n) imgs))%nat
  = List.length (onDays parse lo (lo + Z.of_nat (S n)) imgs).
Proof.
  unfold onDays, onDay. induction imgs as [|img imgs IH]; cbn [filter]; [reflexivity|].
  set (d := Day (stampOf parse img)) in *.
  destruct (Z.ltb_spec lo d), (Z.leb_spec d (lo + Z.of_nat n)),
           (Z.eqb_spec d (lo + 1 + Z.of_nat n)),
           (Z.leb_spec d (lo + Z.of_nat (S n)));
    cbn [andb List.length]; lia.
Qed.

(** The sizes of the days add up to the size of their union. *)
Lemma onDay_total imgs lo n :
  sumZ (map (fun d => Z.of_nat (List.length (onDay parse d imgs)))
          (map (fun k => lo + 1 + Z.of_nat k) (seq 0 n)))
  = Z.of_nat (List.length (onDays parse lo (lo + Z.of_nat n) imgs)).
Proof.
  induction n as [|n IH].
  - cbn. unfold onDays. rewrite Z.add_0_r.
    rewrite filter_none; [reflexivity|]. intros img.
    destruct (Z.ltb_spec lo (Day (stampOf parse img))),
             (Z.leb_spec (Day (stampOf parse img)) lo); try reflexivity. lia.
  - rewrite seq_S, !map_app, sumZ_app, IH. cbn [map]. unfold sumZ at 1. cbn [fold_right].
    rewrite <- onDays_succ. rewrite Nat.add_0_l. lia.
Qed.

Lemma dayImages_all imgs d :
  Forall (wellStamped parse) imgs -> -100000000 <= d <= 100000000 ->
  dayImages imgs (dateOfDay d) = onDay parse d imgs.
Proof.
  intros Hw Hd. unfold dayImages, onDay. apply filter_ext_in_bool. intros img Hin.
  rewrite Forall_forall in Hw. now apply stamped_day; [apply Hw|].
Qed.

(** On stamped records the time filter changes no day of the range: the
    statistics of a covered day are those of the whole collection. *)
Lemma bucketByDay_stamped now days imgs :
  Forall (wellStamped parse) imgs ->
  Z.abs now <= maxTime ->
  Z.abs (now - Z.of_nat days * msPerDay) <= maxTime ->
  bucketByDay parse now days imgs
  = Ok (map (fun d => dayStat imgs (dateOfDay d)) (coveredDays now days)).
Proof.
  intros Hw Hnow Hstart.
  assert (Hlow : - maxTime <= now - (Z.of_nat days - 1) * msPerDay)
    by (unfold msPerDay in *; lia).
  unfold bucketByDay. rewrite dailyStatsLoop_ok by assumption. f_equal.
  apply map_ext_in. intros d Hd.
  pose proof (coveredDays_bounds now days d Hnow Hlow Hd) as Hb.
  pose proof (coveredDays_range now days d Hd) as Hr.
  unfold dayStat.
  rewrite (dayImages_stamped now days imgs d Hw Hstart Hb) by lia.
  now rewrite (dayImages_all imgs d Hw Hb).
Qed.

(** X22.  For records stamped by the generator page (a [createdAt] written
    by [toISOString] that reads back as the same instant) and a range whose
    start is a valid date: each daily entry counts the records of that UTC
    day, all of them, and their distinct users; the image counts add up to
    the number of records of the covered days.  A record that passes the
    time filter but falls on the day before the first covered day, or after
    the day of the clock, is in no entry. *)
Theorem dailyStats_by_day now days imgs :
  Forall (wellStamped parse) imgs ->
  Z.abs now <= maxTime ->
  Z.abs (now - Z.of_nat days * msPerDay) <= maxTime ->
  exists stats,
    bucketByDay parse now days imgs = Ok stats
    /\ map date stats = map dateOfDay (coveredDays now days)
    /\ map images stats
       = map (fun d => Z.of_nat (List.length (onDay parse d imgs))) (coveredDays now days)
    /\ map users stats
       = map (fun d => setSize string_dec (map userId (onDay parse d imgs)))
           (coveredDays now days)
    /\ sumZ (map images stats)
       = Z.of_nat (List.length (onDays parse (Day now - Z.of_nat days) (Day now) imgs)).
Proof.
  intros Hw Hnow Hstart.
  assert (Hlow : - maxTime <= now - (Z.of_nat days - 1) * msPerDay)
    by (unfold msPerDay in *; lia).
  rewrite (bucketByDay_stamped now days imgs Hw Hnow Hstart).
  eexists. split; [reflexivity|].
  assert (Himages : map images (map (fun d => dayStat imgs (dateOfDay d)) (coveredDays now days))
                    = map (fun d => Z.of_nat (List.length (onDay parse d imgs)))
                        (coveredDays now days)).
  { rewrite map_map. apply map_ext_in. intros d Hd. cbn [dayStat images].
    now rewrite (dayImages_all imgs d Hw (coveredDays_bounds now days d Hnow Hlow Hd)). }
  split; [now rewrite map_map|]. split; [exact Himages|]. split.
  - rewrite map_map. apply map_ext_in. intros d Hd. cbn [dayStat users].
    now rewrite (dayImages_all imgs d Hw (coveredDays_bounds now days d Hnow Hlow Hd)).
  - rewrite Himages. unfold coveredDays.
    rewrite (onDay_total imgs (Day now - Z.of_nat days) days). do 3 f_equal. lia.
Qed.

(** X23.  For such records the statistics of a shorter range are the last
    entries of the statistics of a longer one, with the same clock: the
    chart of the last seven days, [dailyStats.slice(-7)], shows the same
    dates and counts whichever range is selected. *)
Theorem dailyStats_ranges_agree now d1 d2 imgs :
  Forall (wellStamped parse) imgs ->
  (0 < d1 <= d2)%nat ->
  Z.abs now <= maxTime ->
  Z.abs (now - Z.of_nat d2 * msPerDay) <= maxTime ->
  exists s1 s2,
    bucketByDay parse now d1 imgs = Ok s1
    /\ bucketByDay parse now d2 imgs = Ok s2
    /\ JsArray.sliceLast d1 s2 = s1.
Proof.
  intros Hw Hd Hnow H2.
  assert (H1 : Z.abs (now - Z.of_nat d1 * msPerDay) <= maxTime)
    by (unfold msPerDay, maxTime in *; lia).
  rewrite (bucketByDay_stamped now d1 imgs Hw Hnow H1).
  rewrite (bucketByDay_stamped now d2 imgs Hw Hnow H2).
  do 2 eexists. split; [reflexivity|]. split; [reflexivity|].
  unfold JsArray.sliceLast. destruct d1 as [|k]; [lia|].
  rewrite length_map. replace (List.length (coveredDays now d2)) with d2
    by (unfold coveredDays; now rewrite length_map, length_seq).
  rewrite skipn_map. now rewrite coveredDays_skipn by lia.
Qed.

End StampedFacts.

Lemma sample_wellStamped : Forall (wellStamped IsoParse.parse) Sample.images.
Proof.
  repeat constructor.
  - exists 1704103200000. split; vm_compute; reflexivity.
  - exists 1704110400000. split; vm_compute; reflexivity.
  - exists 1704272400000. split; vm_compute; reflexivity.
Qed.

Lemma dailyStats_by_day_witness :
  exists stats,
    Analytics.bucketByDay IsoParse.parse Sample.now 3 Sample.images = Ok stats
    /\ map Analytics.images stats = [2; 0; 1]
    /\ sumZ (map Analytics.images stats) = 3.
Proof.
  destruct (dailyStats_by_day IsoParse.parse Sample.now 3 Sample.images)
    as (stats & H1 & _ & H2 & _ & H3).
  - exact sample_wellStamped.
  - vm_compute. discriminate.
  - vm_compute. discriminate.
  - exists stats. split; [exact H1|]. split; [exact H2 | exact H3].
Defined.

Lemma dailyStats_ranges_agree_witness :
  exists s1 s2,
    Analytics.bucketByDay IsoParse.parse Sample.now 7 Sample.images = Ok s1
    /\ Analytics.bucketByDay IsoParse.parse Sample.now 30 Sample.images = Ok s2
    /\ JsArray.sliceLast 7 s2 = s1.
Proof.
  apply (dailyStats_ranges_agree IsoParse.parse Sample.now 7 30 Sample.images).
  - exact sample_wellStamped.
  - lia.
  - vm_compute. discriminate.
  - vm_compute. discriminate.
Defined.

(** ** Searching *)

Section NarrowingFacts.

Lemma includes_unfold s p :
  Str.includes s p
  = Str.startsWith s p || match s with EmptyString => false | String _ s' => Str.includes s' p end.
Proof. destruct s; reflexivity. Qed.

Lemma includes_split s p :
  Str.includes s p = true -> exists a b, s = (a ++ p ++ b)%string.
Proof.
  induction s as [|c s IH]; rewrite includes_unfold; intros H;
    apply orb_prop in H as [H|H]; try discriminate.
  - apply startsWith_split in H as (r & ->). now exists EmptyString, r.
  - apply startsWith_split in H as (r & ->). now exists EmptyString, r.
  - destruct (IH H) as (a & b & ->). now exists (String c a), b.
Qed.

Lemma includes_app a p b : Str.includes (a ++ p ++ b) p = true.
Proof.
  induction a as [|c a IH]; rewrite includes_unfold.
  - cbn [append]. now rewrite startsWith_app.
  - cbn [append]. rewrite IH. apply orb_true_r.
Qed.

(** A text that holds [q] holds every text that [q] holds. *)
Lemma includes_trans s q p :
  Str.includes s q = true -> Str.includes q p = true -> Str.includes s p = true.
Proof.
  intros H1 H2. apply includes_split in H1 as (a & b & ->).
  apply includes_split in H2 as (c & d & ->).
  replace (a ++ (c ++ p ++ d) ++ b)%string with ((a ++ c) ++ p ++ (d ++ b))%string
    by (now rewrite !string_app_assoc).
  apply includes_app.
Qed.

Lemma filter_narrow {X : Type} (p1 p2 : X -> bool) (l : list X) :
  (forall x, p2 x = true -> p1 x = true) ->
  filter p2 l = filter p2 (filter p1 l).
Proof.
  intros H. rewrite filter_filter. apply filter_ext. intros x.
  destruct (p2 x) eqn:E; [now rewrite (H x E) | now rewrite andb_false_r].
Qed.

(** X24.  A longer query never shows more: when the query [q1], in lower
    case, occurs in the query [q2], in lower case, the images that the
    gallery shows for [q2] are among those it shows for [q1] with the same
    two filters, in the same order, and searching for [q2] within those
    gives the same result; and so for the table of the users.  The size and
    quality filters only remove images from the result of the search
    alone. *)
Theorem search_narrows (toLowerCase : string -> string) q1 q2 sz ql
    (images : list GeneratedImage) (users : list UserManagement.User) :
  Str.includes (toLowerCase q2) (toLowerCase q1) = true ->
  Gallery.filteredImages toLowerCase q2 sz ql images
  = Gallery.filteredImages toLowerCase q2 sz ql
      (Gallery.filteredImages toLowerCase q1 sz ql images)
  /\ Subseq (Gallery.filteredImages toLowerCase q2 sz ql images)
       (Gallery.filteredImages toLowerCase q1 sz ql images)
  /\ Subseq (Gallery.filteredImages toLowerCase q1 sz ql images)
       (Gallery.filteredImages toLowerCase q1 "all" "all" images)
  /\ UserManagement.filteredUsers toLowerCase q2 users
     = UserManagement.filteredUsers toLowerCase q2
         (UserManagement.filteredUsers toLowerCase q1 users)
  /\ Subseq (UserManagement.filteredUsers toLowerCase q2 users)
       (UserManagement.filteredUsers toLowerCase q1 users).
Proof.
  intros Hq.
  assert (Himg : Gallery.filteredImages toLowerCase q2 sz ql images
                 = Gallery.filteredImages toLowerCase q2 sz ql
                     (Gallery.filteredImages toLowerCase q1 sz ql images)).
  { unfold Gallery.filteredImages. apply filter_narrow. intros image H.
    apply andb_prop in H as [H Hql]. apply andb_prop in H as [Hs Hsz].
    now rewrite (includes_trans _ _ _ Hs Hq), Hsz, Hql. }
  assert (Husr : UserManagement.filteredUsers toLowerCase q2 users
                 = UserManagement.filteredUsers toLowerCase q2
                     (UserManagement.filteredUsers toLowerCase q1 users)).
  { unfold UserManagement.filteredUsers. apply filter_narrow. intros user H.
    apply orb_prop in H as [H|H].
    - now rewrite (includes_trans _ _ _ H Hq).
    - destruct (UserManagement.displayName user) as [nm|]; [|discriminate].
      rewrite (includes_trans _ _ _ H Hq). apply orb_true_r. }
  split; [exact Himg|]. split; [rewrite Himg; apply filter_Subseq|].
  split.
  { unfold Gallery.filteredImages.
    rewrite (filter_narrow
               (fun image => Str.includes (toLowerCase (prompt image)) (toLowerCase q1)
                             && (String.eqb "all" "all" || String.eqb (size image) "all")
                             && (String.eqb "all" "all" || String.eqb (quality image) "all"))).
    - apply filter_Subseq.
    - intros image H. apply andb_prop in H as [H _]. apply andb_prop in H as [H _].
      now rewrite H. }
  split; [exact Husr|]. rewrite Husr. apply filter_Subseq.
Qed.

Lemma search_narrows_witness :
  Subseq (Gallery.filteredImages asciiLower "A Cat" "all" "all" Sample.images)
    (Gallery.filteredImages asciiLower "CAT" "all" "all" Sample.images)
  /\ Subseq (UserManagement.filteredUsers asciiLower "Ada@" Sample.managed)
       (UserManagement.filteredUsers asciiLower "ada" Sample.managed).
Proof.
  destruct (search_narrows asciiLower "CAT" "A Cat" "all" "all" Sample.images []) as (_ & H & _).
  - reflexivity.
  - split; [exact H|].
    destruct (search_narrows asciiLower "ada" "Ada@" "all" "all" [] Sample.managed)
      as (_ & _ & _ & _ & H').
    + reflexivity.
    + exact H'.
Defined.

End NarrowingFacts.

(** ** Links and routes *)

Section NavigationFacts.
Import Navigation.

(** X25.  The sidebar and the router agree for every user: the links of the
    sidebar are, in order, the paths of the routes before the catch-all
    one, and the links marked [adminOnly] are those under [/admin].  A user
    is an administrator exactly when the role is the text [admin]; any other
    user, or one without role, gets no link marked [adminOnly] and no route
    under [/admin]. *)
Theorem links_match_routes role :
  (map href (allNavigation (isAdmin role)) ++ ["*"%string] = routes (isAdmin role))
  /\ (isAdmin role = true <-> role = Some "admin"%string)
  /\ Forall (fun item => adminOnly item = Str.startsWith (href item) "/admin")
       (allNavigation (isAdmin role))
  /\ (role <> Some "admin"%string ->
      Forall (fun item => adminOnly item = false) (allNavigation (isAdmin role))
      /\ Forall (fun path => Str.startsWith path "/admin" = false) (routes (isAdmin role))).
Proof.
  assert (Hrole : isAdmin role = true <-> role = Some "admin"%string).
  { unfold isAdmin. destruct role as [r|]; [|split; discriminate].
    rewrite String.eqb_eq. split; [now intros -> | now intros [= ->]]. }
  split; [now destruct (isAdmin role)|]. split; [exact Hrole|].
  split; [destruct (isAdmin role); repeat constructor|].
  intros Hne. destruct (isAdmin role).
  - exfalso. apply Hne. now apply Hrole.
  - split; repeat constructor.
Qed.

End NavigationFacts.

(** ** The widths of the bars *)

Section BarFacts.
Import JsNum Bars.

Lemma fold_max_spec l x :
  In (fold_left Z.max l x) (x :: l)
  /\ Forall (fun y => y <= fold_left Z.max l x) (x :: l).
Proof.
  revert x. induction l as [|y l IH]; intros x; cbn [fold_left].
  - split; [now left | constructor; [lia | constructor]].
  - destruct (IH (Z.max x y)) as [Hin Hall]. split.
    + destruct Hin as [E|Hin]; [|right; now right].
      rewrite <- E. destruct (Z.max_spec x y) as [[_ ->]|[_ ->]]; [right|]; now left.
    + inversion Hall as [|? ? Hm Hl]; subst.
      constructor; [lia|]. constructor; [lia | exact Hl].
Qed.

Lemma width_positive x p all :
  maxOf all = ofZ (Z.pos p) ->
  width x all
  = if Qle_bool (inject_Z x / inject_Z (Z.pos p) * inject_Z 100) (inject_Z 5)
    then ofZ 5
    else Finite (inject_Z x / inject_Z (Z.pos p) * inject_Z 100).
Proof. intros H. unfold width. rewrite H. reflexivity. Qed.

Lemma quotient_le x p k :
  (inject_Z x / inject_Z (Z.pos p) * inject_Z 100 <= inject_Z k)%Q
  <-> x * 100 <= k * Z.pos p.
Proof. unfold Qle. cbn. rewrite !Z.mul_1_r. lia. Qed.

Lemma quotient_ge x p k :
  (inject_Z k <= inject_Z x / inject_Z (Z.pos p) * inject_Z 100)%Q
  <-> k * Z.pos p <= x * 100.
Proof. unfold Qle. cbn. rewrite !Z.mul_1_r. lia. Qed.

Lemma quotient_eq x p :
  (inject_Z x / inject_Z (Z.pos p) * inject_Z 100 == inject_Z 100)%Q <-> x = Z.pos p.
Proof. unfold Qeq. cbn. rewrite !Z.mul_1_r. lia. Qed.

Lemma quotient_value x p :
  (inject_Z x / inject_Z (Z.pos p) * inject_Z 100 == (x * 100) # p)%Q.
Proof. unfold Qeq. cbn. rewrite !Z.mul_1_r. lia. Qed.

(** The width of the bar of [x] among the counts [all], by the largest
    count [m]. *)
Lemma width_cases x all :
  In x all -> Forall (fun y => 0 <= y) all ->
  exists m,
    In m all /\ Forall (fun y => y <= m) all
    /\ ((m = 0 /\ width x all = NaN)
        \/ (0 < m
            /\ exists q, width x all = Finite q
                 /\ (inject_Z 5 <= q)%Q /\ (q <= inject_Z 100)%Q
                 /\ ((q == inject_Z 100)%Q <-> x = m)
                 /\ (x * 100 <= 5 * m -> q = inject_Z 5)
                 /\ (5 * m < x * 100 -> (q == (x * 100) # Z.to_pos m)%Q))).
Proof.
  intros Hx Hpos. destruct all as [|y l]; [destruct Hx|].
  destruct (fold_max_spec l y) as [Hin Hmax].
  set (m := fold_left Z.max l y) in *. exists m. split; [exact Hin|]. split; [exact Hmax|].
  assert (Hm : 0 <= m) by (rewrite Forall_forall in Hpos; now apply Hpos).
  assert (Hxm : 0 <= x <= m)
    by (rewrite Forall_forall in Hpos, Hmax; split; [now apply Hpos | now apply Hmax]).
  destruct m as [|p|p] eqn:Em; [left | right | lia].
  - split; [reflexivity|]. unfold width, maxOf. fold m. rewrite Em.
    replace x with 0 by lia. reflexivity.
  - split; [lia|]. rewrite (width_positive x p) by (unfold maxOf; fold m; now rewrite Em).
    destruct (Qle_bool _ (inject_Z 5)) eqn:E.
    + apply Qle_bool_iff, quotient_le in E. exists (inject_Z 5).
      split; [reflexivity|]. split; [apply Qle_refl|]. split; [unfold Qle; cbn; lia|].
      split; [|split; [reflexivity | lia]].
      split; [intros H; unfold Qeq in H; cbn in H; lia | lia].
    + assert (Hgt : 5 * Z.pos p < x * 100).
      { destruct (Z.le_gt_cases (x * 100) (5 * Z.pos p)) as [H|H]; [|exact H].
        apply (quotient_le x p 5), Qle_bool_iff in H. congruence. }
      eexists. split; [reflexivity|].
      split; [apply quotient_ge; lia|]. split; [apply quotient_le; lia|].
      split; [apply quotient_eq|]. split; [lia|]. intros _. apply quotient_value.
Qed.

(** X26.  The width of a bar, [Math.max(5, x / Math.max(...all) * 100)]
    with the quotient taken exactly, for a count [x] among counts [all] that
    are not negative: it is NaN when all the counts are 0; otherwise it is a
    number between 5 and 100, which is 100 exactly for the largest count and
    5 for every count of at most a twentieth of the largest, and it is the
    percentage [100 x / m] of the largest count [m] above that. *)
Theorem width_range x all :
  In x all -> Forall (fun y => 0 <= y) all ->
  (Forall (fun y => y = 0) all -> width x all = NaN)
  /\ (Exists (fun y => 0 < y) all ->
      exists q m,
        In m all /\ Forall (fun y => y <= m) all
        /\ width x all = Finite q
        /\ (inject_Z 5 <= q)%Q /\ (q <= inject_Z 100)%Q
        /\ ((q == inject_Z 100)%Q <-> x = m)
        /\ (x * 100 <= 5 * m -> q = inject_Z 5)
        /\ (5 * m < x * 100 -> (q == (x * 100) # Z.to_pos m)%Q)).
Proof.
  intros Hx Hpos.
  destruct (width_cases x all Hx Hpos) as (m & Hin & Hmax & [[Hm Hw]|[Hm Hq]]).
  - split; [intros _; exact Hw|]. intros He. exfalso.
    apply Exists_exists in He as (y & Hy & Hlt).
    rewrite Forall_forall in Hmax. specialize (Hmax y Hy). lia.
  - split.
    + intros Hz. exfalso. rewrite Forall_forall in Hz. specialize (Hz m Hin). lia.
    + intros _. destruct Hq as (q & Hq). exists q, m. tauto.
Qed.

Lemma width_range_witness :
  width 0 [0; 0; 0] = NaN
  /\ width 1 [2; 0; 1] = Finite (inject_Z 1 / inject_Z 2 * inject_Z 100)
  /\ width 0 [2; 0; 1] = Finite (inject_Z 5).
Proof.
  destruct (width_range 0 [0; 0; 0]) as [H _].
  - now left.
  - repeat constructor; lia.
  - split; [apply H; repeat constructor | split; reflexivity].
Defined.

Lemma firstn_head {X : Type} n (l : list X) x rest :
  firstn n l = x :: rest -> exists rest', l = x :: rest'.
Proof. destruct n, l; cbn; try discriminate. intros [= -> _]. eauto. Qed.

(** X27.  On the page: when no record is in the range, every bar of the
    daily chart has the width NaN.  The bars of the popular prompts (prompts
    that are not names inherited from [Object.prototype]) always have a
    width between 5 and 100, and the first of them is full. *)
Theorem chart_bars parse now days imgs stats limit filtered :
  Analytics.bucketByDay parse now days imgs = Ok stats ->
  Forall (fun img => ~ In (Analytics.truncPrompt img) JsObject.inheritedKeys) filtered ->
  (Analytics.filteredImages parse now days imgs = [] ->
   Forall (fun s => width (Analytics.images s) (map Analytics.images stats) = NaN)
     (JsArray.sliceLast 7 stats))
  /\ (let tops := Analytics.topPromptsOf limit filtered in
      Forall (fun p => exists q,
                width (Analytics.pc_count p) (map Analytics.pc_count tops) = Finite q
                /\ (inject_Z 5 <= q)%Q /\ (q <= inject_Z 100)%Q) tops
      /\ forall p rest, tops = p :: rest ->
           exists q, width (Analytics.pc_count p) (map Analytics.pc_count tops) = Finite q
                     /\ (q == inject_Z 100)%Q).
Proof.
  intros Hstats _. split.
  - intros Hnone. unfold Analytics.bucketByDay in Hstats. rewrite Hnone in Hstats.
    pose proof (dailyStatsLoop_entries now [] days stats Hstats) as He.
    assert (Hzero : Forall (fun y => y = 0) (map Analytics.images stats)).
    { apply Forall_map. eapply Forall_impl; [|exact He]. intros s ->. reflexivity. }
    destruct (sliceLast_suffix 7 stats) as (older & Hsplit).
    apply Forall_forall. intros s Hs.
    assert (Hin : In s stats) by (rewrite Hsplit; apply in_or_app; now right).
    assert (Hx : In (Analytics.images s) (map Analytics.images stats)) by now apply in_map.
    destruct (width_cases _ _ Hx) as (m & Hm & _ & [[_ Hw]|[Hpos _]]).
    + eapply Forall_impl; [|exact Hzero]. intros y ->. lia.
    + exact Hw.
    + rewrite Forall_forall in Hzero. specialize (Hzero m Hm). lia.
  - intros tops. unfold tops, Analytics.topPromptsOf, JsArray.sliceTo.
    rewrite promptCounts_fold.
    set (keys := map Analytics.truncPrompt filtered).
    set (o := fold_left Analytics.bump keys JsObject.empty).
    set (sorted := JsArray.sort Analytics.byCountDesc (JsObject.entries o)).
    set (kept := firstn limit sorted).
    assert (Hcounts : map Analytics.pc_count
                        (map (fun e => Analytics.mkPromptCount (fst e) (snd e)) kept)
                      = map snd kept) by (rewrite map_map; now apply map_ext).
    rewrite Hcounts.
    assert (Hone : Forall (fun y => 1 <= y) (map snd kept)).
    { apply Forall_map, Forall_forall. intros [k v] Hin.
      assert (Hs : In (k, v) sorted)
        by (unfold kept in Hin; rewrite <- (firstn_skipn limit sorted);
            apply in_or_app; now left).
      apply (Permutation_in _ (sort_perm Analytics.byCountDesc _)) in Hs.
      apply (Permutation_in _ (entries_perm o)) in Hs.
      apply counting_entry in Hs. cbn. lia. }
    assert (Hpos : Forall (fun y => 0 <= y) (map snd kept))
      by (eapply Forall_impl; [|exact Hone]; cbn; intros; lia).
    assert (Hsorted : StronglySorted (fun a b => snd b <= snd a) kept)
      by (apply StronglySorted_firstn, byCountDesc_sorted).
    assert (Hbar : forall e, In e kept ->
              exists m, In m (map snd kept) /\ Forall (fun y => y <= m) (map snd kept)
                /\ exists q, width (snd e) (map snd kept) = Finite q
                     /\ (inject_Z 5 <= q)%Q /\ (q <= inject_Z 100)%Q
                     /\ ((q == inject_Z 100)%Q <-> snd e = m)).
    { intros e He.
      destruct (width_cases (snd e) (map snd kept) (in_map snd _ _ He) Hpos)
        as (m & Hm & Hmax & [[Hz _]|[_ (q & Hq)]]).
      - rewrite Forall_forall in Hone. specialize (Hone m Hm). lia.
      - exists m. split; [exact Hm|]. split; [exact Hmax|]. exists q. tauto. }
    split.
    + apply Forall_map, Forall_forall. intros e He. cbn [Analytics.pc_count].
      destruct (Hbar e He) as (m & _ & _ & q & Hq). exists q. tauto.
    + intros p rest Htops. destruct kept as [|e erest] eqn:Ek; [discriminate|].
      cbn [map] in Htops. injection Htops as <- _. cbn [Analytics.pc_count].
      destruct (Hbar e (or_introl eq_refl)) as (m & Hm & Hmax & q & Hq & _ & _ & Hfull).
      exists q. split; [exact Hq|]. apply Hfull.
      inversion Hsorted as [|? ? _ Hle]; subst.
      inversion Hmax as [|? ? Hem _]; subst.
      destruct Hm as [E|Hm]; [exact E|].
      apply in_map_iff in Hm as (e' & <- & He'). rewrite Forall_forall in Hle.
      specialize (Hle e' He'). lia.
Qed.

Lemma chart_bars_witness :
  Forall (fun s => width (Analytics.images s) (map Analytics.images
            [Analytics.mkDayStat "2024-01-02" 0 0; Analytics.mkDayStat "2024-01-03" 0 0])
          = NaN)
    (JsArray.sliceLast 7
       [Analytics.mkDayStat "2024-01-02" 0 0; Analytics.mkDayStat "2024-01-03" 0 0]).
Proof.
  destruct (chart_bars IsoParse.parse Sample.now 2 []
              [Analytics.mkDayStat "2024-01-02" 0 0; Analytics.mkDayStat "2024-01-03" 0 0]
              10 Sample.images) as [H _].
  - reflexivity.
  - repeat constructor; vm_compute; intuition discriminate.
  - apply H. reflexivity.
Defined.

End BarFacts.
